(** * discord-ollama: path confinement, document store and bounded queue

    A shallow embedding of the storage core of the bot:
    - [Queue]          src/queues/queue.ts        (bounded FIFO context window)
    - [PathSafety]     src/utils/pathSafety.ts    (sanitizeFilename, getSafeDataPath)
    - [Validation]     src/utils/validation.ts    (validateMessageContent, ids, names)
    - [Store]          src/utils/handlers/configHandler.ts and chatHistoryHandler.ts
    - [MessageCreate]  src/events/messageCreate.ts (the histories kept for a message)
    - [ThreadDelete]   src/events/threadDelete.ts

    Conventions.  A JavaScript string is the list of its UTF-16 code units
    ([list N]); [.length] is the length of that list.  A JavaScript [number]
    that the code only uses as an integer (a queue capacity, a length) is a
    [Z].  A function that may throw returns a [result]. *)

From Stdlib Require Import ZArith NArith QArith String Ascii.
From stdpp Require Import base option list numbers countable gmap.

Set Default Proof Using "Type".
Local Open Scope Z_scope.

(** ** JavaScript strings *)

Abbreviation jsstring := (list N).

(** The code units of an ASCII literal. *)
Definition js (s : string) : jsstring :=
  map N_of_ascii (list_ascii_of_string s).

(** What a [throw] carries.  The handlers only ever inspect [error.code],
    so an error records whether it is a Node errno error and which one. *)
Inductive errno := ENOENT | EOTHER.

Inductive error :=
| ErrnoError (code : errno)      (* thrown by fs.promises.* *)
| SyntaxError                    (* thrown by JSON.parse *)
| TypeError                      (* property access on null, strict-mode write to a primitive *)
| ValidationError (msg : string) (* validation.ts *)
| Error_ (msg : string)          (* new Error(msg) *)
| Unmodelled.                    (* no exception: a step this embedding does not follow *)

(** [(error as NodeJS.ErrnoException).code === 'ENOENT'] *)
Definition code_is_ENOENT (e : error) : bool :=
  match e with
  | ErrnoError ENOENT => true
  | _ => false
  end.

Inductive result (A : Type) :=
| Ok (a : A)
| Err (e : error).
Arguments Ok {A} a.
Arguments Err {A} e.

Definition bind {A B} (r : result A) (k : A -> result B) : result B :=
  match r with
  | Ok a => k a
  | Err e => Err e
  end.

Notation "'let*' x ':=' r 'in' k" := (bind r (fun x => k))
  (at level 10, x name, r at level 100, k at level 200, only parsing).

Definition is_ok {A} (r : result A) : bool :=
  match r with Ok _ => true | Err _ => false end.

(** ** queue.ts *)

Module Queue.

Record t (T : Type) := mk { capacity : Z; storage : list T }.
Arguments mk {T} capacity storage.
Arguments capacity {T} _.
Arguments storage {T} _.

Section Ops.
Context {T : Type}.

(** [constructor(public capacity: number = 5)] *)
Definition new (capacity : Z) : result (t T) :=
  if capacity <? 1 then Err (Error_ "Queue capacity must be at least 1")
  else Ok (mk capacity []).

Definition new_default : result (t T) := new 5.

(** [capacity] is a public mutable field (messageCreate.ts assigns it). *)
Definition set_capacity (q : t T) (c : Z) : t T := mk c (storage q).

(** [size(): return this.storage.length] *)
Definition size (q : t T) : Z := Z.of_nat (length (storage q)).

(** [dequeue(): return this.storage.shift()] *)
Definition dequeue (q : t T) : option T * t T :=
  match storage q with
  | [] => (None, q)
  | x :: rest => (Some x, mk (capacity q) rest)
  end.

(** [Array.prototype.pop]: the last element and the array without it. *)
Fixpoint array_pop (l : list T) : option T * list T :=
  match l with
  | [] => (None, [])
  | [x] => (Some x, [])
  | x :: rest => let '(r, rest') := array_pop rest in (r, x :: rest')
  end.

(** [removeLast(): return this.storage.pop()] *)
Definition removeLast (q : t T) : option T * t T :=
  let '(r, s) := array_pop (storage q) in (r, mk (capacity q) s).

(** [getItems(): return [...this.storage]] *)
Definition getItems (q : t T) : list T := storage q.

(** [while (this.size() >= this.capacity) this.dequeue();]
    run with a bound on the number of iterations.  [Some (n, q')]: the loop
    left after [n] iterations in state [q']; [None]: the guard still held
    when the bound was used up. *)
Fixpoint evict (fuel : nat) (q : t T) : option (nat * t T) :=
  if capacity q <=? size q then
    match fuel with
    | O => None
    | S fuel' =>
        match evict fuel' (snd (dequeue q)) with
        | Some (n, q') => Some (S n, q')
        | None => None
        end
    end
  else Some (O, q).

(** [this.storage.push(item)] *)
Definition push (q : t T) (item : T) : t T :=
  mk (capacity q) (storage q ++ [item]).

(** [enqueue(item)] with an iteration bound for its loop. *)
Definition enqueue_fuel (fuel : nat) (q : t T) (item : T) : option (t T) :=
  match evict fuel q with
  | Some (_, q') => Some (push q' item)
  | None => None
  end.

(** [enqueue(item)].  The bound [length storage] loses nothing: whenever
    the loop terminates at all it does so within that many iterations
    ([enqueue_fuel_complete] below), so [None] means the call hangs. *)
Definition enqueue (q : t T) (item : T) : option (t T) :=
  enqueue_fuel (length (storage q)) q item.

(** [setQueue(newQueue)]: the outcome and the queue afterwards. *)
Definition setQueue (q : t T) (newQueue : list T) : result unit * t T :=
  if capacity q <? Z.of_nat (length newQueue) then
    (Err (Error_ "Cannot set queue: items exceed capacity"), q)
  else (Ok tt, mk (capacity q) newQueue).

Definition clear (q : t T) : t T := mk (capacity q) [].
Definition isEmpty (q : t T) : bool := Nat.eqb (length (storage q)) 0.
Definition isFull (q : t T) : bool := capacity q <=? size q.

(** A run of [enqueue] calls, left to right. *)
Fixpoint enqueue_all (q : t T) (items : list T) : option (t T) :=
  match items with
  | [] => Some q
  | x :: rest =>
      match enqueue q x with
      | Some q' => enqueue_all q' rest
      | None => None
      end
  end.

End Ops.
End Queue.

(** ** Code units the sources name *)

Definition NUL : N := 0.
Definition SPACE : N := 32.
Definition DOT : N := 46.         (* "." *)
Definition SLASH : N := 47.       (* "/" *)
Definition BACKSLASH : N := 92.
Definition UNDERSCORE : N := 95.  (* "_" *)

(** [String.prototype.startsWith] *)
Fixpoint startsWith (s prefix : jsstring) {struct prefix} : bool :=
  match prefix, s with
  | [], _ => true
  | p :: prefix', c :: s' => (c =? p)%N && startsWith s' prefix'
  | _ :: _, [] => false
  end.

(** [a === b] on strings *)
Definition str_eqb (a b : jsstring) : bool := bool_decide (a = b).

(** ** Node's [path] module, POSIX flavour

    [path.join] and [path.resolve] belong to the Node runtime, not to the
    repository.  They are written here from Node's lib/path.js
    ([posix.normalize], [posix.join], [posix.resolve], [normalizeString]),
    with the character loop of [normalizeString] rendered as a pass over the
    ["/"]-separated segments of its argument. *)

Module NodePath.

Definition sep : jsstring := [SLASH].

(** The segments between the separators; ["a//b"] has three of them: ["a"],
    the empty segment and ["b"]. *)
Fixpoint segments (path : jsstring) : list jsstring :=
  match path with
  | [] => [[]]
  | c :: rest =>
      if (c =? SLASH)%N then [] :: segments rest
      else match segments rest with
           | seg :: segs => (c :: seg) :: segs
           | [] => [[c]]
           end
  end.

(** Segments glued back with single separators. *)
Fixpoint glue (segs : list jsstring) : jsstring :=
  match segs with
  | [] => []
  | [seg] => seg
  | seg :: segs' => seg ++ sep ++ glue segs'
  end.

(** One segment of [normalizeString]; [res] is the result so far, last
    segment first.  Empty segments and ["."] are skipped; [".."] removes
    the last segment unless there is none or it is [".."] itself, in which
    case it is kept only when [allowAboveRoot]. *)
Definition normalize_step (allowAboveRoot : bool)
    (res : list jsstring) (seg : jsstring) : list jsstring :=
  if str_eqb seg [] || str_eqb seg [DOT] then res
  else if str_eqb seg [DOT; DOT] then
    match res with
    | last :: res' =>
        if str_eqb last [DOT; DOT]
        then (if allowAboveRoot then seg :: res else res)
        else res'
    | [] => if allowAboveRoot then [seg] else []
    end
  else seg :: res.

Definition normalizeString (path : jsstring) (allowAboveRoot : bool) : jsstring :=
  glue (rev (fold_left (normalize_step allowAboveRoot) (segments path) [])).

(** [posix.isAbsolute] *)
Definition isAbsolute (path : jsstring) : bool :=
  match path with
  | c :: _ => (c =? SLASH)%N
  | [] => false
  end.

Definition trailingSeparator (path : jsstring) : bool :=
  match last path with
  | Some c => (c =? SLASH)%N
  | None => false
  end.

(** [posix.normalize] *)
Definition normalize (path : jsstring) : jsstring :=
  match path with
  | [] => [DOT]
  | _ =>
      let p := normalizeString path (negb (isAbsolute path)) in
      match p with
      | [] =>
          if isAbsolute path then sep
          else if trailingSeparator path then DOT :: sep else [DOT]
      | _ =>
          let p := if trailingSeparator path then p ++ sep else p in
          if isAbsolute path then sep ++ p else p
      end
  end.

(** [posix.join]: the non-empty arguments, separated by ["/"], normalized. *)
Definition join (args : list jsstring) : jsstring :=
  match List.filter (fun a => negb (str_eqb a [])) args with
  | [] => [DOT]
  | parts => normalize (glue parts)
  end.

(** The right-to-left scan of [posix.resolve]: prepend arguments until an
    absolute one has been prepended.  [paths] is the argument list
    reversed, followed by the working directory. *)
Fixpoint resolve_scan (paths : list jsstring) (resolvedPath : jsstring)
    : jsstring * bool :=
  match paths with
  | [] => (resolvedPath, false)
  | p :: rest =>
      match p with
      | [] => resolve_scan rest resolvedPath
      | _ =>
          let resolvedPath := p ++ sep ++ resolvedPath in
          if isAbsolute p then (resolvedPath, true)
          else resolve_scan rest resolvedPath
      end
  end.

(** [posix.resolve], with [process.cwd()] as a parameter. *)
Definition resolve (cwd : jsstring) (args : list jsstring) : jsstring :=
  let '(resolvedPath, resolvedAbsolute) := resolve_scan (rev args ++ [cwd]) [] in
  let resolvedPath := normalizeString resolvedPath (negb resolvedAbsolute) in
  if resolvedAbsolute then sep ++ resolvedPath
  else match resolvedPath with
       | [] => [DOT]
       | _ => resolvedPath
       end.

(** The scan of [posix.dirname] over the code units after the first, from
    the end: trailing separators, then the last segment, up to the
    separator before it.  [None]: no such separator. *)
Fixpoint skip_separators (r : jsstring) : jsstring :=
  match r with
  | c :: r' => if (c =? SLASH)%N then skip_separators r' else r
  | [] => []
  end.

Fixpoint skip_segment (r : jsstring) : option jsstring :=
  match r with
  | c :: r' => if (c =? SLASH)%N then Some r' else skip_segment r'
  | [] => None
  end.

(** [posix.dirname] *)
Definition dirname (path : jsstring) : jsstring :=
  match path with
  | [] => [DOT]
  | c :: rest =>
      match skip_segment (skip_separators (rev rest)) with
      | None => if (c =? SLASH)%N then sep else [DOT]
      | Some before =>
          if (c =? SLASH)%N && str_eqb before [] then sep ++ sep
          else c :: rev before
      end
  end.

End NodePath.

(** ** pathSafety.ts *)

Module PathSafety.

(** [.replace(/\x00/g, '')] *)
Definition remove_null_bytes (s : jsstring) : jsstring :=
  List.filter (fun c => negb (c =? NUL)%N) s.

(** [.replace(/[\/\\]/g, '_')] *)
Definition replace_separators (s : jsstring) : jsstring :=
  map (fun c => if (c =? SLASH)%N || (c =? BACKSLASH)%N then UNDERSCORE else c) s.

(** [[\x00-\x1f\x7f-\x9f]] *)
Definition is_control (c : N) : bool :=
  (c <=? 31)%N || ((127 <=? c)%N && (c <=? 159)%N).

(** [.replace(/[\x00-\x1f\x7f-\x9f]/g, '_')] *)
Definition replace_control (s : jsstring) : jsstring :=
  map (fun c => if is_control c then UNDERSCORE else c) s.

Fixpoint skip_dots (s : jsstring) : jsstring :=
  match s with
  | c :: rest => if (c =? DOT)%N then skip_dots rest else s
  | [] => []
  end.

(** [.replace(/^\.+/, '_')]: a leading run of dots becomes one ["_"]. *)
Definition replace_leading_dots (s : jsstring) : jsstring :=
  match s with
  | c :: _ => if (c =? DOT)%N then UNDERSCORE :: skip_dots s else s
  | [] => []
  end.

Definition sanitizeFilename (input : jsstring) : result jsstring :=
  match input with
  | [] => Err (Error_ "Filename must be a non-empty string")
  | _ =>
      let sanitized :=
        replace_leading_dots
          (replace_control (replace_separators (remove_null_bytes input))) in
      let sanitized :=
        if (255 <? length sanitized)%nat then take 255 sanitized else sanitized in
      if (length sanitized =? 0)%nat
      then Err (Error_ "Filename cannot be empty after sanitization")
      else Ok sanitized
  end.

Section DataDir.
(** [process.cwd()] at start-up. *)
Variable cwd : jsstring.

(** [const DATA_DIR = path.resolve(process.cwd(), 'data')] *)
Definition DATA_DIR : jsstring := NodePath.resolve cwd [cwd; js "data"].

(** [resolvedPath.startsWith(DATA_DIR + path.sep) || resolvedPath === DATA_DIR] *)
Definition within_data_dir (resolvedPath : jsstring) : bool :=
  startsWith resolvedPath (DATA_DIR ++ NodePath.sep)
  || str_eqb resolvedPath DATA_DIR.

Definition getSafeDataPath (filename : jsstring) : result jsstring :=
  let* sanitized := sanitizeFilename filename in
  let fullPath := NodePath.join [DATA_DIR; sanitized] in
  let resolvedPath := NodePath.resolve cwd [fullPath] in
  if negb (startsWith resolvedPath (DATA_DIR ++ NodePath.sep))
     && negb (str_eqb resolvedPath DATA_DIR)
  then Err (Error_ "Security: Path traversal detected.")
  else Ok resolvedPath.

(** [isPathSafe(filePath)] *)
Definition isPathSafe (filePath : jsstring) : bool :=
  within_data_dir (NodePath.resolve cwd [filePath]).

End DataDir.
End PathSafety.

(** ** JavaScript numbers

    A [number] as far as the validators look at it: not-a-number, an
    infinity, or a finite value, taken here as the rational it stands for.
    Comparisons are those of [<] and [>]: false as soon as one side is NaN. *)

Inductive number :=
| NaN
| Infinity (negative : bool)
| Finite (q : Q).

(** [a < b] *)
Definition number_lt (a b : number) : bool :=
  match a, b with
  | NaN, _ | _, NaN => false
  | Infinity na, Infinity nb => na && negb nb
  | Infinity na, Finite _ => na
  | Finite _, Infinity nb => negb nb
  | Finite x, Finite y => negb (Qle_bool y x)
  end.

(** [a > b] *)
Definition number_gt (a b : number) : bool := number_lt b a.

Definition Number_isFinite (a : number) : bool :=
  match a with
  | Finite _ => true
  | _ => false
  end.

Definition Number_isInteger (a : number) : bool :=
  match a with
  | Finite q => (Qnum q mod Z.pos (Qden q) =? 0)
  | _ => false
  end.

(** The number an integer literal denotes. *)
Definition of_Z (z : Z) : number := Finite (inject_Z z).

(** ** validation.ts *)

Module Validation.

(** The class [\s] of a JavaScript regular expression, which is also what
    [String.prototype.trim] strips: white space and line terminators. *)
Definition is_whitespace (c : N) : bool :=
  ((9 <=? c) && (c <=? 13)        (* \t \n \v \f \r *)
   || (c =? 0x20) || (c =? 0xa0) || (c =? 0x1680)
   || ((0x2000 <=? c) && (c <=? 0x200a))
   || (c =? 0x2028) || (c =? 0x2029) || (c =? 0x202f)
   || (c =? 0x205f) || (c =? 0x3000) || (c =? 0xfeff))%N.

(** [.replace(/\s+/g, ' ')]: every maximal run of white space becomes one
    space.  [in_run] tells that the previous code unit was white space. *)
Fixpoint collapse_whitespace (in_run : bool) (s : jsstring) : jsstring :=
  match s with
  | [] => []
  | c :: rest =>
      if is_whitespace c then
        if in_run then collapse_whitespace true rest
        else SPACE :: collapse_whitespace true rest
      else c :: collapse_whitespace false rest
  end.

Fixpoint trimStart (s : jsstring) : jsstring :=
  match s with
  | c :: rest => if is_whitespace c then trimStart rest else s
  | [] => []
  end.

(** [String.prototype.trim] *)
Definition trim (s : jsstring) : jsstring :=
  rev (trimStart (rev (trimStart s))).

(** [input.replace(/\s+/g, ' ').trim()] *)
Definition normalize_whitespace (input : jsstring) : jsstring :=
  trim (collapse_whitespace false input).

(** Case folding of an [/i] pattern without the [u] flag, on the ASCII
    letters; no code unit outside ASCII folds onto an ASCII one. *)
Definition fold_case (c : N) : N :=
  if ((97 <=? c) && (c <=? 122))%N then (c - 32)%N else c.

(** Does [s] begin with [pattern], ignoring ASCII case? *)
Fixpoint matches_ci (pattern s : jsstring) {struct pattern} : bool :=
  match pattern, s with
  | [], _ => true
  | p :: pattern', c :: s' => (fold_case c =? fold_case p)%N && matches_ci pattern' s'
  | _ :: _, [] => false
  end.

(** [s.replace(/pattern/gi, replacement)] for a literal pattern: matches
    are taken left to right and do not overlap.  [skip] counts the code
    units of the current match that are still to be passed over. *)
Fixpoint replace_all_ci (pattern replacement s : jsstring) (skip : nat) : jsstring :=
  match s with
  | [] => []
  | c :: rest =>
      match skip with
      | S skip' => replace_all_ci pattern replacement rest skip'
      | O =>
          if matches_ci pattern s
          then replacement ++ replace_all_ci pattern replacement rest (length pattern - 1)
          else c :: replace_all_ci pattern replacement rest O
      end
  end.

Definition MAX_MESSAGE_LENGTH : nat := 4000.

Definition validateMessageContent (input : jsstring) : result jsstring :=
  match input with
  | [] => Err (ValidationError "Message content cannot be empty")
  | _ =>
      if (MAX_MESSAGE_LENGTH <? length input)%nat
      then Err (ValidationError "Message too long (maximum 4000 characters).")
      else
        let sanitized := normalize_whitespace input in
        if (length sanitized =? 0)%nat
        then Err (ValidationError "Message content cannot be empty or whitespace-only")
        else
          Ok (replace_all_ci (js "[ADMIN]") (js "[FILTERED]")
                (replace_all_ci (js "[SYSTEM]") (js "[FILTERED]") sanitized O) O)
  end.

(** [\d] *)
Definition is_digit (c : N) : bool := ((48 <=? c) && (c <=? 57))%N.

(** [/^\d{17,19}$/.test(input)] *)
Definition is_snowflake (input : jsstring) : bool :=
  forallb is_digit input && (17 <=? length input)%nat && (length input <=? 19)%nat.

Definition validateChannelId (input : jsstring) : result jsstring :=
  match input with
  | [] => Err (ValidationError "Channel ID cannot be empty")
  | _ =>
      if negb (is_snowflake input)
      then Err (ValidationError "Invalid Channel ID format (must be 17-19 digits)")
      else Ok input
  end.

(** [String.prototype.includes] *)
Fixpoint includes (s sub : jsstring) : bool :=
  startsWith s sub
  || match s with
     | _ :: rest => includes rest sub
     | [] => false
     end.

Definition validateUsername (input : jsstring) : result jsstring :=
  match input with
  | [] => Err (ValidationError "Username cannot be empty")
  | _ =>
      if (37 <? length input)%nat
      then Err (ValidationError "Username too long (maximum 37 characters)")
      else if includes input [DOT; DOT] || includes input [SLASH]
              || includes input [BACKSLASH]
      then Err (ValidationError "Username contains invalid path characters")
      else
        match PathSafety.sanitizeFilename input with
        | Ok name => Ok name
        | Err _ => Err (ValidationError "Invalid username")
        end
  end.

(** [[a-zA-Z0-9\-_.:]] *)
Definition is_model_char (c : N) : bool :=
  (((97 <=? c) && (c <=? 122)) || ((65 <=? c) && (c <=? 90)) || is_digit c
   || (c =? 45) || (c =? UNDERSCORE) || (c =? DOT) || (c =? 58))%N.

Definition validateModelName (input : jsstring) : result jsstring :=
  match input with
  | [] => Err (ValidationError "Model name cannot be empty")
  | first :: _ =>
      if (100 <? length input)%nat
      then Err (ValidationError "Model name too long (maximum 100 characters)")
      else if negb (forallb is_model_char input)
      then Err (ValidationError "Model name contains invalid characters.")
      else if includes input [DOT; DOT] || includes input [SLASH]
              || includes input [BACKSLASH]
      then Err (ValidationError
                  "Model name cannot contain path separators or parent directory references")
      else if startsWith input [DOT] || startsWith input [45%N]
      then Err (ValidationError "Model name cannot start with a dot or dash")
      else Ok input
  end.

(** [input] is [null] ([None]) or a number. *)
Definition validateCapacity (input : option number) : result number :=
  match input with
  | None => Err (ValidationError "Capacity is required")
  | Some n =>
      if negb (Number_isFinite n)
      then Err (ValidationError "Capacity must be a finite number")
      else if negb (Number_isInteger n)
      then Err (ValidationError "Capacity must be a whole number (no decimals)")
      else if number_lt n (of_Z 1)
      then Err (ValidationError "Capacity must be at least 1 message")
      else if number_gt n (of_Z 100)
      then Err (ValidationError "Capacity cannot exceed 100 messages (resource limit).")
      else Ok n
  end.

Definition validateGuildId (input : jsstring) : result jsstring :=
  match input with
  | [] => Err (ValidationError "Guild ID cannot be empty")
  | _ =>
      if negb (is_snowflake input)
      then Err (ValidationError "Invalid Guild ID format (must be 17-19 digits)")
      else Ok input
  end.

(** [25 * 1024 * 1024], the default of [maxSizeBytes]. *)
Definition DEFAULT_MAX_SIZE_BYTES : number := of_Z (25 * 1024 * 1024).

Definition validateFileSize (sizeBytes maxSizeBytes : number) : result unit :=
  if number_lt sizeBytes (of_Z 0)
  then Err (ValidationError "Invalid file size")
  else if number_gt sizeBytes maxSizeBytes
  then Err (ValidationError "File too large")
  else Ok tt.

End Validation.

(** ** JSON values and the file system *)

Set Warnings "-register-all".

(** What [JSON.parse] returns.  Numbers are the integers; an object is the
    finite map of its own properties. *)
Inductive json :=
| JNull
| JBool (b : bool)
| JNumber (n : Z)
| JString (s : jsstring)
| JArray (items : list json)
| JObject (fields : gmap jsstring json).

(** [string | number | boolean], the type of an option's value. *)
Inductive scalar :=
| SString (s : jsstring)
| SNumber (n : Z)
| SBoolean (b : bool).

Definition scalar_json (value : scalar) : json :=
  match value with
  | SString s => JString s
  | SNumber n => JNumber n
  | SBoolean b => JBool b
  end.

(** The value of an expression that may be [undefined] ([None]) in a
    boolean position. *)
Definition truthy (v : option json) : bool :=
  match v with
  | None | Some JNull => false
  | Some (JBool b) => b
  | Some (JNumber n) => negb (n =? 0)
  | Some (JString s) => negb (str_eqb s [])
  | Some (JArray _) | Some (JObject _) => true
  end.

(** [Array.isArray(v)] *)
Definition Array_isArray (v : option json) : bool :=
  match v with
  | Some (JArray _) => true
  | _ => false
  end.

(** [v.id], [v.name], [v.messages], [v.options]: the property reads the
    handlers make on a parsed document.  Reading from [null] throws; a
    string, number, boolean or array has none of these properties. *)
Definition get_field (v : json) (k : jsstring) : result (option json) :=
  match v with
  | JNull => Err TypeError
  | JObject fields => Ok (fields !! k)
  | _ => Ok None
  end.

(** [options[key] = value] on an object, for a primitive [value].  The one
    key that does not create or update an own property is ["__proto__"] on
    an object without such an own property: the inherited setter ignores
    primitives. *)
Definition assign_property (options : gmap jsstring json) (key : jsstring)
    (value : json) : gmap jsstring json :=
  if str_eqb key (js "__proto__") && negb (bool_decide (is_Some (options !! key)))
  then options
  else <[key := value]> options.

(** The text of a file, as far as the handlers can tell texts apart:
    - [Blank]: [data.trim().length === 0];
    - [Malformed]: not blank, and [JSON.parse] throws;
    - [Doc v]: [JSON.parse] returns [v]; also the text that
      [JSON.stringify(v, null, 2)] produces for [v]. *)
Inductive content :=
| Blank
| Malformed
| Doc (v : json).

Definition JSON_parse (data : content) : result json :=
  match data with
  | Doc v => Ok v
  | Blank | Malformed => Err SyntaxError
  end.

Definition JSON_stringify (v : json) : content := Doc v.

(** [data.trim().length === 0] *)
Definition is_blank (data : content) : bool :=
  match data with
  | Blank => true
  | _ => false
  end.

(** The calls made on [fs.promises], in order. *)
Inductive fs_call :=
| ReadFile (path : jsstring)
| WriteFile (path : jsstring) (data : content)
| Rename (oldPath newPath : jsstring)
| Mkdir (path : jsstring).

(** The files below the data directory and the calls made so far. *)
Record fs := mkFs { files : gmap jsstring content; calls : list fs_call }.

(** An asynchronous operation, run to completion on a file system: what it
    returns or throws, and the file system it leaves. *)
Definition io (A : Type) : Type := fs -> result A * fs.

Definition io_ret {A} (a : A) : io A := fun st => (Ok a, st).
Definition io_throw {A} (e : error) : io A := fun st => (Err e, st).

Definition io_bind {A B} (m : io A) (k : A -> io B) : io B :=
  fun st =>
    match m st with
    | (Ok a, st') => k a st'
    | (Err e, st') => (Err e, st')
    end.

(** [try { body } catch (error) { handler }] *)
Definition try_catch {A} (body : io A) (handler : error -> io A) : io A :=
  fun st =>
    match body st with
    | (Ok a, st') => (Ok a, st')
    | (Err e, st') => handler e st'
    end.

Definition io_lift {A} (r : result A) : io A := fun st => (r, st).

Notation "'let!' x ':=' m 'in' k" := (io_bind m (fun x => k))
  (at level 10, x name, m at level 100, k at level 200, only parsing).
Notation "'do!' m 'in' k" := (io_bind m (fun _ => k))
  (at level 10, m at level 100, k at level 200, only parsing).

Definition called (c : fs_call) (st : fs) : fs :=
  mkFs (files st) (calls st ++ [c]).

(** [fsPromises.readFile(path, 'utf8')]: ENOENT when there is no such file. *)
Definition readFile (path : jsstring) : io content :=
  fun st =>
    match files st !! path with
    | Some data => (Ok data, called (ReadFile path) st)
    | None => (Err (ErrnoError ENOENT), called (ReadFile path) st)
    end.

(** [fsPromises.writeFile(path, data, 'utf8')] *)
Definition writeFile (path : jsstring) (data : content) : io unit :=
  fun st => (Ok tt, mkFs (<[path := data]> (files st)) (calls st ++ [WriteFile path data])).

(** [fsPromises.rename(oldPath, newPath)] *)
Definition rename (oldPath newPath : jsstring) : io unit :=
  fun st =>
    match files st !! oldPath with
    | Some data =>
        (Ok tt, mkFs (<[newPath := data]> (delete oldPath (files st)))
                     (calls st ++ [Rename oldPath newPath]))
    | None => (Err (ErrnoError ENOENT), called (Rename oldPath newPath) st)
    end.

(** [fsPromises.mkdir(path, { recursive: true })] on a directory that the
    start-up code has created. *)
Definition mkdir (path : jsstring) : io unit :=
  fun st => (Ok tt, called (Mkdir path) st).

(** [fileLocks.withLock(filePath, operation)].  Requests are run one at a
    time here, so the mutex is always free. *)
Definition withLock {A} (filePath : jsstring) (operation : io A) : io A := operation.

(** [fsPromises.unlink(path)]: ENOENT when there is no such file.  The call
    list [calls] keeps to reads, writes, renames and mkdirs; [unlink] and
    [access] are not recorded in it. *)
Definition unlink (path : jsstring) : io unit :=
  fun st =>
    match files st !! path with
    | Some _ => (Ok tt, mkFs (delete path (files st)) (calls st))
    | None => (Err (ErrnoError ENOENT), st)
    end.

(** [fsPromises.access(path)] *)
Definition access (path : jsstring) : io unit :=
  fun st =>
    match files st !! path with
    | Some _ => (Ok tt, st)
    | None => (Err (ErrnoError ENOENT), st)
    end.

(** [v.length === 0] for a truthy [v]: true for the empty array and for an
    object whose own property [length] is the number 0; a non-empty string
    has a non-zero length, a number or boolean has none. *)
Definition length_is_zero (v : option json) : bool :=
  match v with
  | Some (JArray items) => (length items =? 0)%nat
  | Some (JObject fields) =>
      match fields !! js "length" with
      | Some (JNumber n) => n =? 0
      | _ => false
      end
  | _ => false
  end.

(** ** configHandler.ts and chatHistoryHandler.ts *)

Module Store.

Section Handlers.
(** [process.cwd()] *)
Variable cwd : jsstring.
(** [isServerConfigurationKey], imported from utils/index.js. *)
Variable isServerConfigurationKey : jsstring -> bool.

Definition createDefaultConfig (key : jsstring) (value : scalar) : json :=
  JObject
    (<[js "name" := JString (if isServerConfigurationKey key
                             then js "Server Configurations"
                             else js "User Configurations")]>
       (<[js "options" := JObject {[key := scalar_json value]}]> ∅)).

(** The two statements of [openConfig] between [JSON.parse] and the
    write:
    [if (!object.options) object.options = {}; object.options[key] = value;]
    in a strict-mode module.  On an array at top level both writes go
    to named properties that [JSON.stringify] leaves out.  A property
    write on an array held in [options] (an index, ["length"] or a
    named property, depending on the key) is not followed: [Unmodelled]. *)
Definition set_option (object : json) (key : jsstring) (value : scalar)
    : result json :=
  match object with
  | JNull => Err TypeError
  | JBool _ | JNumber _ | JString _ => Err TypeError
  | JArray items => Ok (JArray items)
  | JObject fields =>
      let options :=
        if truthy (fields !! js "options") then fields !! js "options"
        else Some (JObject ∅) in
      match options with
      | Some (JObject opts) =>
          Ok (JObject (<[js "options" :=
                           JObject (assign_property opts key (scalar_json value))]>
                         fields))
      | Some (JArray _) => Err Unmodelled
      | _ => Err TypeError
      end
  end.

Definition openConfig (filename key : jsstring) (value : scalar) : io unit :=
  let! fullFileName := io_lift (PathSafety.getSafeDataPath cwd filename) in
  withLock fullFileName
    (try_catch
       (let! data := readFile fullFileName in
        let! object := io_lift (JSON_parse data) in
        let! object := io_lift (set_option object key value) in
        let tempFile := fullFileName ++ js ".tmp" in
        do! writeFile tempFile (JSON_stringify object) in
        rename tempFile fullFileName)
       (fun error =>
          if code_is_ENOENT error then
            let object := createDefaultConfig key value in
            do! mkdir (NodePath.dirname fullFileName) in
            writeFile fullFileName (JSON_stringify object)
          else io_throw (Error_ "Failed to update config"))).

(** [getUserConfig] and [getServerConfig] differ in their types and
    messages only. *)
Definition readConfig (failure : string) (filename : jsstring) : io (option json) :=
  let! fullFileName := io_lift (PathSafety.getSafeDataPath cwd filename) in
  try_catch
    (let! data := readFile fullFileName in
     if is_blank data then io_throw (Error_ "Configuration file is empty")
     else
       let! parsed := io_lift (JSON_parse data) in
       let! name := io_lift (get_field parsed (js "name")) in
       if negb (truthy name) then io_throw (Error_ "Invalid configuration structure")
       else
         let! options := io_lift (get_field parsed (js "options")) in
         if negb (truthy options)
         then io_throw (Error_ "Invalid configuration structure")
         else io_ret (Some parsed))
    (fun error =>
       if code_is_ENOENT error then io_ret None
       else io_throw (Error_ failure)).

Definition getServerConfig : jsstring -> io (option json) :=
  readConfig "Failed to read server config".

Definition getUserConfig : jsstring -> io (option json) :=
  readConfig "Failed to read user config".

Definition getChannelInfo (filename : jsstring) : io (option json) :=
  let! fullFileName := io_lift (PathSafety.getSafeDataPath cwd filename) in
  try_catch
    (let! data := readFile fullFileName in
     if is_blank data then io_throw (Error_ "Channel info file is empty")
     else
       let! parsed := io_lift (JSON_parse data) in
       let! id := io_lift (get_field parsed (js "id")) in
       if negb (truthy id) then io_throw (Error_ "Invalid channel info structure")
       else
         let! name := io_lift (get_field parsed (js "name")) in
         if negb (truthy name) then io_throw (Error_ "Invalid channel info structure")
         else
           let! messages := io_lift (get_field parsed (js "messages")) in
           if negb (Array_isArray messages)
           then io_throw (Error_ "Invalid channel info structure")
           else io_ret (Some parsed))
    (fun error =>
       if code_is_ENOENT error then io_ret None
       else io_throw (Error_ "Failed to read channel info")).

(** [{ id: channelId, name: channel.name, user, messages }] *)
Definition channelInfo (channelId channelName user : jsstring)
    (messages : list json) : json :=
  JObject
    (<[js "id" := JString channelId]>
       (<[js "name" := JString channelName]>
          (<[js "user" := JString user]>
             (<[js "messages" := JArray messages]> ∅)))).

(** The locked body shared by the two save functions. *)
Definition save (failure : string) (fullFileName : jsstring) (info : json) : io unit :=
  withLock fullFileName
    (try_catch
       (do! mkdir (NodePath.dirname fullFileName) in
        let tempFile := fullFileName ++ js ".tmp" in
        do! writeFile tempFile (JSON_stringify info) in
        rename tempFile fullFileName)
       (fun error => io_throw (Error_ failure))).

Definition saveChannelContext (channelId channelName : jsstring)
    (messages : list json) : io unit :=
  let! id := io_lift (Validation.validateChannelId channelId) in
  let filename := id ++ js "-context.json" in
  let! fullFileName := io_lift (PathSafety.getSafeDataPath cwd filename) in
  save "Failed to save channel context" fullFileName
    (channelInfo channelId channelName (js "context") messages).

Definition saveChannelInfo (channelId channelName username : jsstring)
    (messages : list json) : io unit :=
  let! id := io_lift (Validation.validateChannelId channelId) in
  let! name := io_lift (Validation.validateUsername username) in
  let filename := id ++ js "-" ++ name ++ js ".json" in
  let! fullFileName := io_lift (PathSafety.getSafeDataPath cwd filename) in
  save "Failed to save channel info" fullFileName
    (channelInfo channelId channelName username messages).

(** [deleteConfig] and [deleteChannelInfo] differ in their messages only. *)
Definition deleteFile (failure : string) (filename : jsstring) : io bool :=
  let! fullFileName := io_lift (PathSafety.getSafeDataPath cwd filename) in
  try_catch
    (do! unlink fullFileName in
     io_ret true)
    (fun error =>
       if code_is_ENOENT error then io_ret false
       else io_throw (Error_ failure)).

Definition deleteConfig : jsstring -> io bool := deleteFile "Failed to delete config".

Definition deleteChannelInfo : jsstring -> io bool :=
  deleteFile "Failed to delete channel info".

Definition checkChannelInfoExists (channelId username : jsstring) : io bool :=
  try_catch
    (let! id := io_lift (Validation.validateChannelId channelId) in
     let! name := io_lift (Validation.validateUsername username) in
     let filename := id ++ js "-" ++ name ++ js ".json" in
     let! fullFileName := io_lift (PathSafety.getSafeDataPath cwd filename) in
     do! access fullFileName in
     io_ret true)
    (fun _ => io_ret false).

(** [channelInfo.messages = []].  The statement is reached only with a
    truthy [channelInfo.messages], that is on an object. *)
Definition clear_messages (channelInfo : json) : result json :=
  match channelInfo with
  | JObject fields => Ok (JObject (<[js "messages" := JArray []]> fields))
  | JArray items => Ok (JArray items)
  | _ => Err TypeError
  end.

(** [clearChannelInfo(channelId, channel, username)]; [channel] is not used. *)
Definition clearChannelInfo (channelId username : jsstring) : io bool :=
  let! exists_ := checkChannelInfoExists channelId username in
  if negb exists_ then io_ret false
  else
    let! id := io_lift (Validation.validateChannelId channelId) in
    let! name := io_lift (Validation.validateUsername username) in
    let filename := id ++ js "-" ++ name ++ js ".json" in
    let! fullFileName := io_lift (PathSafety.getSafeDataPath cwd filename) in
    withLock fullFileName
      (try_catch
         (let! data := readFile fullFileName in
          let! channelInfo := io_lift (JSON_parse data) in
          let! messages := io_lift (get_field channelInfo (js "messages")) in
          if negb (truthy messages) || length_is_zero messages then io_ret false
          else
            let! channelInfo := io_lift (clear_messages channelInfo) in
            let tempFile := fullFileName ++ js ".tmp" in
            do! writeFile tempFile (JSON_stringify channelInfo) in
            do! rename tempFile fullFileName in
            io_ret true)
         (fun error => io_throw (Error_ "Failed to clear channel history"))).

(** The deprecated [addToChannelContext(filename, channel, messages)] hands
    its [filename] to [saveChannelContext] in the place of the channel id. *)
Definition addToChannelContext (filename channelName : jsstring)
    (messages : list json) : io unit :=
  saveChannelContext filename channelName messages.

(** The deprecated [openChannelInfo(filename, channel, user, messages)],
    likewise. *)
Definition openChannelInfo (filename channelName user : jsstring)
    (messages : list json) : io unit :=
  saveChannelInfo filename channelName user messages.

End Handlers.
End Store.

(** ** events/messageCreate.ts: the histories kept for a message *)

(** The handler of [Events.MessageCreate] keeps two histories through the
    store: the context of the channel and the conversation of one user.
    The three parts below are its statements on the queues and the files,
    in their order.  Logging and the replies sent to Discord are left out;
    the attachment calls, which stand between [setQueue] and the loop, are
    taken to return, their results being [cleanedMessage] and
    [messageAttachment]. *)
Module MessageCreate.


Section Handler.
(** [process.cwd()] *)
Variable cwd : jsstring.
(** [normalMessage(message, ollama, model, msgHist, shouldStream)]: the
    answer of the model, or what a failed [channel.send] throws.  Of
    [msgHist] it reads [getItems()] and nothing else. *)
Variable normalMessage : list json -> result jsstring.


(** [while (queue.size() >= queue.capacity) queue.dequeue();], the copy of
    the loop of [enqueue] that the handler runs itself, under the same
    bound: [None] means that it does not end. *)
Definition drain (queue : Queue.t json) : option (Queue.t json) :=
  match Queue.evict (length (Queue.storage queue)) queue with
  | Some (_, queue') => Some queue'
  | None => None
  end.



(** In the second [try] block: the history of the user in the channel is
    read, and made first where there is none.  [safeUsername] is
    [validateUsername(message.author.username)], [tag] is
    [message.author.tag]. *)
Definition chatHistory (channelId channelName safeUsername tag : jsstring) : io json :=
  let filename := channelId ++ js "-" ++ safeUsername ++ js ".json" in
  let! channelInfo := Store.getChannelInfo cwd filename in
  match channelInfo with
  | Some channelInfo => io_ret channelInfo
  | None =>
      do! Store.saveChannelInfo cwd channelId channelName tag [] in
      let! channelInfo := Store.getChannelInfo cwd filename in
      match channelInfo with
      | Some channelInfo => io_ret channelInfo
      | None => io_throw (Error_ "Failed to create chat history")
      end
  end.



End Handler.
End MessageCreate.

(** ** events/threadDelete.ts *)

Module ThreadDelete.

(** [String.prototype.endsWith] *)
Definition endsWith (s suffix : jsstring) : bool :=
  (length suffix <=? length s)%nat
  && str_eqb (drop (length s - length suffix) s) suffix.

(** The name under which the file at [path] is an entry of the directory
    [dir]: what follows [dir] and the separator, where that is a name. *)
Definition entry (dir path : jsstring) : option jsstring :=
  if startsWith path (dir ++ NodePath.sep) then
    let name := drop (length (dir ++ NodePath.sep)) path in
    if forallb (fun c => negb (c =? SLASH)%N) name && negb (str_eqb name [])
    then Some name
    else None
  else None.

(** [fsPromises.readdir(dir)] on a directory that exists.  The store holds
    files, by their paths; directories below [dir] are not listed. *)
Definition readdir (dir : jsstring) : io (list jsstring) :=
  fun st => (Ok (omap (entry dir) (map fst (map_to_list (files st)))), st).

Section Event.
(** [process.cwd()] *)
Variable cwd : jsstring.

(** One of the [deletePromises]: it catches what it throws. *)
Definition discard (file : jsstring) : io unit :=
  try_catch
    (let! filePath := io_lift (PathSafety.getSafeDataPath cwd file) in
     unlink filePath)
    (fun error => io_ret tt).

(** [await Promise.all(filesToDiscard.map(...))].  The calls of [unlink]
    are issued in the order of the list; none of them reads what another
    one writes, so they are run one after the other here. *)
Fixpoint discard_all (filesToDiscard : list jsstring) : io unit :=
  match filesToDiscard with
  | [] => io_ret tt
  | file :: rest =>
      do! discard file in
      discard_all rest
  end.

(** The handler of [Events.ThreadDelete] for the thread with id [threadId];
    its own [catch] logs and returns. *)
Definition threadDelete (threadId : jsstring) : io unit :=
  try_catch
    (let dataDir := NodePath.resolve cwd [cwd; js "data"] in
     let! files := readdir dataDir in
     let filesToDiscard :=
       List.filter
         (fun file => startsWith file (threadId ++ js "-") && endsWith file (js ".json"))
         files in
     if (length filesToDiscard =? 0)%nat then io_ret tt
     else discard_all filesToDiscard)
    (fun error => io_ret tt).

End Event.
End ThreadDelete.


(** * Vocabulary of the properties *)

(** ** Queue *)

Section QueueVocabulary.
Context {T : Type}.

(** How many elements the eviction loop of [enqueue] removes from the
    storage [s] at capacity [c]. *)
Definition evicted (c : Z) (s : list T) : nat :=
  (length s - (Z.to_nat c - 1))%nat.

(** The last [k] elements of a list. *)
Definition lastn (k : nat) (s : list T) : list T := drop (length s - k) s.

End QueueVocabulary.

(** ** Paths and keys *)

(** A string without separator. *)
Definition sepfree (s : jsstring) : Prop := Forall (fun c => c <> SLASH) s.

(** A segment that normalisation keeps as it is. *)
Definition plain (seg : jsstring) : Prop :=
  sepfree seg /\ seg <> [] /\ seg <> [DOT] /\ seg <> [DOT; DOT].

(** A code unit [sanitizeFilename] lets through. *)
Definition clean (c : N) : Prop :=
  c <> SLASH /\ c <> BACKSLASH /\ PathSafety.is_control c = false.

(** What every key returned by [sanitizeFilename] satisfies. *)
Definition safe_key (key : jsstring) : Prop :=
  key <> [] /\ (length key <= 255)%nat /\ Forall clean key /\ head key <> Some DOT.

(** ** Documents and files *)

(** [`${fullFileName}.tmp`] *)
Definition tmp_of (p : jsstring) : jsstring := p ++ js ".tmp".

(** [v] is an object with an own property [k]. *)
Definition has_field (v : json) (k : jsstring) : Prop :=
  exists fields x, v = JObject fields /\ fields !! k = Some x.

(** The test of [getChannelInfo] on a parsed document. *)
Definition channel_shape (v : json) : bool :=
  match v with
  | JObject fields =>
      truthy (fields !! js "id") && truthy (fields !! js "name")
      && Array_isArray (fields !! js "messages")
  | _ => false
  end.

(** The test of [getUserConfig] and [getServerConfig]. *)
Definition config_shape (v : json) : bool :=
  match v with
  | JObject fields => truthy (fields !! js "name") && truthy (fields !! js "options")
  | _ => false
  end.

(** What a read returns, by the content of the file. *)
Definition read_outcome (shape : json -> bool) (failure : string)
    (file : option content) : result (option json) :=
  match file with
  | None => Ok None
  | Some (Doc v) => if shape v then Ok (Some v) else Err (Error_ failure)
  | Some Blank | Some Malformed => Err (Error_ failure)
  end.

(** A read that tells absence from corruption: [null] exactly for a missing
    file, an exception for a blank file, for text that does not parse and
    for a document without one of the [required] fields; and no file is
    changed. *)
Definition reads_honestly (read : io (option json)) (p : jsstring)
    (required : list jsstring) (st : fs) : Prop :=
  (fst (read st) = Ok None <-> files st !! p = None)
  /\ (forall c, files st !! p = Some c ->
        c = Blank \/ c = Malformed
        \/ (exists v k, c = Doc v /\ k ∈ required /\ ~ has_field v k) ->
        exists e, fst (read st) = Err e)
  /\ files (snd (read st)) = files st.

(** Every [writeFile] of the call list goes to a [.tmp] sibling and is
    followed at once by the [rename] onto its target. *)
Fixpoint staged (cs : list fs_call) : bool :=
  match cs with
  | [] => true
  | WriteFile path _ :: rest =>
      match rest with
      | Rename oldPath newPath :: rest' =>
          str_eqb oldPath path && str_eqb path (tmp_of newPath) && staged rest'
      | _ => false
      end
  | _ :: rest => staged rest
  end.

(** The file system after [data] went to [p] through its [.tmp] sibling;
    [before] are the calls made ahead of the write. *)
Definition committed (p : jsstring) (data : content) (before : list fs_call)
    (st : fs) : fs :=
  mkFs (<[p := data]> (delete (tmp_of p) (<[tmp_of p := data]> (files st))))
       (calls st ++ before ++ [WriteFile (tmp_of p) data; Rename (tmp_of p) p]).

(** The document [openConfig] writes over an object whose [options] is the
    object [opts]. *)
Definition with_option (fields opts : gmap jsstring json) (key : jsstring)
    (value : scalar) : json :=
  JObject (<[js "options" := JObject (assign_property opts key (scalar_json value))]>
             fields).

(** A working directory, a key classifier and a configuration file for the
    concrete runs. *)
Definition app_dir : jsstring := js "/app".
Definition toggle_chat_key (key : jsstring) : bool := str_eqb key (js "toggle-chat").
Definition alice_config : jsstring := js "/app/data/alice-config.json".

(** The document [openConfig] makes for the key [switch-model] with the
    value ["llama3.2"] when there is no file yet. *)
Definition alice_default : content :=
  Doc (Store.createDefaultConfig toggle_chat_key (js "switch-model")
         (SString (js "llama3.2"))).

(** The file system whose one file [p] holds ["{}"]. *)
Definition empty_object_at (p : jsstring) : fs :=
  mkFs {[p := Doc (JObject ∅)]} [].


(** ** More vocabulary: runs of queue calls *)

Section QueueRuns.
Context {T : Type}.

(** [n] calls of [dequeue] in a row: what each returned, and the queue left. *)
Fixpoint dequeue_all (n : nat) (q : Queue.t T) : list (option T) * Queue.t T :=
  match n with
  | O => ([], q)
  | S n' =>
      let '(r, q') := Queue.dequeue q in
      let '(rs, q'') := dequeue_all n' q' in
      (r :: rs, q'')
  end.

End QueueRuns.

(** ** More vocabulary: resolved paths *)

(** The segments that are left of a path once [normalizeString] has dropped
    the empty and ["."] segments and resolved the [".."] ones, below the
    root. *)
Definition canonical_segments (path : jsstring) : list jsstring :=
  rev (fold_left (NodePath.normalize_step false) (NodePath.segments path) []).

(** The segments of [path.resolve(p)] when the working directory is [cwd]:
    an absolute [p] stands for itself, any other is taken below [cwd]. *)
Definition resolved_segments (cwd p : jsstring) : list jsstring :=
  canonical_segments (if NodePath.isAbsolute p then p else cwd ++ NodePath.sep ++ p).

(** ** More vocabulary: numbers and names *)

(** The integer a number stands for, if it is one. *)
Definition integer_value (n : number) : option Z :=
  match n with
  | Finite q =>
      if Qnum q mod Z.pos (Qden q) =? 0 then Some (Qnum q / Z.pos (Qden q)) else None
  | _ => None
  end.

(** Does [pattern] occur somewhere in [s], ignoring ASCII case? *)
Fixpoint contains_ci (pattern s : jsstring) : bool :=
  Validation.matches_ci pattern s
  || match s with
     | _ :: rest => contains_ci pattern rest
     | [] => false
     end.

(** ["["], the code unit both markers and their replacement start with. *)
Definition LBRACKET : N := 91.

(** ** More vocabulary: the store *)

(** The path of the history file of a channel and a user, if both names
    pass their validators. *)
Definition user_file (cwd channelId username : jsstring) : result jsstring :=
  let* id := Validation.validateChannelId channelId in
  let* name := Validation.validateUsername username in
  PathSafety.getSafeDataPath cwd (id ++ js "-" ++ name ++ js ".json").

(** File text in which [JSON.parse] finds no object and no array: blank or
    malformed text, [null], a boolean, a number, a string. *)
Definition not_an_object (c : content) : bool :=
  match c with
  | Doc (JObject _) | Doc (JArray _) => false
  | _ => true
  end.

(** The file that holds the history of the user stored as [name] in the
    channel [channelId]. *)
Definition history_file (cwd channelId name : jsstring) : jsstring :=
  PathSafety.DATA_DIR cwd ++ NodePath.sep ++ channelId ++ js "-" ++ name ++ js ".json".

(** The file that holds the context of the channel [channelId]. *)
Definition context_file (cwd channelId : jsstring) : jsstring :=
  PathSafety.DATA_DIR cwd ++ NodePath.sep ++ channelId ++ js "-context.json".

(** * Properties *)

(** ** The bounded queue *)

Section QueueFacts.
Context {T : Type}.
Implicit Types (q : Queue.t T) (s items : list T) (x : T) (c : Z).

Lemma evicted_le c s : (evicted c s <= length s)%nat.
Proof. unfold evicted. lia. Qed.

Lemma evict_unfold fuel q :
  Queue.evict fuel q
  = if Queue.capacity q <=? Queue.size q then
      match fuel with
      | O => None
      | S fuel' =>
          match Queue.evict fuel' (snd (Queue.dequeue q)) with
          | Some (n, q') => Some (S n, q')
          | None => None
          end
      end
    else Some (O, q).
Proof. destruct fuel; reflexivity. Qed.

Ltac loop_guard :=
  rewrite evict_unfold; unfold Queue.size, Queue.dequeue;
  cbn [Queue.storage Queue.capacity snd length];
  match goal with
  | |- context [?a <=? ?b] => destruct (Z.leb_spec a b)
  end.

Lemma evict_run s : forall c fuel,
  1 <= c -> (evicted c s <= fuel)%nat ->
  Queue.evict fuel (Queue.mk c s)
  = Some (evicted c s, Queue.mk c (drop (evicted c s) s)).
Proof.
  unfold evicted.
  induction s as [|a s IH]; intros c fuel Hc Hfuel; cbn [length] in *.
  - loop_guard; [lia|reflexivity].
  - loop_guard.
    + destruct fuel as [|fuel]; [lia|].
      rewrite (IH c fuel Hc) by lia.
      replace (S (length s) - (Z.to_nat c - 1))%nat
        with (S (length s - (Z.to_nat c - 1)))%nat by lia.
      reflexivity.
    + replace (S (length s) - (Z.to_nat c - 1))%nat with O by lia.
      reflexivity.
Qed.

Lemma evict_hangs fuel : forall q, Queue.capacity q <= 0 -> Queue.evict fuel q = None.
Proof.
  induction fuel as [|fuel IH]; intros [c s] Hc; cbn [Queue.capacity] in Hc;
    (loop_guard; [|lia]).
  - reflexivity.
  - destruct s; cbn [snd]; rewrite IH; auto.
Qed.

(** A bound below [evicted] is used up. *)
Lemma evict_short c : forall fuel s,
  1 <= c -> (fuel < evicted c s)%nat -> Queue.evict fuel (Queue.mk c s) = None.
Proof.
  unfold evicted.
  induction fuel as [|fuel IH]; intros s Hc Hlt; (loop_guard; [|lia]).
  - reflexivity.
  - destruct s as [|a s]; cbn [length] in *; [lia|].
    cbn [snd]. rewrite IH by lia. reflexivity.
Qed.

(** The bound used by [enqueue] is enough whenever any bound is. *)
Lemma enqueue_fuel_complete fuel q x q' :
  Queue.enqueue_fuel fuel q x = Some q' -> Queue.enqueue q x = Some q'.
Proof.
  unfold Queue.enqueue, Queue.enqueue_fuel. destruct q as [c s].
  cbn [Queue.storage].
  destruct (Z.le_gt_cases c 0) as [Hc|Hc].
  - rewrite evict_hangs by exact Hc. discriminate.
  - rewrite (evict_run s c (length s)) by (pose proof (evicted_le c s); lia).
    destruct (Nat.le_gt_cases (evicted c s) fuel) as [H|H].
    + rewrite evict_run by lia. auto.
    + rewrite evict_short by lia. discriminate.
Qed.

Lemma enqueue_run c s x :
  1 <= c ->
  Queue.enqueue (Queue.mk c s) x
  = Some (Queue.mk c (drop (evicted c s) s ++ [x])).
Proof.
  intros Hc. unfold Queue.enqueue, Queue.enqueue_fuel. cbn [Queue.storage].
  rewrite evict_run by (pose proof (evicted_le c s); lia). reflexivity.
Qed.

Lemma array_pop_snoc s x : Queue.array_pop (s ++ [x]) = (Some x, s).
Proof.
  induction s as [|a s IH]; [reflexivity|].
  cbn [app Queue.array_pop]. rewrite IH.
  destruct (s ++ [x]) eqn:E; [destruct s; discriminate|reflexivity].
Qed.

Lemma enqueue_lastn c s x :
  1 <= c ->
  Queue.enqueue (Queue.mk c s) x = Some (Queue.mk c (lastn (Z.to_nat c) (s ++ [x]))).
Proof.
  intros Hc. rewrite enqueue_run by exact Hc. do 2 f_equal.
  unfold lastn, evicted. rewrite length_app. cbn [length].
  replace (length s + 1 - Z.to_nat c)%nat with (length s - (Z.to_nat c - 1))%nat by lia.
  rewrite drop_app_le by lia. reflexivity.
Qed.

Lemma lastn_lastn_snoc k s x :
  (1 <= k)%nat -> lastn k (lastn k s ++ [x]) = lastn k (s ++ [x]).
Proof.
  intros Hk. unfold lastn. rewrite !length_app, length_drop. cbn [length].
  destruct (Nat.le_gt_cases k (length s)) as [H|H].
  - rewrite drop_app_le by (rewrite length_drop; lia).
    rewrite drop_app_le by lia. rewrite drop_drop. do 2 f_equal. lia.
  - replace (length s - k)%nat with O by lia. rewrite drop_0.
    f_equal. lia.
Qed.

Lemma enqueue_all_lastn c items : forall s,
  1 <= c ->
  Queue.enqueue_all (Queue.mk c (lastn (Z.to_nat c) s)) items
  = Some (Queue.mk c (lastn (Z.to_nat c) (s ++ items))).
Proof.
  induction items as [|x items IH]; intros s Hc.
  - cbn. rewrite app_nil_r. reflexivity.
  - cbn [Queue.enqueue_all]. rewrite enqueue_lastn by exact Hc.
    rewrite lastn_lastn_snoc by lia.
    rewrite (IH (s ++ [x]) Hc), <- app_assoc. reflexivity.
Qed.

Lemma enqueue_removeLast_run c s x :
  1 <= c ->
  exists q1, Queue.enqueue (Queue.mk c s) x = Some q1
    /\ Queue.removeLast q1 = (Some x, Queue.mk c (drop (evicted c s) s)).
Proof.
  intros Hc. eexists. split; [apply enqueue_run, Hc|].
  unfold Queue.removeLast. cbn [Queue.storage Queue.capacity].
  rewrite array_pop_snoc. reflexivity.
Qed.

(** C4.  Starting from the empty queue of capacity [c >= 1], more than [c]
    calls of [enqueue] leave a queue of size [c] that holds exactly the
    last [c] items enqueued, oldest first. *)
Theorem enqueue_past_capacity_keeps_newest c items :
  1 <= c -> c < Z.of_nat (length items) ->
  exists q0 q',
    Queue.new c = Ok q0
    /\ Queue.enqueue_all q0 items = Some q'
    /\ Queue.capacity q' = c
    /\ Queue.size q' = c
    /\ Queue.getItems q' = drop (length items - Z.to_nat c) items.
Proof.
  intros Hc Hn. unfold Queue.new.
  destruct (Z.ltb_spec c 1) as [|_]; [lia|].
  exists (Queue.mk c []), (Queue.mk c (lastn (Z.to_nat c) items)).
  split; [reflexivity|]. split.
  - apply (enqueue_all_lastn c items [] Hc).
  - unfold Queue.size, Queue.getItems, lastn. cbn [Queue.storage Queue.capacity].
    rewrite length_drop. repeat split; lia.
Qed.

(** C5 (amended).  On a queue below its capacity, [enqueue x] followed by
    [removeLast] hands back [x] and leaves the queue exactly as it was. *)
Theorem enqueue_removeLast_below_capacity q x :
  Queue.size q < Queue.capacity q ->
  exists q1, Queue.enqueue q x = Some q1 /\ Queue.removeLast q1 = (Some x, q).
Proof.
  destruct q as [c s]. unfold Queue.size. cbn [Queue.storage Queue.capacity].
  intros Hlt. destruct (enqueue_removeLast_run c s x) as (q1 & He & Hr); [lia|].
  exists q1. split; [exact He|]. rewrite Hr. unfold evicted.
  replace (length s - (Z.to_nat c - 1))%nat with O by lia. reflexivity.
Qed.

(** C6.  [setQueue] with more items than the capacity throws and leaves the
    queue untouched; with at most [capacity] items it installs exactly the
    given sequence. *)
Theorem setQueue_rejects_or_replaces q items :
  (Queue.capacity q < Z.of_nat (length items) ->
     exists e, Queue.setQueue q items = (Err e, q))
  /\ (Z.of_nat (length items) <= Queue.capacity q ->
     exists q', Queue.setQueue q items = (Ok tt, q')
       /\ Queue.getItems q' = items /\ Queue.capacity q' = Queue.capacity q).
Proof.
  unfold Queue.setQueue. split; intros H;
    destruct (Z.ltb_spec (Queue.capacity q) (Z.of_nat (length items))); try lia.
  - eexists. reflexivity.
  - eexists. repeat split.
Qed.

(** C10.  With [capacity >= 1] the eviction loop of [enqueue] leaves after
    at most [size()] iterations and the call returns; with [capacity <= 0]
    the loop never leaves, whatever the bound; and only the constructor
    checks the capacity, the field itself can be set to anything. *)
Theorem enqueue_terminates_iff_capacity_positive q x :
  (1 <= Queue.capacity q ->
     exists n q',
       (n <= length (Queue.storage q))%nat
       /\ forall fuel, (n <= fuel)%nat ->
            Queue.evict fuel q = Some (n, q')
            /\ Queue.enqueue_fuel fuel q x = Some (Queue.push q' x))
  /\ (Queue.capacity q <= 0 ->
     forall fuel, Queue.enqueue_fuel fuel q x = None)
  /\ (forall c q0, Queue.new (T:=T) c = Ok q0 -> 1 <= Queue.capacity q0)
  /\ (forall c, Queue.capacity (Queue.set_capacity q c) = c
                /\ Queue.storage (Queue.set_capacity q c) = Queue.storage q).
Proof.
  destruct q as [c s]. cbn [Queue.storage Queue.capacity]. repeat split.
  - intros Hc. exists (evicted c s), (Queue.mk c (drop (evicted c s) s)).
    split; [apply evicted_le|]. intros fuel Hfuel.
    unfold Queue.enqueue_fuel. rewrite evict_run by assumption. auto.
  - intros Hc fuel. unfold Queue.enqueue_fuel. rewrite evict_hangs; auto.
  - intros c0 q0. unfold Queue.new. destruct (Z.ltb_spec c0 1); [discriminate|].
    intros [= <-]. cbn. lia.
Qed.

End QueueFacts.

(** Capacity 3 and the four items A, B, C, D: B, C, D stay. *)
Lemma enqueue_past_capacity_keeps_newest_witness :
  exists q0 q',
    Queue.new 3 = Ok q0
    /\ Queue.enqueue_all q0 [1; 2; 3; 4]%nat = Some q'
    /\ Queue.capacity q' = 3
    /\ Queue.size q' = 3
    /\ Queue.getItems q' = [2; 3; 4]%nat.
Proof.
  apply (enqueue_past_capacity_keeps_newest 3 [1; 2; 3; 4]%nat); simpl; lia.
Defined.

(** Rollback on a full queue: the item evicted by [enqueue] does
    not come back. *)
Lemma rollback_at_capacity_loses_oldest :
  exists q1,
    Queue.enqueue (Queue.mk 3 [1; 2; 3]%nat) 4%nat = Some q1
    /\ Queue.getItems (snd (Queue.removeLast q1)) = [2; 3]%nat
    /\ snd (Queue.removeLast q1) <> Queue.mk 3 [1; 2; 3]%nat.
Proof.
  eexists. split; [reflexivity|]. split; [reflexivity|]. discriminate.
Qed.

Lemma enqueue_removeLast_below_capacity_witness :
  exists q1,
    Queue.enqueue (Queue.mk 3 [1; 2]%nat) 7%nat = Some q1
    /\ Queue.removeLast q1 = (Some 7%nat, Queue.mk 3 [1; 2]%nat).
Proof.
  apply (enqueue_removeLast_below_capacity (Queue.mk 3 [1; 2]%nat) 7%nat).
  reflexivity.
Defined.

(** [B, C, D] at capacity 3: four items are refused, two are installed. *)
Lemma setQueue_rejects_or_replaces_witness :
  (exists e, Queue.setQueue (Queue.mk 3 [2; 3; 4]%nat) [5; 6; 7; 8]%nat
             = (Err e, Queue.mk 3 [2; 3; 4]%nat))
  /\ (exists q', Queue.setQueue (Queue.mk 3 [2; 3; 4]%nat) [5; 6]%nat = (Ok tt, q')
        /\ Queue.getItems q' = [5; 6]%nat /\ Queue.capacity q' = 3).
Proof.
  split.
  - apply (proj1 (setQueue_rejects_or_replaces (Queue.mk 3 [2; 3; 4]%nat) [5; 6; 7; 8]%nat)).
    simpl. lia.
  - apply (proj2 (setQueue_rejects_or_replaces (Queue.mk 3 [2; 3; 4]%nat) [5; 6]%nat)).
    simpl. lia.
Defined.

Lemma enqueue_terminates_iff_capacity_positive_witness :
  (exists n q',
     (n <= 3)%nat
     /\ forall fuel, (n <= fuel)%nat ->
          Queue.evict fuel (Queue.mk 2 [1; 2; 3]%nat) = Some (n, q')
          /\ Queue.enqueue_fuel fuel (Queue.mk 2 [1; 2; 3]%nat) 4%nat
             = Some (Queue.push q' 4%nat))
  /\ (forall fuel, Queue.enqueue_fuel fuel (Queue.mk 0 []) 4%nat = None).
Proof.
  split.
  - apply (proj1 (enqueue_terminates_iff_capacity_positive (Queue.mk 2 [1; 2; 3]%nat) 4%nat)).
    simpl. lia.
  - apply (proj1 (proj2 (enqueue_terminates_iff_capacity_positive (Queue.mk 0 []) 4%nat))).
    simpl. lia.
Defined.

(** ** Node path normalisation *)

Section NodePathFacts.
Import NodePath.
Implicit Types (s a b seg : jsstring) (segs res : list jsstring).

Lemma str_eqb_eq a b : str_eqb a b = true <-> a = b.
Proof. unfold str_eqb. apply bool_decide_eq_true. Qed.

Lemma str_eqb_refl a : str_eqb a a = true.
Proof. apply str_eqb_eq. reflexivity. Qed.

Lemma str_eqb_neq a b : a <> b -> str_eqb a b = false.
Proof. intros H. unfold str_eqb. apply bool_decide_eq_false. exact H. Qed.

Lemma startsWith_app a b : startsWith (a ++ b) a = true.
Proof.
  induction a as [|c a IH]; [reflexivity|].
  cbn. rewrite N.eqb_refl. exact IH.
Qed.

Lemma startsWith_prefix s a : startsWith s a = true -> exists b, s = a ++ b.
Proof.
  revert s. induction a as [|c a IH]; intros s H.
  - exists s. reflexivity.
  - destruct s as [|d s]; [discriminate|]. cbn in H.
    apply andb_true_iff in H as [Hc Hs]. apply N.eqb_eq in Hc as ->.
    destruct (IH s Hs) as [b ->]. exists b. reflexivity.
Qed.

Lemma segments_cons_sep s : segments (SLASH :: s) = [] :: segments s.
Proof. reflexivity. Qed.

Lemma segments_not_nil s : segments s <> [].
Proof.
  destruct s as [|c s]; [discriminate|]. cbn.
  destruct (c =? SLASH)%N; [discriminate|].
  destruct (segments s); discriminate.
Qed.

Lemma segments_app_sep a b :
  segments (a ++ sep ++ b) = segments a ++ segments b.
Proof.
  induction a as [|c a IH]; [reflexivity|].
  cbn [app segments]. destruct (c =? SLASH)%N.
  - cbn [app] in IH. rewrite IH. reflexivity.
  - cbn [app] in IH. rewrite IH.
    pose proof (segments_not_nil a).
    destruct (segments a); [congruence|reflexivity].
Qed.

Lemma segments_sepfree s : sepfree s -> segments s = [s].
Proof.
  induction 1 as [|c s Hc _ IH]; [reflexivity|].
  cbn. apply N.eqb_neq in Hc. rewrite Hc, IH. reflexivity.
Qed.

Lemma segments_all_sepfree s : Forall sepfree (segments s).
Proof.
  induction s as [|c s IH]; [repeat constructor|].
  cbn. destruct (N.eqb_spec c SLASH) as [->|Hc].
  - constructor; [constructor|exact IH].
  - destruct (segments s) as [|seg segs]; [repeat constructor; exact Hc|].
    inversion IH; subst. constructor; [constructor; assumption|assumption].
Qed.

Lemma glue_cons seg segs :
  segs <> [] -> glue (seg :: segs) = seg ++ sep ++ glue segs.
Proof. destruct segs; [congruence|reflexivity]. Qed.

Lemma glue_snoc segs seg :
  segs <> [] -> glue (segs ++ [seg]) = glue segs ++ sep ++ seg.
Proof.
  induction segs as [|a segs IH]; [congruence|]. intros _.
  destruct segs as [|a' segs]; [reflexivity|].
  change ((a :: a' :: segs) ++ [seg]) with (a :: (a' :: segs) ++ [seg]).
  rewrite glue_cons by discriminate. rewrite IH by discriminate.
  rewrite (glue_cons a) by discriminate. rewrite <- !app_assoc. reflexivity.
Qed.

Lemma segments_glue segs :
  Forall sepfree segs -> segs <> [] -> segments (glue segs) = segs.
Proof.
  induction 1 as [|seg segs Hseg _ IH]; [congruence|]. intros _.
  destruct segs as [|seg' segs].
  - apply segments_sepfree, Hseg.
  - rewrite glue_cons by discriminate.
    rewrite segments_app_sep, segments_sepfree by exact Hseg.
    rewrite IH by discriminate. reflexivity.
Qed.

Lemma glue_plain_not_nil segs : Forall plain segs -> segs <> [] -> glue segs <> [].
Proof.
  intros Hall Hne. destruct Hall as [|seg segs (_ & Hseg & _) _]; [congruence|].
  destruct seg; [congruence|]. destruct segs; discriminate.
Qed.

Lemma normalize_step_empty allow res : normalize_step allow res [] = res.
Proof. reflexivity. Qed.

Lemma normalize_step_plain allow res seg :
  plain seg -> normalize_step allow res seg = seg :: res.
Proof.
  intros (_ & H0 & H1 & H2). unfold normalize_step.
  rewrite !str_eqb_neq by assumption. reflexivity.
Qed.

Lemma fold_plain allow segs : forall res,
  Forall plain segs ->
  fold_left (normalize_step allow) segs res = rev segs ++ res.
Proof.
  induction segs as [|seg segs IH]; intros res Hall; [reflexivity|].
  inversion Hall; subst. cbn [fold_left rev].
  rewrite normalize_step_plain by assumption.
  rewrite IH by assumption. rewrite <- app_assoc. reflexivity.
Qed.

(** Below the root nothing but plain segments survives. *)
Lemma normalize_step_keeps_plain res seg :
  sepfree seg -> Forall plain res -> Forall plain (normalize_step false res seg).
Proof.
  intros Hseg Hres. unfold normalize_step.
  destruct (str_eqb seg []) eqn:E0; [exact Hres|].
  destruct (str_eqb seg [DOT]) eqn:E1; [exact Hres|]. cbn [orb].
  destruct (str_eqb seg [DOT; DOT]) eqn:E2.
  - destruct res as [|top res']; [constructor|].
    destruct (str_eqb top [DOT; DOT]); [exact Hres|].
    inversion Hres; assumption.
  - constructor; [|exact Hres].
    repeat split; [exact Hseg|..]; intros ->;
      rewrite str_eqb_refl in *; discriminate.
Qed.

Lemma fold_keeps_plain segs : forall res,
  Forall sepfree segs -> Forall plain res ->
  Forall plain (fold_left (normalize_step false) segs res).
Proof.
  induction segs as [|seg segs IH]; intros res Hsegs Hres; [exact Hres|].
  inversion Hsegs; subst. cbn [fold_left].
  apply IH; [assumption|]. apply normalize_step_keeps_plain; assumption.
Qed.

(** An absolute path made of plain segments is its own normal form, with
    or without one trailing separator. *)
Lemma normalizeString_rooted segs tail :
  Forall plain segs -> segs <> [] -> tail = [] \/ tail = sep ->
  normalizeString (sep ++ glue segs ++ tail) false = glue segs.
Proof.
  intros Hall Hne Htail. unfold normalizeString.
  assert (Hsf : Forall sepfree segs).
  { eapply Forall_impl; [exact Hall|]. intros seg Hp. apply Hp. }
  assert (Hsegs : exists pad, segments (sep ++ glue segs ++ tail) = [] :: segs ++ pad
                              /\ fold_left (normalize_step false) pad (rev segs) = rev segs).
  { destruct Htail as [-> | ->].
    - exists []. rewrite app_nil_r. split; [|reflexivity].
      change (sep ++ glue segs) with ([] ++ sep ++ glue segs).
      rewrite segments_app_sep, segments_glue, app_nil_r by assumption. reflexivity.
    - exists [[]]. split; [|reflexivity].
      change (sep ++ glue segs ++ sep) with ([] ++ sep ++ (glue segs ++ sep ++ [])).
      rewrite !segments_app_sep, segments_glue by assumption. reflexivity. }
  destruct Hsegs as (pad & -> & Hpad).
  cbn [fold_left]. rewrite normalize_step_empty, fold_left_app.
  rewrite (fold_plain false segs [] Hall), app_nil_r, Hpad, rev_involutive.
  reflexivity.
Qed.

End NodePathFacts.

(** ** Sanitised keys and confinement *)

Section PathSafetyFacts.
Import NodePath PathSafety.
Implicit Types (s raw key cwd : jsstring).

Lemma replace_chain_clean s :
  Forall clean (replace_control (replace_separators s)).
Proof.
  unfold replace_control, replace_separators. rewrite map_map.
  apply List.Forall_map, Forall_forall. intros c _. unfold clean.
  destruct (N.eqb_spec c SLASH) as [->|H1]; [repeat split; discriminate|].
  destruct (N.eqb_spec c BACKSLASH) as [->|H2]; [repeat split; discriminate|].
  cbn [orb]. destruct (is_control c) eqn:E; repeat split; congruence || discriminate.
Qed.

Lemma skip_dots_clean s : Forall clean s -> Forall clean (skip_dots s).
Proof.
  induction 1 as [|c s Hc Hs IH]; [constructor|].
  cbn. destruct (c =? DOT)%N; [exact IH|constructor; assumption].
Qed.

Lemma replace_leading_dots_clean s :
  Forall clean s -> Forall clean (replace_leading_dots s).
Proof.
  intros H. destruct s as [|c s]; [constructor|].
  unfold replace_leading_dots. destruct (c =? DOT)%N; [|exact H].
  constructor; [repeat split; discriminate|]. apply skip_dots_clean, H.
Qed.

Lemma replace_leading_dots_head s : head (replace_leading_dots s) <> Some DOT.
Proof.
  destruct s as [|c s]; [discriminate|].
  unfold replace_leading_dots. destruct (N.eqb_spec c DOT); [discriminate|].
  cbn. congruence.
Qed.

Lemma sanitizeFilename_safe raw key :
  sanitizeFilename raw = Ok key -> safe_key key.
Proof.
  unfold sanitizeFilename. destruct raw as [|c0 raw0]; [discriminate|].
  set (s := replace_leading_dots _).
  assert (Hclean : Forall clean s)
    by apply replace_leading_dots_clean, replace_chain_clean.
  assert (Hhead : head s <> Some DOT) by apply replace_leading_dots_head.
  clearbody s.
  destruct (Nat.ltb_spec 255 (length s)) as [Hlong|Hshort].
  - destruct (Nat.eqb_spec (length (take 255 s)) 0); [discriminate|].
    intros [= <-]. repeat split.
    + intros E. rewrite E in *. cbn in *. congruence.
    + rewrite length_take. lia.
    + apply Forall_take, Hclean.
    + destruct s; [cbn in Hlong; lia|exact Hhead].
  - destruct (Nat.eqb_spec (length s) 0) as [|Hne]; [discriminate|].
    intros [= <-]. repeat split; try assumption.
    intros ->. apply Hne. reflexivity.
Qed.

Lemma safe_key_plain key : safe_key key -> plain key.
Proof.
  intros (Hne & _ & Hclean & Hhead). repeat split.
  - eapply Forall_impl; [exact Hclean|]. intros c Hc. apply Hc.
  - exact Hne.
  - intros ->. apply Hhead. reflexivity.
  - intros ->. apply Hhead. reflexivity.
Qed.

Lemma last_app_ne s a : s <> [] -> last (a ++ s) = last s.
Proof.
  intros Hne. rewrite last_app. destruct (last s) eqn:E; [reflexivity|].
  apply last_None in E. congruence.
Qed.

Lemma trailingSeparator_sepfree a s :
  s <> [] -> sepfree s -> trailingSeparator (a ++ s) = false.
Proof.
  intros Hne Hs. unfold trailingSeparator. rewrite last_app_ne by exact Hne.
  destruct (last s) as [c|] eqn:E; [|reflexivity].
  apply N.eqb_neq. apply last_Some in E as [s' ->].
  apply Forall_app in Hs as [_ Hc]. inversion Hc; assumption.
Qed.

Lemma glue_ends_with_segment segs :
  segs <> [] -> exists pre seg, glue segs = pre ++ seg /\ seg ∈ segs.
Proof.
  destruct segs as [|seg1 segs _] using rev_ind; [congruence|]. intros _.
  destruct segs as [|seg0 segs].
  - exists [], seg1. split; [reflexivity|]. apply list_elem_of_here.
  - rewrite glue_snoc by discriminate.
    exists (glue (seg0 :: segs) ++ sep), seg1.
    split; [rewrite <- app_assoc; reflexivity|].
    apply elem_of_app. right. apply list_elem_of_here.
Qed.

Lemma normalize_rooted segs :
  Forall plain segs -> segs <> [] ->
  normalize (sep ++ glue segs) = sep ++ glue segs.
Proof.
  intros Hall Hne. unfold normalize.
  change (sep ++ glue segs) with (SLASH :: glue segs) at 1.
  cbv iota. replace (isAbsolute (sep ++ glue segs)) with true by reflexivity.
  cbn [negb].
  assert (Hn : normalizeString (sep ++ glue segs) false = glue segs).
  { rewrite <- (normalizeString_rooted segs []) at 2 by auto.
    rewrite app_nil_r. reflexivity. }
  rewrite !Hn.
  pose proof (glue_plain_not_nil segs Hall Hne) as Hg.
  destruct (glue segs) as [|g gs] eqn:Eg; [congruence|]. rewrite <- Eg.
  destruct (glue_ends_with_segment segs Hne) as (pre & seg & -> & Hin).
  rewrite Forall_forall in Hall. destruct (Hall seg Hin) as (Hsf & Hseg & _).
  rewrite app_assoc, trailingSeparator_sepfree by assumption. reflexivity.
Qed.

Lemma resolve_rooted cwd segs :
  Forall plain segs -> segs <> [] ->
  resolve cwd [sep ++ glue segs] = sep ++ glue segs.
Proof.
  intros Hall Hne. unfold resolve. cbn [rev app resolve_scan sep].
  replace (isAbsolute _) with true by reflexivity. cbn [negb].
  change (SLASH :: glue segs ++ [SLASH]) with (sep ++ glue segs ++ sep).
  rewrite normalizeString_rooted by auto. reflexivity.
Qed.

(** The data directory is an absolute path in normal form whose last
    segment is ["data"]. *)
Lemma DATA_DIR_rooted cwd :
  isAbsolute cwd = true ->
  exists segs, Forall plain segs /\ segs <> [] /\ DATA_DIR cwd = sep ++ glue segs.
Proof.
  intros Habs. unfold DATA_DIR, resolve.
  destruct cwd as [|c cwd']; [discriminate|].
  cbn [rev app]. unfold resolve_scan at 1.
  change (js "data") with [100; 97; 116; 97]%N. cbv iota.
  replace (isAbsolute [100; 97; 116; 97]%N) with false by reflexivity.
  cbv iota. fold resolve_scan. cbn [resolve_scan]. rewrite Habs. cbn [negb].
  set (cwd := c :: cwd'). unfold normalizeString.
  change (cwd ++ sep ++ [100; 97; 116; 97]%N ++ sep ++ [])
    with (cwd ++ sep ++ ([100; 97; 116; 97]%N ++ sep ++ [])).
  rewrite !segments_app_sep, !fold_left_app.
  set (res := fold_left (normalize_step false) (segments cwd) []).
  assert (Hres : Forall plain res).
  { apply fold_keeps_plain; [apply segments_all_sepfree|constructor]. }
  assert (Hdata : plain [100; 97; 116; 97]%N).
  { repeat split; try discriminate. repeat constructor; discriminate. }
  rewrite (segments_sepfree [100; 97; 116; 97]%N) by apply Hdata.
  change (segments []) with [[] : jsstring]. cbn [fold_left].
  rewrite (normalize_step_plain false res _ Hdata), normalize_step_empty.
  exists (rev res ++ [[100; 97; 116; 97]%N]). split; [|split].
  - apply Forall_app. split; [apply Forall_rev, Hres|constructor; [exact Hdata|constructor]].
  - destruct (rev res); discriminate.
  - reflexivity.
Qed.

(** On an absolute working directory the containment check never fires:
    the result is the data directory, one separator, and the key. *)
Lemma getSafeDataPath_run cwd raw key :
  isAbsolute cwd = true ->
  sanitizeFilename raw = Ok key ->
  getSafeDataPath cwd raw = Ok (DATA_DIR cwd ++ sep ++ key).
Proof.
  intros Habs Hkey. unfold getSafeDataPath. rewrite Hkey. cbn [bind].
  pose proof (safe_key_plain key (sanitizeFilename_safe raw key Hkey)) as Hplain.
  destruct (DATA_DIR_rooted cwd Habs) as (segs & Hall & Hne & ->).
  assert (Hjoin : join [sep ++ glue segs; key] = sep ++ glue (segs ++ [key])).
  { unfold join. cbn [List.filter].
    rewrite (str_eqb_neq (sep ++ glue segs) []) by discriminate.
    rewrite (str_eqb_neq key []) by apply Hplain. cbn [negb glue].
    rewrite <- app_assoc, <- glue_snoc by exact Hne.
    apply normalize_rooted; [|destruct segs; discriminate].
    apply Forall_app. split; [exact Hall|constructor; [exact Hplain|constructor]]. }
  rewrite Hjoin, resolve_rooted.
  - rewrite glue_snoc by exact Hne. rewrite !app_assoc.
    rewrite <- (app_assoc sep). rewrite startsWith_app. reflexivity.
  - apply Forall_app. split; [exact Hall|constructor; [exact Hplain|constructor]].
  - destruct segs; discriminate.
Qed.

Lemma replace_leading_dots_nil s : replace_leading_dots s = [] <-> s = [].
Proof.
  destruct s as [|c s]; [tauto|]. unfold replace_leading_dots.
  destruct (c =? DOT)%N; split; discriminate.
Qed.

Lemma sanitize_chain_nil raw :
  replace_leading_dots (replace_control (replace_separators (remove_null_bytes raw))) = []
  <-> remove_null_bytes raw = [].
Proof.
  rewrite replace_leading_dots_nil. unfold replace_control, replace_separators.
  destruct (remove_null_bytes raw); cbn; split; congruence.
Qed.

(** C1.  [getSafeDataPath] never hands out a path outside the data
    directory: whatever it returns passed the containment test, and on an
    absolute working directory the call either throws (exactly when
    [sanitizeFilename] does) or returns the data directory followed by one
    separator and one sanitised key, which holds no separator and is
    neither ["."] nor [".."]. *)
Theorem getSafeDataPath_confined cwd raw :
  (forall p, getSafeDataPath cwd raw = Ok p -> within_data_dir cwd p = true)
  /\ (isAbsolute cwd = true ->
      (exists e, getSafeDataPath cwd raw = Err e)
      \/ (exists key,
            getSafeDataPath cwd raw = Ok (DATA_DIR cwd ++ sep ++ key)
            /\ startsWith (DATA_DIR cwd ++ sep ++ key) (DATA_DIR cwd ++ sep) = true
            /\ sanitizeFilename raw = Ok key
            /\ safe_key key /\ plain key)).
Proof.
  split.
  - intros p. unfold getSafeDataPath, within_data_dir.
    destruct (sanitizeFilename raw) as [key|e]; [|discriminate]. cbn [bind].
    destruct (startsWith _ _) eqn:Es.
    + intros [= <-]. rewrite Es. reflexivity.
    + destruct (str_eqb _ _) eqn:Ee; [|discriminate].
      intros [= <-]. rewrite Ee. apply orb_true_r.
  - intros Habs. destruct (sanitizeFilename raw) as [key|e] eqn:Ekey.
    + right. exists key.
      pose proof (sanitizeFilename_safe raw key Ekey) as Hsafe.
      split; [apply getSafeDataPath_run; assumption|].
      split; [rewrite app_assoc; apply startsWith_app|].
      split; [reflexivity|]. split; [exact Hsafe|apply safe_key_plain, Hsafe].
    + left. exists e. unfold getSafeDataPath. rewrite Ekey. reflexivity.
Qed.

(** C8 (amended).  [sanitizeFilename] throws exactly when nothing is left
    once the NUL bytes are removed (the empty input included).  Length is
    no reason to throw: a result is the sanitised text cut to its first
    255 code units. *)
Theorem sanitizeFilename_fails_iff_nothing_left raw :
  (is_ok (sanitizeFilename raw) = false <-> remove_null_bytes raw = [])
  /\ (forall key, sanitizeFilename raw = Ok key ->
        key = take 255 (replace_leading_dots
                          (replace_control (replace_separators (remove_null_bytes raw))))
        /\ (0 < length key <= 255)%nat).
Proof.
  unfold sanitizeFilename. destruct raw as [|c0 raw0].
  { split; [split; reflexivity|discriminate]. }
  set (raw := c0 :: raw0). pose proof (sanitize_chain_nil raw) as Hnil.
  set (s := replace_leading_dots _) in *. clearbody s raw.
  assert (Hcut : (if (255 <? length s)%nat then take 255 s else s) = take 255 s).
  { destruct (Nat.ltb_spec 255 (length s)); [reflexivity|].
    symmetry. apply take_ge. lia. }
  rewrite Hcut. destruct (Nat.eqb_spec (length (take 255 s)) 0) as [H0|H0].
  - split; [|discriminate]. split; [intros _|reflexivity].
    apply Hnil. rewrite length_take in H0. destruct s; [reflexivity|cbn in H0; lia].
  - split.
    + split; [discriminate|]. intros Hr. apply Hnil in Hr. subst s. contradiction.
    + intros key [= <-]. split; [reflexivity|]. rewrite length_take in *. lia.
Qed.

End PathSafetyFacts.

(** The traversal attempt ["../../etc/passwd"] from the working directory
    ["/app"]. *)
Lemma getSafeDataPath_confined_witness :
  PathSafety.within_data_dir (js "/app") (js "/app/data/__.._etc_passwd") = true
  /\ ((exists e, PathSafety.getSafeDataPath (js "/app") (js "../../etc/passwd") = Err e)
      \/ (exists key,
            PathSafety.getSafeDataPath (js "/app") (js "../../etc/passwd")
            = Ok (PathSafety.DATA_DIR (js "/app") ++ NodePath.sep ++ key)
            /\ startsWith (PathSafety.DATA_DIR (js "/app") ++ NodePath.sep ++ key)
                 (PathSafety.DATA_DIR (js "/app") ++ NodePath.sep) = true
            /\ PathSafety.sanitizeFilename (js "../../etc/passwd") = Ok key
            /\ safe_key key /\ plain key)).
Proof.
  split.
  - apply (proj1 (getSafeDataPath_confined (js "/app") (js "../../etc/passwd"))).
    vm_compute. reflexivity.
  - apply (proj2 (getSafeDataPath_confined (js "/app") (js "../../etc/passwd"))).
    reflexivity.
Defined.

Example getSafeDataPath_etc_passwd :
  PathSafety.getSafeDataPath (js "/app") (js "../../etc/passwd")
  = Ok (js "/app/data/__.._etc_passwd").
Proof. vm_compute. reflexivity. Qed.

Example getSafeDataPath_backslash_nul :
  PathSafety.getSafeDataPath (js "/app") ([0; 46; 46; 92; 0; 47; 120]%N)
  = Ok (js "/app/data/___x").
Proof. vm_compute. reflexivity. Qed.

(** Length is not refused: of 256 code units ["a"] the first 255
    of them come back as the key. *)
Lemma sanitizeFilename_truncates_long_input :
  length (replicate 256 97%N) = 256%nat
  /\ PathSafety.sanitizeFilename (replicate 256 97%N) = Ok (replicate 255 97%N).
Proof. split; vm_compute; reflexivity. Qed.

Lemma sanitizeFilename_fails_iff_nothing_left_witness :
  is_ok (PathSafety.sanitizeFilename [NUL; NUL]) = false
  /\ js "__x"
     = take 255 (PathSafety.replace_leading_dots
                   (PathSafety.replace_control
                      (PathSafety.replace_separators
                         (PathSafety.remove_null_bytes (js "../x")))))
  /\ (0 < length (js "__x") <= 255)%nat.
Proof.
  split.
  - apply (proj2 (proj1 (sanitizeFilename_fails_iff_nothing_left [NUL; NUL]))).
    reflexivity.
  - apply (proj2 (sanitizeFilename_fails_iff_nothing_left (js "../x")) (js "__x")).
    vm_compute. reflexivity.
Defined.

(** ** Message validation *)

Section ValidationFacts.
Import Validation.
Implicit Types (s : jsstring).

Lemma length_collapse_whitespace s : forall in_run,
  (length (collapse_whitespace in_run s) <= length s)%nat.
Proof.
  induction s as [|c s IH]; intros in_run; cbn; [lia|].
  destruct (is_whitespace c); [destruct in_run|]; cbn;
    match goal with |- context [collapse_whitespace ?b s] => pose proof (IH b) end; lia.
Qed.

Lemma length_trimStart s : (length (trimStart s) <= length s)%nat.
Proof.
  induction s as [|c s IH]; cbn; [lia|].
  destruct (is_whitespace c); cbn; lia.
Qed.

Lemma length_normalize_whitespace s :
  (length (normalize_whitespace s) <= length s)%nat.
Proof.
  unfold normalize_whitespace, trim. rewrite length_rev.
  etransitivity; [apply length_trimStart|]. rewrite length_rev.
  etransitivity; [apply length_trimStart|]. apply length_collapse_whitespace.
Qed.

(** C9 (amended).  [validateMessageContent] accepts [s] exactly when the
    raw [s] has at most 4000 code units and its white-space-normalised
    content is not empty; what it returns is that content with the two
    markers filtered.  The normalised content is never longer than [s]. *)
Theorem validateMessageContent_accepts_iff s :
  (is_ok (validateMessageContent s) = true
   <-> (length s <= 4000)%nat /\ normalize_whitespace s <> [])
  /\ (forall out, validateMessageContent s = Ok out ->
        out = replace_all_ci (js "[ADMIN]") (js "[FILTERED]")
                (replace_all_ci (js "[SYSTEM]") (js "[FILTERED]")
                   (normalize_whitespace s) O) O)
  /\ (length (normalize_whitespace s) <= length s)%nat.
Proof.
  split; [|split; [|apply length_normalize_whitespace]].
  - unfold validateMessageContent, MAX_MESSAGE_LENGTH.
    destruct s as [|c s']; [cbn; split; [discriminate|intros [_ H]; congruence]|].
    set (s := c :: s'). clearbody s.
    destruct (Nat.ltb_spec 4000 (length s)) as [Hlong|Hok].
    + cbn. split; [discriminate|lia].
    + destruct (normalize_whitespace s) as [|n ns] eqn:En; cbn.
      * split; [discriminate|intros [_ H]; congruence].
      * split; [intros _; split; [exact Hok|discriminate]|reflexivity].
  - intros out. unfold validateMessageContent.
    destruct s as [|c s']; [discriminate|].
    destruct (_ <? _)%nat; [discriminate|].
    destruct (_ =? _)%nat; [discriminate|]. intros [= <-]. reflexivity.
Qed.

End ValidationFacts.

(** The ceiling is on the raw text: ["a"] followed by 4000 spaces normalises to ["a"],
    one code unit, and is rejected for its raw length of 4001. *)
Lemma validateMessageContent_rejects_long_raw_input :
  Validation.normalize_whitespace (97%N :: replicate 4000 SPACE) = [97%N]
  /\ Validation.validateMessageContent (97%N :: replicate 4000 SPACE)
     = Err (ValidationError "Message too long (maximum 4000 characters).").
Proof. split; vm_compute; reflexivity. Qed.

Lemma validateMessageContent_accepts_iff_witness :
  is_ok (Validation.validateMessageContent (js " hi  there ")) = true
  /\ js "hi there"
     = Validation.replace_all_ci (js "[ADMIN]") (js "[FILTERED]")
         (Validation.replace_all_ci (js "[SYSTEM]") (js "[FILTERED]")
            (Validation.normalize_whitespace (js " hi  there ")) O) O.
Proof.
  split.
  - apply (proj1 (validateMessageContent_accepts_iff (js " hi  there "))).
    split; [vm_compute; lia|vm_compute; discriminate].
  - apply (proj1 (proj2 (validateMessageContent_accepts_iff (js " hi  there "))) (js "hi there")).
    vm_compute. reflexivity.
Defined.

(** ** The document store *)

Section StoreFacts.
Import Store.
Variable cwd : jsstring.
Variable isServerConfigurationKey : jsstring -> bool.
Implicit Types (st : fs) (p filename key : jsstring) (v : json) (value : scalar).

Lemma tmp_of_neq p : tmp_of p <> p.
Proof.
  intros E. apply (f_equal length) in E. unfold tmp_of in E.
  rewrite length_app in E. cbn in E. lia.
Qed.

Lemma channel_shape_fields v :
  channel_shape v = true ->
  has_field v (js "id") /\ has_field v (js "name") /\ has_field v (js "messages").
Proof.
  destruct v as [| | | | |fields]; try discriminate. cbn [channel_shape].
  intros H. apply andb_true_iff in H as [H Hm]. apply andb_true_iff in H as [Hi Hn].
  repeat split.
  - destruct (fields !! js "id") as [x|] eqn:E; [|discriminate]. exists fields, x. auto.
  - destruct (fields !! js "name") as [x|] eqn:E; [|discriminate]. exists fields, x. auto.
  - destruct (fields !! js "messages") as [x|] eqn:E; [|discriminate].
    exists fields, x. auto.
Qed.

Lemma config_shape_fields v :
  config_shape v = true -> has_field v (js "name") /\ has_field v (js "options").
Proof.
  destruct v as [| | | | |fields]; try discriminate. cbn [config_shape].
  intros H. apply andb_true_iff in H as [Hn Ho]. split.
  - destruct (fields !! js "name") as [x|] eqn:E; [|discriminate]. exists fields, x. auto.
  - destruct (fields !! js "options") as [x|] eqn:E; [|discriminate].
    exists fields, x. auto.
Qed.

Lemma getChannelInfo_run filename p st :
  PathSafety.getSafeDataPath cwd filename = Ok p ->
  getChannelInfo cwd filename st
  = (read_outcome channel_shape "Failed to read channel info" (files st !! p),
     called (ReadFile p) st).
Proof.
  intros Hp. unfold getChannelInfo, io_bind, io_lift, try_catch, readFile.
  rewrite Hp. destruct (files st !! p) as [[| |v]|]; try reflexivity.
  destruct v as [| | | | |fields]; try reflexivity.
  cbn [is_blank JSON_parse get_field read_outcome channel_shape].
  destruct (truthy (fields !! js "id")); [|reflexivity].
  destruct (truthy (fields !! js "name")); [|reflexivity].
  destruct (Array_isArray (fields !! js "messages")); reflexivity.
Qed.

Lemma readConfig_run failure filename p st :
  PathSafety.getSafeDataPath cwd filename = Ok p ->
  readConfig cwd failure filename st
  = (read_outcome config_shape failure (files st !! p), called (ReadFile p) st).
Proof.
  intros Hp. unfold readConfig, io_bind, io_lift, try_catch, readFile.
  rewrite Hp. destruct (files st !! p) as [[| |v]|]; try reflexivity.
  destruct v as [| | | | |fields]; try reflexivity.
  cbn [is_blank JSON_parse get_field read_outcome config_shape].
  destruct (truthy (fields !! js "name")); [|reflexivity].
  destruct (truthy (fields !! js "options")); reflexivity.
Qed.

Lemma read_outcome_null shape failure file :
  read_outcome shape failure file = Ok None <-> file = None.
Proof.
  destruct file as [[| |v]|]; cbn; try (split; discriminate || reflexivity).
  destruct (shape v); split; discriminate.
Qed.

Lemma read_outcome_corrupt shape failure c :
  c = Blank \/ c = Malformed \/ (exists v, c = Doc v /\ shape v = false) ->
  read_outcome shape failure (Some c) = Err (Error_ failure).
Proof.
  intros [-> | [-> | (v & -> & Hv)]]; cbn; [reflexivity..|]. rewrite Hv. reflexivity.
Qed.

Lemma read_outcome_honest read shape failure p required st :
  read st = (read_outcome shape failure (files st !! p), called (ReadFile p) st) ->
  (forall v k, k ∈ required -> shape v = true -> has_field v k) ->
  reads_honestly read p required st.
Proof.
  intros Hrun Hshape. unfold reads_honestly. rewrite Hrun. cbn [fst snd called files].
  split; [apply read_outcome_null|]. split; [|reflexivity].
  intros c -> Hc. exists (Error_ failure). apply read_outcome_corrupt.
  destruct Hc as [Hc | [Hc | (v & k & -> & Hk & Hno)]]; [auto..|].
  right; right. exists v. split; [reflexivity|].
  destruct (shape v) eqn:E; [|reflexivity]. exfalso. apply Hno, (Hshape v k Hk E).
Qed.

(** A file name that [getSafeDataPath] refuses makes every read throw, before
    any file is looked at. *)
Lemma reads_refuse_bad_filename filename e st :
  PathSafety.getSafeDataPath cwd filename = Err e ->
  getChannelInfo cwd filename st = (Err e, st)
  /\ getUserConfig cwd filename st = (Err e, st)
  /\ getServerConfig cwd filename st = (Err e, st).
Proof.
  intros Hp. unfold getChannelInfo, getUserConfig, getServerConfig, readConfig.
  unfold io_bind, io_lift. rewrite Hp. auto.
Qed.

(** C3.  [getChannelInfo], [getUserConfig] and [getServerConfig] return
    [null] exactly when the file is missing; a file that is there but
    blank, unparsable or lacking a required top-level field ([id], [name],
    [messages] for a conversation; [name], [options] for a configuration)
    makes them throw. *)
Theorem reads_return_null_only_when_missing filename p st :
  PathSafety.getSafeDataPath cwd filename = Ok p ->
  reads_honestly (getChannelInfo cwd filename) p
    [js "id"; js "name"; js "messages"] st
  /\ reads_honestly (getUserConfig cwd filename) p [js "name"; js "options"] st
  /\ reads_honestly (getServerConfig cwd filename) p [js "name"; js "options"] st.
Proof.
  intros Hp. split; [|split].
  - eapply read_outcome_honest; [apply getChannelInfo_run, Hp|].
    intros v k Hk Hv. destruct (channel_shape_fields v Hv) as (Hi & Hn & Hm).
    repeat (apply elem_of_cons in Hk as [-> | Hk]; [assumption|]).
    apply elem_of_nil in Hk as [].
  - eapply read_outcome_honest; [apply readConfig_run, Hp|].
    intros v k Hk Hv. destruct (config_shape_fields v Hv) as (Hn & Ho).
    repeat (apply elem_of_cons in Hk as [-> | Hk]; [assumption|]).
    apply elem_of_nil in Hk as [].
  - eapply read_outcome_honest; [apply readConfig_run, Hp|].
    intros v k Hk Hv. destruct (config_shape_fields v Hv) as (Hn & Ho).
    repeat (apply elem_of_cons in Hk as [-> | Hk]; [assumption|]).
    apply elem_of_nil in Hk as [].
Qed.

(** *** Writes *)

Lemma stage_then_rename p data st :
  io_bind (writeFile (tmp_of p) data) (fun _ => rename (tmp_of p) p) st
  = (Ok tt, committed p data [] st).
Proof.
  unfold io_bind, writeFile, rename, committed. cbn [files calls].
  rewrite lookup_insert_eq. cbn [app]. rewrite <- app_assoc. reflexivity.
Qed.

Lemma committed_called p data c st :
  committed p data [] (called c st) = committed p data [c] st.
Proof.
  unfold committed, called. cbn [files calls app]. rewrite <- app_assoc. reflexivity.
Qed.

Lemma committed_lookup p data before st :
  files (committed p data before st) !! p = Some data
  /\ files (committed p data before st) !! tmp_of p = None
  /\ (forall q, q <> p -> q <> tmp_of p ->
        files (committed p data before st) !! q = files st !! q).
Proof.
  pose proof (tmp_of_neq p) as Hne. unfold committed. cbn [files]. repeat split.
  - apply lookup_insert_eq.
  - rewrite lookup_insert_ne by congruence. apply lookup_delete_eq.
  - intros q Hp Ht.
    rewrite lookup_insert_ne, lookup_delete_ne, lookup_insert_ne by congruence.
    reflexivity.
Qed.

Lemma openConfig_update_run filename key value p st fields opts :
  PathSafety.getSafeDataPath cwd filename = Ok p ->
  files st !! p = Some (Doc (JObject fields)) ->
  fields !! js "options" = Some (JObject opts) ->
  openConfig cwd isServerConfigurationKey filename key value st
  = (Ok tt, committed p (Doc (with_option fields opts key value)) [ReadFile p] st).
Proof.
  intros Hp Hfile Hopts.
  unfold openConfig, withLock, try_catch, io_lift. unfold io_bind at 1. rewrite Hp.
  unfold io_bind at 1. unfold readFile at 1. rewrite Hfile.
  unfold io_bind at 1. cbn [JSON_parse]. unfold io_bind at 1.
  unfold set_option. rewrite Hopts. cbn [truthy].
  fold (tmp_of p). fold (with_option fields opts key value). unfold JSON_stringify.
  rewrite stage_then_rename, committed_called. reflexivity.
Qed.

Lemma openConfig_create_run filename key value p st :
  PathSafety.getSafeDataPath cwd filename = Ok p ->
  files st !! p = None ->
  openConfig cwd isServerConfigurationKey filename key value st
  = (Ok tt,
     mkFs (<[p := Doc (createDefaultConfig isServerConfigurationKey key value)]> (files st))
          (calls st ++ [ReadFile p; Mkdir (NodePath.dirname p);
                        WriteFile p (Doc (createDefaultConfig isServerConfigurationKey
                                            key value))])).
Proof.
  intros Hp Hfile.
  unfold openConfig, withLock, try_catch, io_lift. unfold io_bind at 1. rewrite Hp.
  unfold io_bind at 1. unfold readFile at 1. rewrite Hfile. cbn [code_is_ENOENT].
  unfold io_bind, mkdir, writeFile, called, JSON_stringify. cbn [files calls].
  rewrite <- !app_assoc. reflexivity.
Qed.

Lemma save_run failure p info st :
  save failure p info st
  = (Ok tt, committed p (Doc info) [Mkdir (NodePath.dirname p)] st).
Proof.
  unfold save, withLock, try_catch. unfold io_bind at 1. unfold mkdir at 1.
  fold (tmp_of p). unfold JSON_stringify.
  rewrite stage_then_rename, committed_called. reflexivity.
Qed.

(** [saveChannelInfo] stages its write whether or not the file exists. *)
Lemma saveChannelInfo_run channelId channelName username messages id name p st :
  Validation.validateChannelId channelId = Ok id ->
  Validation.validateUsername username = Ok name ->
  PathSafety.getSafeDataPath cwd (id ++ js "-" ++ name ++ js ".json") = Ok p ->
  saveChannelInfo cwd channelId channelName username messages st
  = (Ok tt, committed p (Doc (channelInfo channelId channelName username messages))
              [Mkdir (NodePath.dirname p)] st).
Proof.
  intros Hid Hname Hp. unfold saveChannelInfo, io_lift.
  unfold io_bind at 1. rewrite Hid. unfold io_bind at 1. rewrite Hname.
  unfold io_bind at 1. rewrite Hp. apply save_run.
Qed.

Lemma saveChannelContext_run channelId channelName messages id p st :
  Validation.validateChannelId channelId = Ok id ->
  PathSafety.getSafeDataPath cwd (id ++ js "-context.json") = Ok p ->
  saveChannelContext cwd channelId channelName messages st
  = (Ok tt, committed p (Doc (channelInfo channelId channelName (js "context") messages))
              [Mkdir (NodePath.dirname p)] st).
Proof.
  intros Hid Hp. unfold saveChannelContext, io_lift.
  unfold io_bind at 1. rewrite Hid. unfold io_bind at 1. rewrite Hp. apply save_run.
Qed.

Lemma staged_committed p data c :
  staged [c; WriteFile (tmp_of p) data; Rename (tmp_of p) p]
  = match c with WriteFile _ _ => false | _ => true end.
Proof. destruct c; cbn; rewrite ?str_eqb_refl; reflexivity. Qed.

Lemma assign_property_other opts key (x : json) k :
  k <> key -> assign_property opts key x !! k = opts !! k.
Proof.
  intros Hk. unfold assign_property.
  destruct (_ && _); [reflexivity|]. apply lookup_insert_ne. congruence.
Qed.

Lemma assign_property_same opts key (x : json) :
  key <> js "__proto__" \/ is_Some (opts !! key) ->
  assign_property opts key x !! key = Some x.
Proof.
  intros H. unfold assign_property.
  destruct (str_eqb key (js "__proto__")) eqn:E1; cbn [andb];
    [|apply lookup_insert_eq].
  apply str_eqb_eq in E1. destruct H as [H|H]; [congruence|].
  rewrite bool_decide_eq_true_2 by exact H. cbn [negb]. apply lookup_insert_eq.
Qed.

(** C7.  On an existing configuration document, [openConfig filename k v]
    rewrites the file with the same top-level fields, [name] among them,
    and the same options except for the entry of [k]. *)
Theorem openConfig_changes_one_option filename key value p st fields opts :
  PathSafety.getSafeDataPath cwd filename = Ok p ->
  files st !! p = Some (Doc (JObject fields)) ->
  fields !! js "options" = Some (JObject opts) ->
  exists st' fields' opts',
    openConfig cwd isServerConfigurationKey filename key value st = (Ok tt, st')
    /\ files st' !! p = Some (Doc (JObject fields'))
    /\ fields' !! js "options" = Some (JObject opts')
    /\ (forall k, k <> key -> opts' !! k = opts !! k)
    /\ (key <> js "__proto__" \/ is_Some (opts !! key) ->
        opts' !! key = Some (scalar_json value))
    /\ (forall f, f <> js "options" -> fields' !! f = fields !! f)
    /\ fields' !! js "name" = fields !! js "name"
    /\ (forall q, q <> p -> q <> tmp_of p -> files st' !! q = files st !! q).
Proof.
  intros Hp Hfile Hopts.
  pose proof (committed_lookup p (Doc (with_option fields opts key value))
                [ReadFile p] st) as (Hat & _ & Hother).
  eexists _, _, _. split; [eapply openConfig_update_run; eassumption|].
  split; [exact Hat|]. split; [apply lookup_insert_eq|].
  split; [intros k Hk; apply assign_property_other, Hk|].
  split; [apply assign_property_same|].
  split; [intros f Hf; apply lookup_insert_ne; congruence|].
  split; [apply lookup_insert_ne; discriminate|exact Hother].
Qed.

End StoreFacts.

(** *** The store on concrete files *)

(** The three reads on a file that contains ["{}"]. *)
Lemma reads_return_null_only_when_missing_witness :
  let p := js "/app/data/123-context.json" in
  reads_honestly (Store.getChannelInfo app_dir (js "123-context.json")) p
    [js "id"; js "name"; js "messages"] (empty_object_at p)
  /\ reads_honestly (Store.getUserConfig app_dir (js "123-context.json")) p
       [js "name"; js "options"] (empty_object_at p)
  /\ reads_honestly (Store.getServerConfig app_dir (js "123-context.json")) p
       [js "name"; js "options"] (empty_object_at p).
Proof.
  apply (reads_return_null_only_when_missing app_dir (js "123-context.json")).
  vm_compute. reflexivity.
Defined.

Example getChannelInfo_empty_object :
  let p := js "/app/data/123-context.json" in
  fst (Store.getChannelInfo app_dir (js "123-context.json") (empty_object_at p))
  = Err (Error_ "Failed to read channel info")
  /\ fst (Store.getChannelInfo app_dir (js "123-context.json") (mkFs ∅ [])) = Ok None
  /\ fst (Store.getChannelInfo app_dir (js "123-context.json") (mkFs {[p := Blank]} []))
     = Err (Error_ "Failed to read channel info").
Proof. repeat split; vm_compute; reflexivity. Qed.

(** C2 fails on the creating branch of [openConfig]: for a key without a
    file the document goes straight to the target, with no [.tmp] sibling
    and no [rename]. *)
Theorem openConfig_creates_without_staging :
  files (mkFs ∅ []) !! alice_config = None
  /\ Store.openConfig app_dir toggle_chat_key (js "alice-config.json")
       (js "switch-model") (SString (js "llama3.2")) (mkFs ∅ [])
     = (Ok tt,
        mkFs {[alice_config := alice_default]}
             [ReadFile alice_config; Mkdir (js "/app/data");
              WriteFile alice_config alice_default])
  /\ staged [ReadFile alice_config; Mkdir (js "/app/data");
             WriteFile alice_config alice_default] = false.
Proof.
  split; [reflexivity|]. split; [|reflexivity].
  rewrite (openConfig_create_run app_dir toggle_chat_key (js "alice-config.json")
             (js "switch-model") (SString (js "llama3.2")) alice_config);
    [reflexivity|vm_compute; reflexivity|reflexivity].
Qed.

(** The same call on a file that exists is staged, as are the two save
    functions on a key that has no file yet. *)
Example openConfig_update_is_staged :
  let st := mkFs {[alice_config := Doc (JObject {[js "options" := JObject ∅]})]} [] in
  staged (calls (snd (Store.openConfig app_dir toggle_chat_key (js "alice-config.json")
                        (js "switch-model") (SString (js "llama3.2")) st))) = true.
Proof.
  cbv zeta.
  erewrite (openConfig_update_run app_dir toggle_chat_key (js "alice-config.json"));
    [|vm_compute; reflexivity|reflexivity|reflexivity].
  cbn [snd committed calls app]. apply (staged_committed alice_config).
Qed.

Example saveChannelInfo_create_is_staged :
  staged (calls (snd (Store.saveChannelInfo app_dir (js "12345678901234567") (js "general")
                        (js "alice") [] (mkFs ∅ [])))) = true.
Proof.
  erewrite (saveChannelInfo_run app_dir);
    [|vm_compute; reflexivity|vm_compute; reflexivity|vm_compute; reflexivity].
  cbn [snd committed calls app]. apply staged_committed.
Qed.

Example saveChannelContext_create_is_staged :
  staged (calls (snd (Store.saveChannelContext app_dir (js "12345678901234567")
                        (js "general") [] (mkFs ∅ [])))) = true.
Proof.
  erewrite (saveChannelContext_run app_dir);
    [|vm_compute; reflexivity|vm_compute; reflexivity].
  cbn [snd committed calls app]. apply staged_committed.
Qed.

(** A document with the option [switch-model] set, updating
    [modify-capacity]. *)
Lemma openConfig_changes_one_option_witness :
  let fields : gmap jsstring json :=
    {[js "name" := JString (js "User Configurations");
      js "options" := JObject {[js "switch-model" := JString (js "a")]}]} in
  let st := mkFs {[alice_config := Doc (JObject fields)]} [] in
  exists st' fields' opts',
    Store.openConfig app_dir toggle_chat_key (js "alice-config.json")
      (js "modify-capacity") (SNumber 10) st = (Ok tt, st')
    /\ files st' !! alice_config = Some (Doc (JObject fields'))
    /\ fields' !! js "options" = Some (JObject opts')
    /\ (forall k, k <> js "modify-capacity" ->
         opts' !! k = ({[js "switch-model" := JString (js "a")]} : gmap jsstring json) !! k)
    /\ (js "modify-capacity" <> js "__proto__"
        \/ is_Some (({[js "switch-model" := JString (js "a")]} : gmap jsstring json)
                    !! js "modify-capacity") ->
        opts' !! js "modify-capacity" = Some (scalar_json (SNumber 10)))
    /\ (forall f, f <> js "options" -> fields' !! f = fields !! f)
    /\ fields' !! js "name" = fields !! js "name"
    /\ (forall q, q <> alice_config -> q <> tmp_of alice_config ->
         files st' !! q = files st !! q).
Proof.
  cbv zeta.
  apply (openConfig_changes_one_option app_dir toggle_chat_key (js "alice-config.json")
           (js "modify-capacity") (SNumber 10) alice_config).
  - vm_compute. reflexivity.
  - vm_compute. reflexivity.
  - vm_compute. reflexivity.
Defined.

(** Two calls in a row: [switch-model] first (which creates the
    file), then [modify-capacity]; both options are in the final document. *)
Example openConfig_twice_keeps_both :
  let run key value st :=
    snd (Store.openConfig app_dir toggle_chat_key (js "alice-config.json") key value st) in
  let st2 := run (js "modify-capacity") (SNumber 10)
               (run (js "switch-model") (SString (js "a")) (mkFs ∅ [])) in
  files st2 !! alice_config
  = Some (Doc (JObject
       {[js "name" := JString (js "User Configurations");
         js "options" := JObject {[js "switch-model" := JString (js "a");
                                   js "modify-capacity" := JNumber 10]}]})).
Proof. vm_compute. reflexivity. Qed.


(** * Further properties *)

(** ** The queue: order, bound and eviction *)

Section QueueMore.
Context {T : Type}.
Implicit Types (q : Queue.t T) (s items : list T) (x : T) (c : Z).

(** X1.  Whatever the queue holds, also more than its capacity after the
    capacity was lowered, one [enqueue] at [capacity >= 1] brings it back
    within the capacity: the result is the newest [capacity - 1] old items,
    in their order, followed by the new item. *)
Theorem enqueue_restores_bound q x :
  1 <= Queue.capacity q ->
  exists q' kept,
    Queue.enqueue q x = Some q'
    /\ Queue.capacity q' = Queue.capacity q
    /\ Queue.getItems q' = kept ++ [x]
    /\ kept `suffix_of` Queue.getItems q
    /\ length kept = Nat.min (length (Queue.getItems q)) (Z.to_nat (Queue.capacity q) - 1)
    /\ Queue.size q' <= Queue.capacity q'.
Proof.
  destruct q as [c s]. cbn [Queue.capacity Queue.getItems Queue.storage]. intros Hc.
  exists (Queue.mk c (drop (evicted c s) s ++ [x])), (drop (evicted c s) s).
  split; [apply enqueue_run, Hc|]. split; [reflexivity|]. split; [reflexivity|].
  split; [apply suffix_drop|].
  unfold Queue.size, evicted. cbn [Queue.capacity Queue.storage].
  rewrite length_app, length_drop. cbn [length]. split; lia.
Qed.

(** X2.  Up to the capacity nothing is lost: after enqueuing at most [c]
    items into the empty queue of capacity [c], the queue holds exactly
    these items in the order they came. *)
Theorem enqueue_within_capacity_keeps_all c items :
  1 <= c -> Z.of_nat (length items) <= c ->
  exists q0 q',
    Queue.new c = Ok q0
    /\ Queue.enqueue_all q0 items = Some q'
    /\ Queue.getItems q' = items
    /\ Queue.size q' = Z.of_nat (length items).
Proof.
  intros Hc Hn. unfold Queue.new. destruct (Z.ltb_spec c 1) as [|_]; [lia|].
  exists (Queue.mk c []), (Queue.mk c items).
  split; [reflexivity|]. split.
  - change (Queue.mk c []) with (Queue.mk c (lastn (Z.to_nat c) (@nil T))).
    rewrite (enqueue_all_lastn c items [] Hc). cbn [app]. unfold lastn.
    replace (length items - Z.to_nat c)%nat with O by lia. reflexivity.
  - split; reflexivity.
Qed.

Lemma dequeue_all_run n : forall c s,
  dequeue_all n (Queue.mk c s)
  = (map Some (take n s) ++ replicate (n - length s) None, Queue.mk c (drop n s)).
Proof.
  induction n as [|n IH]; intros c s; [reflexivity|].
  cbn [dequeue_all]. unfold Queue.dequeue. cbn [Queue.storage Queue.capacity].
  destruct s as [|a s].
  - rewrite (IH c []). cbn. rewrite take_nil, drop_nil. cbn.
    replace (n - 0)%nat with n by lia. reflexivity.
  - rewrite (IH c s). reflexivity.
Qed.

(** X3.  First in, first out: [n] calls of [dequeue] hand out the [n] oldest
    items, oldest first, and leave the rest; once the queue is empty every
    further call returns [undefined] and changes nothing. *)
Theorem dequeue_all_fifo n q :
  let '(out, q') := dequeue_all n q in
  out = map Some (take n (Queue.getItems q))
        ++ replicate (n - length (Queue.getItems q)) None
  /\ Queue.getItems q' = drop n (Queue.getItems q)
  /\ Queue.capacity q' = Queue.capacity q.
Proof.
  destruct q as [c s]. rewrite dequeue_all_run. auto.
Qed.

(** X4.  [isFull] tells whether the next [enqueue] evicts: at
    [capacity >= 1] the call keeps every item exactly when [isFull] is
    false. *)
Theorem isFull_iff_enqueue_evicts q x :
  1 <= Queue.capacity q ->
  (Queue.isFull q = false <-> Queue.enqueue q x = Some (Queue.push q x)).
Proof.
  destruct q as [c s]. cbn [Queue.capacity]. intros Hc.
  rewrite enqueue_run by exact Hc. unfold Queue.isFull, Queue.push, Queue.size, evicted.
  cbn [Queue.capacity Queue.storage]. split.
  - intros H. apply Z.leb_gt in H.
    replace (length s - (Z.to_nat c - 1))%nat with O by lia. reflexivity.
  - intros [= H]. apply app_inv_tail in H. apply Z.leb_gt.
    apply (f_equal length) in H. rewrite length_drop in H. lia.
Qed.

End QueueMore.

Lemma enqueue_restores_bound_witness :
  exists q' kept,
    Queue.enqueue (Queue.mk 2 [1; 2; 3; 4]%nat) 5%nat = Some q'
    /\ Queue.capacity q' = 2
    /\ Queue.getItems q' = kept ++ [5%nat]
    /\ kept `suffix_of` [1; 2; 3; 4]%nat
    /\ length kept = Nat.min 4 (Z.to_nat 2 - 1)
    /\ Queue.size q' <= Queue.capacity q'.
Proof.
  apply (enqueue_restores_bound (Queue.mk 2 [1; 2; 3; 4]%nat) 5%nat). simpl. lia.
Defined.

Lemma enqueue_within_capacity_keeps_all_witness :
  exists q0 q',
    Queue.new 3 = Ok q0
    /\ Queue.enqueue_all q0 [7; 8]%nat = Some q'
    /\ Queue.getItems q' = [7; 8]%nat
    /\ Queue.size q' = 2.
Proof.
  apply (enqueue_within_capacity_keeps_all 3 [7; 8]%nat); simpl; lia.
Defined.

Lemma isFull_iff_enqueue_evicts_witness :
  Queue.isFull (Queue.mk 3 [1; 2]%nat) = false
  <-> Queue.enqueue (Queue.mk 3 [1; 2]%nat) 9%nat
      = Some (Queue.push (Queue.mk 3 [1; 2]%nat) 9%nat).
Proof.
  apply (isFull_iff_enqueue_evicts (Queue.mk 3 [1; 2]%nat) 9%nat). simpl. lia.
Defined.

(** ** Keys and paths: fixed points and resolved segments *)

Section PathSafetyMore.
Import NodePath PathSafety.
Implicit Types (s raw key cwd p : jsstring) (segs : list jsstring).

Lemma clean_not_nul c : clean c -> (c =? NUL)%N = false.
Proof.
  intros (_ & _ & Hc). apply N.eqb_neq. intros ->. discriminate Hc.
Qed.

Lemma sanitize_chain_clean s :
  Forall clean s ->
  replace_control (replace_separators (remove_null_bytes s)) = s.
Proof.
  induction 1 as [|c s Hc _ IH]; [reflexivity|].
  unfold remove_null_bytes. cbn [List.filter]. rewrite (clean_not_nul c Hc). cbn [negb].
  fold (remove_null_bytes s). unfold replace_separators, replace_control in *.
  cbn [map]. destruct Hc as (H1 & H2 & H3).
  apply N.eqb_neq in H1, H2. rewrite H1, H2. cbn [orb]. rewrite H3, IH. reflexivity.
Qed.

Lemma safe_key_fixed key : safe_key key -> sanitizeFilename key = Ok key.
Proof.
  intros (Hne & Hlen & Hclean & Hhead). unfold sanitizeFilename.
  destruct key as [|c key']; [congruence|]. set (key := c :: key') in *.
  rewrite sanitize_chain_clean by exact Hclean.
  assert (Hdots : replace_leading_dots key = key).
  { unfold key, replace_leading_dots. destruct (N.eqb_spec c DOT) as [->|]; [|reflexivity].
    exfalso. apply Hhead. reflexivity. }
  rewrite Hdots. destruct (Nat.ltb_spec 255 (length key)); [lia|].
  destruct (Nat.eqb_spec (length key) 0) as [H0|]; [discriminate H0|reflexivity].
Qed.

Lemma sanitizeFilename_error raw e :
  sanitizeFilename raw = Err e ->
  remove_null_bytes raw = []
  /\ (e = Error_ "Filename must be a non-empty string"
      \/ e = Error_ "Filename cannot be empty after sanitization").
Proof.
  unfold sanitizeFilename. destruct raw as [|c0 raw0]; [intros [= <-]; auto|].
  set (raw := c0 :: raw0). pose proof (sanitize_chain_nil raw) as Hnil.
  set (s := replace_leading_dots _) in *. clearbody s raw.
  destruct (Nat.ltb_spec 255 (length s)) as [Hlong|Hshort].
  - destruct (Nat.eqb_spec (length (take 255 s)) 0) as [H0|]; [|discriminate].
    rewrite length_take in H0. lia.
  - destruct (Nat.eqb_spec (length s) 0) as [H0|]; [|discriminate].
    intros [= <-]. split; [|auto]. apply Hnil. destruct s; [reflexivity|discriminate].
Qed.

(** X5.  The keys [sanitizeFilename] returns unchanged are exactly the safe
    ones: not empty, at most 255 code units, no separator, no control code
    unit, no leading dot.  In particular sanitising twice is sanitising
    once. *)
Theorem sanitizeFilename_fixed_points key :
  (sanitizeFilename key = Ok key <-> safe_key key)
  /\ (forall raw, sanitizeFilename raw = Ok key -> sanitizeFilename key = Ok key).
Proof.
  split; [split; [apply sanitizeFilename_safe|apply safe_key_fixed]|].
  intros raw Hraw. apply safe_key_fixed, (sanitizeFilename_safe raw), Hraw.
Qed.

Lemma glue_app segs1 segs2 :
  segs1 <> [] -> segs2 <> [] -> glue (segs1 ++ segs2) = glue segs1 ++ sep ++ glue segs2.
Proof.
  induction segs1 as [|a segs1 IH]; [congruence|]. intros _ H2.
  destruct segs1 as [|b segs1].
  - cbn [app]. rewrite glue_cons by exact H2. reflexivity.
  - change ((a :: b :: segs1) ++ segs2) with (a :: (b :: segs1) ++ segs2).
    rewrite glue_cons by discriminate. rewrite IH by (discriminate || exact H2).
    rewrite (glue_cons a) by discriminate. rewrite <- !app_assoc. reflexivity.
Qed.

Lemma canonical_plain s : Forall plain (canonical_segments s).
Proof.
  unfold canonical_segments. apply Forall_rev.
  apply fold_keeps_plain; [apply segments_all_sepfree|constructor].
Qed.

Lemma canonical_app_sep a b :
  canonical_segments (a ++ sep ++ b)
  = rev (fold_left (normalize_step false) (segments b) (rev (canonical_segments a))).
Proof.
  unfold canonical_segments. rewrite segments_app_sep, fold_left_app, rev_involutive.
  reflexivity.
Qed.

Lemma canonical_trailing_sep a : canonical_segments (a ++ sep ++ []) = canonical_segments a.
Proof. rewrite canonical_app_sep. cbn. apply rev_involutive. Qed.

Lemma canonical_snoc_plain a seg :
  plain seg -> canonical_segments (a ++ sep ++ seg) = canonical_segments a ++ [seg].
Proof.
  intros Hseg. rewrite canonical_app_sep, segments_sepfree by apply Hseg.
  cbn [fold_left]. rewrite normalize_step_plain by exact Hseg.
  cbn [rev]. rewrite rev_involutive. reflexivity.
Qed.

Lemma plain_data : plain (js "data").
Proof. repeat split; try discriminate. repeat constructor; discriminate. Qed.

(** What [path.resolve] returns on an absolute working directory. *)
Lemma resolve_segments cwd p :
  isAbsolute cwd = true ->
  resolve cwd [p] = sep ++ glue (resolved_segments cwd p).
Proof.
  intros Habs. unfold resolve, resolved_segments. cbn [rev app].
  destruct cwd as [|c0 cwd']; [discriminate|].
  destruct p as [|c p'].
  - cbn [resolve_scan isAbsolute] in *. rewrite Habs. cbn [negb app].
    change (normalizeString (c0 :: cwd' ++ sep ++ []) false)
      with (glue (canonical_segments ((c0 :: cwd') ++ sep ++ []))).
    reflexivity.
  - cbn [resolve_scan]. destruct (isAbsolute (c :: p')) eqn:Ep.
    + cbn [negb].
      change (normalizeString ((c :: p') ++ sep ++ []) false)
        with (glue (canonical_segments ((c :: p') ++ sep ++ []))).
      rewrite canonical_trailing_sep. reflexivity.
    + rewrite Habs. cbn [negb].
      change (normalizeString ((c0 :: cwd') ++ sep ++ (c :: p') ++ sep ++ []) false)
        with (glue (canonical_segments ((c0 :: cwd') ++ sep ++ (c :: p') ++ sep ++ []))).
      rewrite (app_assoc (c0 :: cwd') sep), (app_assoc _ (c :: p')).
      rewrite canonical_trailing_sep, <- app_assoc. reflexivity.
Qed.

Lemma DATA_DIR_segments cwd :
  isAbsolute cwd = true ->
  DATA_DIR cwd = sep ++ glue (canonical_segments cwd ++ [js "data"]).
Proof.
  intros Habs. unfold DATA_DIR, resolve.
  destruct cwd as [|c cwd']; [discriminate|].
  change (js "data") with [100; 97; 116; 97]%N.
  cbn [rev app]. cbn [resolve_scan].
  replace (isAbsolute [100; 97; 116; 97]%N) with false by reflexivity.
  rewrite Habs. cbn [negb].
  change (normalizeString ((c :: cwd') ++ sep ++ [100; 97; 116; 97]%N ++ sep ++ []) false)
    with (glue (canonical_segments
                  ((c :: cwd') ++ sep ++ js "data" ++ sep ++ []))).
  rewrite (app_assoc (c :: cwd') sep), (app_assoc _ (js "data")).
  rewrite canonical_trailing_sep, <- app_assoc.
  rewrite canonical_snoc_plain by apply plain_data. reflexivity.
Qed.

(** X6.  On an absolute working directory a safe key is stored under its own
    name, directly in the data directory, and two safe keys never share a
    path. *)
Theorem safe_keys_have_separate_paths cwd key1 key2 :
  isAbsolute cwd = true -> safe_key key1 -> safe_key key2 ->
  getSafeDataPath cwd key1 = Ok (DATA_DIR cwd ++ sep ++ key1)
  /\ (getSafeDataPath cwd key1 = getSafeDataPath cwd key2 -> key1 = key2).
Proof.
  intros Habs H1 H2.
  pose proof (safe_key_fixed key1 H1) as E1.
  pose proof (safe_key_fixed key2 H2) as E2.
  rewrite (getSafeDataPath_run cwd key1 key1 Habs E1).
  rewrite (getSafeDataPath_run cwd key2 key2 Habs E2).
  split; [reflexivity|]. intros [= H]. apply app_inv_head in H. congruence.
Qed.

(** X7.  On an absolute working directory the containment test of
    [getSafeDataPath] never fires: the call fails only when
    [sanitizeFilename] fails, with that error, and never with the traversal
    error. *)
Theorem getSafeDataPath_fails_only_in_sanitizer cwd raw e :
  isAbsolute cwd = true ->
  getSafeDataPath cwd raw = Err e ->
  sanitizeFilename raw = Err e
  /\ remove_null_bytes raw = []
  /\ e <> Error_ "Security: Path traversal detected.".
Proof.
  intros Habs Herr.
  destruct (sanitizeFilename raw) as [key|e'] eqn:Ekey.
  - rewrite (getSafeDataPath_run cwd raw key Habs Ekey) in Herr. discriminate.
  - assert (e = e') as ->.
    { unfold getSafeDataPath in Herr. rewrite Ekey in Herr. cbn in Herr. congruence. }
    destruct (sanitizeFilename_error raw e' Ekey) as [Hnil [-> | ->]];
      (split; [reflexivity|]; split; [exact Hnil|discriminate]).
Qed.

Lemma startsWith_shorter a b : (length a < length b)%nat -> startsWith a b = false.
Proof.
  revert a. induction b as [|c b IH]; intros a H; [cbn in H; lia|].
  destruct a as [|d a]; [reflexivity|]. cbn in *. rewrite IH by lia. apply andb_false_r.
Qed.

(** X8.  [isPathSafe] decides containment segment by segment: on an absolute
    working directory a path is accepted exactly when, once resolved, its
    segments start with those of the working directory followed by
    ["data"].  So ["data/../x"] and a sibling such as ["data2"] are refused,
    and the data directory itself is accepted. *)
Theorem isPathSafe_iff_below_data_dir cwd p :
  isAbsolute cwd = true ->
  (isPathSafe cwd p = true
   <-> (canonical_segments cwd ++ [js "data"]) `prefix_of` resolved_segments cwd p).
Proof.
  intros Habs. unfold isPathSafe, within_data_dir.
  rewrite (resolve_segments cwd p Habs), (DATA_DIR_segments cwd Habs).
  set (D := canonical_segments cwd ++ [js "data"]).
  set (C := resolved_segments cwd p).
  assert (HD : Forall plain D).
  { apply Forall_app. split; [apply canonical_plain|]. constructor; [apply plain_data|constructor]. }
  assert (HDne : D <> []) by (unfold D; destruct (canonical_segments cwd); discriminate).
  assert (HC : Forall plain C) by apply canonical_plain.
  assert (Hsf : forall segs, Forall plain segs -> Forall sepfree segs).
  { intros segs H. eapply Forall_impl; [exact H|]. intros seg Hp. apply Hp. }
  clearbody D C. split.
  - intros H. apply orb_true_iff in H as [H|H].
    + apply startsWith_prefix in H as [b Hb].
      rewrite <- !app_assoc in Hb. apply app_inv_head in Hb.
      assert (HCne : C <> []).
      { intros ->. cbn in Hb. destruct (glue D); discriminate. }
      apply (f_equal segments) in Hb.
      rewrite segments_app_sep, !segments_glue in Hb by auto.
      exists (segments b). exact Hb.
    + apply str_eqb_eq in H. apply app_inv_head in H.
      assert (HCne : C <> []).
      { intros ->. apply (glue_plain_not_nil D HD HDne). symmetry. exact H. }
      apply (f_equal segments) in H. rewrite !segments_glue in H by auto.
      subst C. reflexivity.
  - intros [R ->]. destruct R as [|r R].
    + rewrite app_nil_r, str_eqb_refl. apply orb_true_r.
    + rewrite glue_app by (assumption || discriminate).
      rewrite !app_assoc. rewrite <- (app_assoc sep (glue D) sep).
      rewrite startsWith_app. reflexivity.
Qed.

Lemma skip_separators_head c r :
  c <> SLASH -> skip_separators (c :: r) = c :: r.
Proof. intros H. cbn. apply N.eqb_neq in H. rewrite H. reflexivity. Qed.

Lemma skip_segment_sepfree s r :
  sepfree s -> skip_segment (s ++ SLASH :: r) = Some r.
Proof.
  induction 1 as [|c s Hc _ IH]; [reflexivity|].
  cbn. apply N.eqb_neq in Hc. rewrite Hc. exact IH.
Qed.

(** X9.  The directory of every path that [getSafeDataPath] hands out is the
    data directory itself, so the [mkdir] of the handlers only ever names
    that one directory. *)
Theorem dirname_of_safe_path cwd raw p :
  isAbsolute cwd = true ->
  getSafeDataPath cwd raw = Ok p ->
  dirname p = DATA_DIR cwd.
Proof.
  intros Habs Hp.
  destruct (sanitizeFilename raw) as [key|e] eqn:Ekey;
    [|unfold getSafeDataPath in Hp; rewrite Ekey in Hp; discriminate].
  pose proof (safe_key_plain key (sanitizeFilename_safe raw key Ekey)) as Hplain.
  rewrite (getSafeDataPath_run cwd raw key Habs Ekey) in Hp. injection Hp as <-.
  destruct (DATA_DIR_rooted cwd Habs) as (segs & Hall & Hne & ->).
  destruct Hplain as (Hsf & Hkne & _).
  unfold dirname. cbn [app sep].
  rewrite !rev_app_distr. cbn [rev app]. rewrite <- !app_assoc. cbn [app].
  destruct (rev key) as [|k rk] eqn:Ek.
  { apply (f_equal (@rev N)) in Ek. rewrite rev_involutive in Ek. cbn in Ek. congruence. }
  assert (Hrk : sepfree (k :: rk)).
  { rewrite <- Ek. apply Forall_rev, Hsf. }
  cbn [app]. rewrite skip_separators_head by (inversion Hrk; assumption).
  change (k :: rk ++ SLASH :: rev (glue segs)) with ((k :: rk) ++ SLASH :: rev (glue segs)).
  rewrite skip_segment_sepfree by exact Hrk.
  rewrite N.eqb_refl. cbn [andb].
  rewrite str_eqb_neq.
  - rewrite rev_involutive. reflexivity.
  - intros E. apply (f_equal (@rev N)) in E. rewrite rev_involutive in E.
    apply (glue_plain_not_nil segs Hall Hne). exact E.
Qed.

End PathSafetyMore.

Lemma safe_keys_have_separate_paths_witness :
  PathSafety.getSafeDataPath app_dir (js "alice-config.json")
  = Ok (PathSafety.DATA_DIR app_dir ++ NodePath.sep ++ js "alice-config.json")
  /\ (PathSafety.getSafeDataPath app_dir (js "alice-config.json")
      = PathSafety.getSafeDataPath app_dir (js "bob-config.json")
      -> js "alice-config.json" = js "bob-config.json").
Proof.
  apply (safe_keys_have_separate_paths app_dir (js "alice-config.json")
           (js "bob-config.json")).
  - reflexivity.
  - apply (sanitizeFilename_safe (js "alice-config.json")). vm_compute. reflexivity.
  - apply (sanitizeFilename_safe (js "bob-config.json")). vm_compute. reflexivity.
Defined.

Lemma getSafeDataPath_fails_only_in_sanitizer_witness :
  PathSafety.sanitizeFilename [NUL]
  = Err (Error_ "Filename cannot be empty after sanitization")
  /\ PathSafety.remove_null_bytes [NUL] = []
  /\ Error_ "Filename cannot be empty after sanitization"
     <> Error_ "Security: Path traversal detected.".
Proof.
  apply (getSafeDataPath_fails_only_in_sanitizer app_dir [NUL]).
  - reflexivity.
  - vm_compute. reflexivity.
Defined.

Lemma isPathSafe_iff_below_data_dir_witness :
  PathSafety.isPathSafe app_dir (js "data/../data2/x") = true
  <-> (canonical_segments app_dir ++ [js "data"])
        `prefix_of` resolved_segments app_dir (js "data/../data2/x").
Proof.
  apply (isPathSafe_iff_below_data_dir app_dir (js "data/../data2/x")). reflexivity.
Defined.

(** Paths that leave the data directory, one that only looks like it, and
    two that stay inside. *)
Example isPathSafe_samples :
  PathSafety.isPathSafe app_dir (js "/app/data/../etc/passwd") = false
  /\ PathSafety.isPathSafe app_dir (js "/app/data2/x.json") = false
  /\ PathSafety.isPathSafe app_dir (js "data/./a//b.json") = true
  /\ PathSafety.isPathSafe app_dir (js "/app/x/../data") = true.
Proof. repeat split; vm_compute; reflexivity. Qed.

Lemma dirname_of_safe_path_witness :
  NodePath.dirname (js "/app/data/__.._etc_passwd") = PathSafety.DATA_DIR app_dir.
Proof.
  apply (dirname_of_safe_path app_dir (js "../../etc/passwd")).
  - reflexivity.
  - vm_compute. reflexivity.
Defined.

(** ** The other validators *)

Section ValidationMore.
Import Validation.
Implicit Types (s input name : jsstring).

Lemma integer_value_of_Z z : integer_value (of_Z z) = Some z.
Proof.
  unfold integer_value, of_Z, inject_Z. cbn [Qnum Qden].
  rewrite Z.mod_1_r, Z.div_1_r. reflexivity.
Qed.

Lemma number_lt_integer q z k :
  Qnum q mod Z.pos (Qden q) = 0 -> z = Qnum q / Z.pos (Qden q) ->
  (number_lt (Finite q) (of_Z k) = (z <? k))
  /\ (number_gt (Finite q) (of_Z k) = (k <? z)).
Proof.
  intros Hmod ->. unfold number_gt, number_lt, of_Z.
  assert (Hnum : Qnum q = Z.pos (Qden q) * (Qnum q / Z.pos (Qden q))).
  { apply Z.div_exact; [lia|exact Hmod]. }
  set (z := Qnum q / Z.pos (Qden q)) in *.
  split.
  - destruct (Qle_bool (inject_Z k) q) eqn:E; cbn [negb].
    + apply Qle_bool_iff in E. unfold Qle, inject_Z in E. cbn [Qnum Qden] in E.
      symmetry. apply Z.ltb_ge. nia.
    + symmetry. apply Z.ltb_lt. destruct (Z.lt_ge_cases z k) as [|Hge]; [assumption|].
      exfalso. assert (Hle : Qle_bool (inject_Z k) q = true); [|congruence].
      apply Qle_bool_iff. unfold Qle, inject_Z. cbn [Qnum Qden]. nia.
  - destruct (Qle_bool q (inject_Z k)) eqn:E; cbn [negb].
    + apply Qle_bool_iff in E. unfold Qle, inject_Z in E. cbn [Qnum Qden] in E.
      symmetry. apply Z.ltb_ge. nia.
    + symmetry. apply Z.ltb_lt. destruct (Z.lt_ge_cases k z) as [|Hge]; [assumption|].
      exfalso. assert (Hle : Qle_bool q (inject_Z k) = true); [|congruence].
      apply Qle_bool_iff. unfold Qle, inject_Z. cbn [Qnum Qden]. nia.
Qed.

(** X10.  [validateCapacity] accepts exactly the integers from 1 to 100 and
    returns them unchanged; [null], NaN, the infinities and every fraction
    are refused.  An accepted capacity is one the [Queue] constructor
    takes. *)
Theorem validateCapacity_accepts_integers_1_to_100 (input : option number) r :
  (validateCapacity input = Ok r
   <-> input = Some r /\ exists z, integer_value r = Some z /\ 1 <= z <= 100)
  /\ (forall z, 1 <= z <= 100 -> validateCapacity (Some (of_Z z)) = Ok (of_Z z))
  /\ (forall z, validateCapacity input = Ok r -> integer_value r = Some z ->
        Queue.new (T:=json) z = Ok (Queue.mk z [])).
Proof.
  assert (Hiff : forall i o, validateCapacity i = Ok o
            <-> i = Some o /\ exists z, integer_value o = Some z /\ 1 <= z <= 100).
  { intros i o. unfold validateCapacity. split.
    - destruct i as [[| |q]|]; try discriminate. cbn [Number_isFinite Number_isInteger negb].
      destruct (Z.eqb_spec (Qnum q mod Z.pos (Qden q)) 0) as [Hmod|]; [|discriminate].
      cbn [negb].
      destruct (number_lt_integer q _ 1 Hmod eq_refl) as [-> _].
      destruct (number_lt_integer q _ 100 Hmod eq_refl) as [_ ->].
      destruct (Z.ltb_spec (Qnum q / Z.pos (Qden q)) 1); [discriminate|].
      destruct (Z.ltb_spec 100 (Qnum q / Z.pos (Qden q))); [discriminate|].
      intros [= <-]. split; [reflexivity|]. eexists. split; [|split; eassumption].
      cbn [integer_value]. rewrite Hmod. reflexivity.
    - intros [-> (z & Hz & Hlo & Hhi)]. destruct o as [| |q]; try discriminate.
      cbn [integer_value] in Hz. cbn [Number_isFinite Number_isInteger negb].
      destruct (Z.eqb_spec (Qnum q mod Z.pos (Qden q)) 0) as [Hmod|]; [|discriminate].
      injection Hz as Hz. cbn [negb].
      destruct (number_lt_integer q z 1 Hmod (eq_sym Hz)) as [-> _].
      destruct (number_lt_integer q z 100 Hmod (eq_sym Hz)) as [_ ->].
      destruct (Z.ltb_spec z 1); [lia|]. destruct (Z.ltb_spec 100 z); [lia|]. reflexivity. }
  split; [apply Hiff|]. split.
  - intros z Hz. apply Hiff. split; [reflexivity|]. exists z.
    split; [apply integer_value_of_Z|exact Hz].
  - intros z Hok Hz. apply Hiff in Hok as [_ (z' & Hz' & Hlo & _)].
    assert (z' = z) as -> by congruence.
    unfold Queue.new. destruct (Z.ltb_spec z 1); [lia|reflexivity].
Qed.

(** X14.  [validateFileSize] refuses a size exactly when [size < 0] or
    [size > max] holds.  Both fail on NaN, so a NaN size is accepted whatever
    the limit; between finite numbers the accepted sizes are those from 0 to
    the limit. *)
Theorem validateFileSize_accepts sizeBytes maxSizeBytes :
  (validateFileSize sizeBytes maxSizeBytes = Ok tt
   <-> number_lt sizeBytes (of_Z 0) = false /\ number_gt sizeBytes maxSizeBytes = false)
  /\ validateFileSize NaN maxSizeBytes = Ok tt
  /\ (forall q m, validateFileSize (Finite q) (Finite m) = Ok tt
                  <-> (inject_Z 0 <= q)%Q /\ (q <= m)%Q)
  /\ (forall m, validateFileSize (Infinity false) (Finite m)
                = Err (ValidationError "File too large")).
Proof.
  assert (Hiff : forall a b, validateFileSize a b = Ok tt
            <-> number_lt a (of_Z 0) = false /\ number_gt a b = false).
  { intros a b. unfold validateFileSize.
    destruct (number_lt a (of_Z 0)); [split; [discriminate|intros [? _]; discriminate]|].
    destruct (number_gt a b); split; try discriminate; auto.
    intros [_ ?]. discriminate. }
  split; [apply Hiff|].
  split; [apply Hiff; split; [reflexivity|destruct maxSizeBytes; reflexivity]|].
  split; [|reflexivity].
  intros q m. rewrite Hiff. unfold number_gt, number_lt, of_Z.
  rewrite !negb_false_iff, !Qle_bool_iff. reflexivity.
Qed.

Lemma includes_single s c :
  includes s [c] = false <-> Forall (fun d => d <> c) s.
Proof.
  induction s as [|d s IH]; [split; [constructor|reflexivity]|].
  cbn [includes startsWith]. rewrite andb_true_r, orb_false_iff, IH, N.eqb_neq.
  split; [intros [H1 H2]; constructor; assumption|inversion 1; auto].
Qed.

Lemma skip_dots_length s : (length (PathSafety.skip_dots s) <= length s)%nat.
Proof.
  induction s as [|c s IH]; [reflexivity|]. cbn.
  destruct (c =? DOT)%N; cbn; lia.
Qed.

Lemma sanitizeFilename_length raw key :
  PathSafety.sanitizeFilename raw = Ok key -> (length key <= length raw)%nat.
Proof.
  unfold PathSafety.sanitizeFilename. destruct raw as [|c0 raw0]; [discriminate|].
  set (raw := c0 :: raw0).
  set (s0 := PathSafety.replace_control (PathSafety.replace_separators
                                           (PathSafety.remove_null_bytes raw))).
  assert (H0 : (length s0 <= length raw)%nat).
  { unfold s0, PathSafety.replace_control, PathSafety.replace_separators.
    rewrite !List.length_map. apply List.filter_length_le. }
  assert (H1 : (length (PathSafety.replace_leading_dots s0) <= length s0)%nat).
  { destruct s0 as [|c s]; [reflexivity|]. unfold PathSafety.replace_leading_dots.
    destruct (N.eqb_spec c DOT) as [->|]; [|reflexivity].
    cbn [PathSafety.skip_dots N.eqb DOT Pos.eqb length].
    pose proof (skip_dots_length s). lia. }
  set (s := PathSafety.replace_leading_dots s0) in *. clearbody s s0 raw.
  destruct (255 <? length s)%nat.
  - destruct (_ =? _)%nat; [discriminate|]. intros [= <-]. rewrite length_take. lia.
  - destruct (_ =? _)%nat; [discriminate|]. intros [= <-]. lia.
Qed.

Lemma is_digit_clean c : is_digit c = true -> clean c /\ c <> DOT.
Proof.
  unfold is_digit. intros H. apply andb_true_iff in H as [H1 H2].
  apply N.leb_le in H1, H2. unfold clean, PathSafety.is_control.
  repeat split; try (intros ->; cbv in H1, H2; congruence).
  destruct (N.leb_spec c 31); [lia|]. destruct (N.leb_spec 127 c); [lia|]. reflexivity.
Qed.

Lemma is_model_char_clean c : is_model_char c = true -> clean c.
Proof.
  unfold is_model_char, is_digit, clean, PathSafety.is_control.
  intros H. repeat split.
  - intros ->. discriminate H.
  - intros ->. discriminate H.
  - repeat (apply orb_true_iff in H as [H|H]);
      repeat match goal with
        | H : (_ && _)%bool = true |- _ => apply andb_true_iff in H as [? ?]
        | H : (_ <=? _)%N = true |- _ => apply N.leb_le in H
        | H : (_ =? _)%N = true |- _ => apply N.eqb_eq in H; subst c
        end; try reflexivity;
      (destruct (N.leb_spec c 31); [lia|]; destruct (N.leb_spec 127 c); [lia|]; reflexivity).
Qed.

Lemma forallb_Forall_clean (f : N -> bool) s :
  (forall c, f c = true -> clean c) -> forallb f s = true -> Forall clean s.
Proof.
  intros Hf H. apply Forall_forall. intros c Hc. apply Hf.
  rewrite forallb_forall in H. apply H. apply list_elem_of_In. exact Hc.
Qed.

Lemma snowflake_safe input : is_snowflake input = true -> safe_key input.
Proof.
  unfold is_snowflake. intros H. apply andb_true_iff in H as [H Hhi].
  apply andb_true_iff in H as [Hdig Hlo]. apply Nat.leb_le in Hlo, Hhi.
  repeat split.
  - intros ->. cbn in Hlo. lia.
  - lia.
  - apply (forallb_Forall_clean is_digit); [intros c Hc; apply is_digit_clean, Hc|exact Hdig].
  - destruct input as [|c s]; [discriminate|]. cbn in Hdig |- *.
    apply andb_true_iff in Hdig as [Hc _]. apply is_digit_clean in Hc as [_ Hc]. congruence.
Qed.

(** X11.  A name that [validateUsername] returns is a safe key of at most 37
    code units, namely the sanitised input; and a safe key of at most 37
    code units without [".."] is returned as it is. *)
Theorem validateUsername_gives_safe_key input name :
  (validateUsername input = Ok name ->
     safe_key name /\ (length name <= length input <= 37)%nat
     /\ PathSafety.sanitizeFilename input = Ok name
     /\ includes input [DOT; DOT] = false /\ sepfree input)
  /\ (safe_key input -> (length input <= 37)%nat -> includes input [DOT; DOT] = false ->
      validateUsername input = Ok input).
Proof.
  unfold validateUsername. split.
  - destruct input as [|c0 input0]; [discriminate|]. set (input := c0 :: input0).
    destruct (Nat.ltb_spec 37 (length input)); [discriminate|].
    destruct (includes input [DOT; DOT]) eqn:E1; [discriminate|].
    destruct (includes input [SLASH]) eqn:E2; [discriminate|].
    destruct (includes input [BACKSLASH]) eqn:E3; [discriminate|]. cbn [orb].
    destruct (PathSafety.sanitizeFilename input) as [key|e] eqn:Ek; [|discriminate].
    intros [= <-]. split; [apply (sanitizeFilename_safe input), Ek|].
    pose proof (sanitizeFilename_length input key Ek).
    split; [lia|]. split; [reflexivity|]. split; [reflexivity|].
    apply includes_single, E2.
  - intros Hsafe Hlen Hdd. pose proof Hsafe as (Hne & _ & Hclean & _).
    destruct input as [|c0 input0]; [congruence|]. set (input := c0 :: input0) in *.
    destruct (Nat.ltb_spec 37 (length input)); [lia|]. rewrite Hdd.
    assert (E2 : includes input [SLASH] = false).
    { apply includes_single. eapply Forall_impl; [exact Hclean|]. intros c Hc. apply Hc. }
    assert (E3 : includes input [BACKSLASH] = false).
    { apply includes_single. eapply Forall_impl; [exact Hclean|]. intros c Hc. apply Hc. }
    rewrite E2, E3. cbn [orb]. rewrite (safe_key_fixed input Hsafe). reflexivity.
Qed.

(** X12.  [validateChannelId] and [validateGuildId] accept the same strings,
    those of 17 to 19 decimal digits, and return them unchanged; every such
    id is a safe key. *)
Theorem snowflake_ids_are_safe_keys input r :
  (validateChannelId input = Ok r <-> r = input /\ is_snowflake input = true)
  /\ (validateGuildId input = Ok r <-> validateChannelId input = Ok r)
  /\ (is_snowflake input = true ->
      safe_key input /\ (17 <= length input <= 19)%nat
      /\ Forall (fun c => is_digit c = true) input).
Proof.
  assert (Hc : validateChannelId input = Ok r <-> r = input /\ is_snowflake input = true).
  { unfold validateChannelId. destruct input as [|c s].
    - split; [discriminate|intros [_ H]; discriminate H].
    - destruct (is_snowflake (c :: s)); cbn [negb]; split;
        [intros [= <-]; auto|intros [-> _]; reflexivity|discriminate|intros [_ H]; discriminate H]. }
  assert (Hg : validateGuildId input = Ok r <-> r = input /\ is_snowflake input = true).
  { unfold validateGuildId. destruct input as [|c s].
    - split; [discriminate|intros [_ H]; discriminate H].
    - destruct (is_snowflake (c :: s)); cbn [negb]; split;
        [intros [= <-]; auto|intros [-> _]; reflexivity|discriminate|intros [_ H]; discriminate H]. }
  split; [exact Hc|]. split; [rewrite Hc, Hg; reflexivity|].
  intros H. split; [apply snowflake_safe, H|].
  unfold is_snowflake in H. apply andb_true_iff in H as [H Hhi].
  apply andb_true_iff in H as [Hdig Hlo]. apply Nat.leb_le in Hlo, Hhi.
  split; [lia|]. apply Forall_forall. intros c Hin.
  rewrite forallb_forall in Hdig. apply Hdig, list_elem_of_In, Hin.
Qed.

(** X13.  [validateModelName] returns its input unchanged, and accepts it
    exactly when it has 1 to 100 code units, all among letters, digits and
    [- _ . :], holds no [".."] and starts with neither a dot nor a dash.
    The tests for ["/"] and ["\"] decide nothing after the character test.
    An accepted name is a safe key. *)
Theorem validateModelName_accepts_iff input r :
  (validateModelName input = Ok r
   <-> r = input
       /\ (1 <= length input <= 100)%nat
       /\ forallb is_model_char input = true
       /\ includes input [DOT; DOT] = false
       /\ head input <> Some DOT /\ head input <> Some 45%N)
  /\ (validateModelName input = Ok r -> safe_key r).
Proof.
  assert (Hsep : forallb is_model_char input = true ->
                 includes input [SLASH] = false /\ includes input [BACKSLASH] = false).
  { intros H. split; apply includes_single, Forall_forall; intros c Hin;
      rewrite forallb_forall in H; specialize (H c (proj1 (list_elem_of_In _ _) Hin));
      intros ->; discriminate H. }
  assert (Hiff : validateModelName input = Ok r
     <-> r = input /\ (1 <= length input <= 100)%nat /\ forallb is_model_char input = true
         /\ includes input [DOT; DOT] = false
         /\ head input <> Some DOT /\ head input <> Some 45%N).
  { unfold validateModelName. destruct input as [|c s].
    - split; [discriminate|]. intros (_ & H & _). cbn in H. lia.
    - set (input := c :: s) in *.
      destruct (Nat.ltb_spec 100 (length input)) as [Hlong|Hlen].
      { split; [discriminate|]. intros (_ & H & _). lia. }
      destruct (forallb is_model_char input) eqn:Echars; cbn [negb];
        [|split; [discriminate|intros (_ & _ & H & _); discriminate H]].
      destruct (Hsep eq_refl) as [-> ->].
      destruct (includes input [DOT; DOT]) eqn:Edd; cbn [orb];
        [split; [discriminate|intros (_ & _ & _ & H & _); discriminate H]|].
      unfold input at 1 2. cbn [startsWith]. rewrite !andb_true_r. cbn [head].
      destruct (N.eqb_spec c DOT) as [->|Hd]; cbn [orb].
      { split; [discriminate|]. intros (_ & _ & _ & _ & H & _). exfalso. apply H. reflexivity. }
      destruct (N.eqb_spec c 45) as [->|Hm].
      { split; [discriminate|]. intros (_ & _ & _ & _ & _ & H). exfalso. apply H. reflexivity. }
      split.
      + intros [= <-]. split; [reflexivity|].
        split; [unfold input in *; cbn [length] in *; lia|].
        split; [reflexivity|]. split; [reflexivity|].
        unfold input. cbn [head]. split; congruence.
      + intros (-> & _). reflexivity. }
  split; [exact Hiff|]. intros H. apply Hiff in H as (-> & [Hlo Hhi] & Hchars & _ & Hd & _).
  repeat split.
  - intros ->. cbn in Hlo. lia.
  - lia.
  - apply (forallb_Forall_clean is_model_char); [apply is_model_char_clean|exact Hchars].
  - exact Hd.
Qed.

End ValidationMore.

Lemma validateCapacity_accepts_integers_1_to_100_witness :
  Validation.validateCapacity (Some (of_Z 10)) = Ok (of_Z 10)
  /\ Queue.new (T:=json) 10 = Ok (Queue.mk 10 []).
Proof.
  split.
  - apply (proj1 (proj2 (validateCapacity_accepts_integers_1_to_100 None NaN)) 10). lia.
  - apply (proj2 (proj2 (validateCapacity_accepts_integers_1_to_100
                           (Some (of_Z 10)) (of_Z 10))) 10);
      reflexivity.
Defined.

(** The rejections the tests of the repository list: zero, a fraction, NaN
    and [null]. *)
Example validateCapacity_rejections :
  is_ok (Validation.validateCapacity (Some (of_Z 0))) = false
  /\ is_ok (Validation.validateCapacity (Some (of_Z 101))) = false
  /\ is_ok (Validation.validateCapacity (Some (Finite (11 # 2)))) = false
  /\ is_ok (Validation.validateCapacity (Some NaN)) = false
  /\ is_ok (Validation.validateCapacity (Some (Infinity false))) = false
  /\ is_ok (Validation.validateCapacity None) = false.
Proof. repeat split; reflexivity. Qed.

Lemma validateUsername_gives_safe_key_witness :
  (safe_key (js "_john") /\ (length (js "_john") <= length (js ".john") <= 37)%nat
   /\ PathSafety.sanitizeFilename (js ".john") = Ok (js "_john")
   /\ Validation.includes (js ".john") [DOT; DOT] = false /\ sepfree (js ".john"))
  /\ Validation.validateUsername (js "alice") = Ok (js "alice").
Proof.
  split.
  - apply (proj1 (validateUsername_gives_safe_key (js ".john") (js "_john"))).
    vm_compute. reflexivity.
  - apply (proj2 (validateUsername_gives_safe_key (js "alice") (js "alice"))).
    + apply (sanitizeFilename_safe (js "alice")). vm_compute. reflexivity.
    + vm_compute. lia.
    + vm_compute. reflexivity.
Defined.

Lemma snowflake_ids_are_safe_keys_witness :
  safe_key (js "123456789012345678")
  /\ (17 <= length (js "123456789012345678") <= 19)%nat
  /\ Forall (fun c => Validation.is_digit c = true) (js "123456789012345678").
Proof.
  apply (proj2 (proj2 (snowflake_ids_are_safe_keys (js "123456789012345678")
                         (js "123456789012345678")))).
  vm_compute. reflexivity.
Defined.

Lemma validateModelName_accepts_iff_witness :
  Validation.validateModelName (js "llama3.2:latest") = Ok (js "llama3.2:latest")
  /\ safe_key (js "llama3.2:latest").
Proof.
  assert (H : Validation.validateModelName (js "llama3.2:latest") = Ok (js "llama3.2:latest")).
  { apply (proj2 (proj1 (validateModelName_accepts_iff (js "llama3.2:latest")
                           (js "llama3.2:latest")))).
    split; [reflexivity|]. split; [vm_compute; lia|].
    split; [vm_compute; reflexivity|]. split; [vm_compute; reflexivity|].
    split; vm_compute; discriminate. }
  split; [exact H|].
  apply (proj2 (validateModelName_accepts_iff (js "llama3.2:latest")
                  (js "llama3.2:latest")) H).
Defined.

(** ** The marker filter of [validateMessageContent] *)

Lemma contains_skip_prefix p0 ptail pre y :
  Forall (fun c => Validation.fold_case c <> Validation.fold_case p0) pre ->
  contains_ci (p0 :: ptail) (pre ++ y) = contains_ci (p0 :: ptail) y.
Proof.
  induction 1 as [|c pre Hc _ IH]; [reflexivity|].
  cbn [app contains_ci Validation.matches_ci].
  apply N.eqb_neq in Hc. rewrite Hc. cbn [andb orb]. exact IH.
Qed.

Section MarkerFilter.
Import Validation.

(** The pattern looked for starts with ["["] and has no other; the
    replacement starts with ["["], has no other, and is not itself a match;
    the pattern replaced is any. *)
Variables (p0 : N) (ptail : jsstring) (r0 : N) (rtail : jsstring) (Q : jsstring).
Hypothesis Hp0 : fold_case p0 = LBRACKET.
Hypothesis Hptail : Forall (fun c => fold_case c <> LBRACKET) ptail.
Hypothesis Hr0 : fold_case r0 = LBRACKET.
Hypothesis Hrtail : Forall (fun c => fold_case c <> LBRACKET) rtail.
Hypothesis Hrepl : forall y, matches_ci (p0 :: ptail) ((r0 :: rtail) ++ y) = false.

Let P := p0 :: ptail.
Let repl := r0 :: rtail.
Let R := replace_all_ci Q repl.

Lemma replace_step c rest :
  R (c :: rest) O
  = if matches_ci Q (c :: rest) then repl ++ R rest (length Q - 1) else c :: R rest O.
Proof using All. reflexivity. Qed.

(** Past its first code unit the pattern cannot run into a replacement. *)
Lemma matches_tail_original q : forall t,
  Forall (fun c => fold_case c <> LBRACKET) q ->
  matches_ci q (R t O) = true -> matches_ci q t = true.
Proof using All.
  induction q as [|p q IH]; intros t Hq; [reflexivity|].
  inversion Hq as [|? ? Hp Hq']; subst.
  destruct t as [|d t]; [discriminate|]. rewrite replace_step.
  destruct (matches_ci Q (d :: t)).
  - cbn [repl app matches_ci]. intros H. apply andb_true_iff in H as [H _].
    apply N.eqb_eq in H. congruence.
  - cbn [matches_ci]. intros H. apply andb_true_iff in H as [H1 H2].
    rewrite H1. cbn [andb]. apply IH; assumption.
Qed.

Lemma matches_head_original s :
  matches_ci P (R s O) = true -> matches_ci P s = true /\ matches_ci Q s = false.
Proof using All.
  destruct s as [|d t]; [discriminate|]. rewrite replace_step.
  destruct (matches_ci Q (d :: t)) eqn:EQ.
  - unfold P, repl. rewrite Hrepl. discriminate.
  - unfold P. cbn [matches_ci]. intros H. apply andb_true_iff in H as [H1 H2].
    rewrite H1. cbn [andb]. split; [|reflexivity].
    apply matches_tail_original; assumption.
Qed.

Lemma contains_past_replacement y : contains_ci P (repl ++ y) = contains_ci P y.
Proof using All.
  unfold repl. cbn [app contains_ci]. fold repl.
  change (r0 :: rtail ++ y) with (repl ++ y). unfold P, repl. rewrite Hrepl. cbn [orb].
  apply contains_skip_prefix. eapply Forall_impl; [exact Hrtail|].
  intros c Hc. cbn beta in Hc. congruence.
Qed.

(** A match left after the replacement was a match before it, at a place
    where the replaced pattern did not match. *)
Lemma contains_after_replace s : forall k,
  contains_ci P (R s k) = true ->
  exists s', s' `suffix_of` s /\ matches_ci P s' = true /\ matches_ci Q s' = false.
Proof using All.
  induction s as [|c rest IH]; intros k; [destruct k; discriminate|].
  destruct k as [|k].
  - rewrite replace_step. destruct (matches_ci Q (c :: rest)) eqn:EQ.
    + rewrite contains_past_replacement. intros H.
      destruct (IH _ H) as (s' & Hs' & HP & HQ). exists s'.
      split; [apply suffix_cons_r, Hs'|auto].
    + intros H. cbn [contains_ci] in H. apply orb_true_iff in H as [H|H].
      * exists (c :: rest). split; [reflexivity|]. apply matches_head_original.
        rewrite replace_step, EQ. exact H.
      * destruct (IH _ H) as (s' & Hs' & HP & HQ). exists s'.
        split; [apply suffix_cons_r, Hs'|auto].
  - intros H. change (R (c :: rest) (S k)) with (R rest k) in H.
    destruct (IH _ H) as (s' & Hs' & HP & HQ). exists s'.
    split; [apply suffix_cons_r, Hs'|auto].
Qed.

End MarkerFilter.

Lemma contains_suffix P s' s :
  s' `suffix_of` s -> Validation.matches_ci P s' = true -> contains_ci P s = true.
Proof.
  intros [pre ->] H. induction pre as [|c pre IH].
  - destruct s'; cbn [app contains_ci]; rewrite H; reflexivity.
  - cbn [app contains_ci]. rewrite IH. apply orb_true_r.
Qed.

(** X15.  Whatever [validateMessageContent] returns holds neither
    ["[SYSTEM]"] nor ["[ADMIN]"], in any mix of upper and lower case: the
    two replacements remove every occurrence and create none. *)
Theorem validateMessageContent_removes_markers input out :
  Validation.validateMessageContent input = Ok out ->
  contains_ci (js "[SYSTEM]") out = false /\ contains_ci (js "[ADMIN]") out = false.
Proof.
  intros Hok.
  assert (Hout : out = Validation.replace_all_ci (js "[ADMIN]") (js "[FILTERED]")
                   (Validation.replace_all_ci (js "[SYSTEM]") (js "[FILTERED]")
                      (Validation.normalize_whitespace input) O) O).
  { revert Hok. unfold Validation.validateMessageContent. destruct input; [discriminate|].
    destruct (_ <? _)%nat; [discriminate|]. destruct (_ =? _)%nat; [discriminate|].
    intros [= <-]. reflexivity. }
  set (mid := Validation.replace_all_ci (js "[SYSTEM]") (js "[FILTERED]")
                (Validation.normalize_whitespace input) O) in *.
  assert (Hfree : forall c, In c (js "SYSTEM]" ++ js "ADMIN]" ++ js "FILTERED]") ->
                            Validation.fold_case c <> LBRACKET).
  { intros c Hc. cbn in Hc.
    repeat (destruct Hc as [<-|Hc]; [discriminate|]). destruct Hc. }
  assert (Htail : forall t, (forall c, In c t -> In c (js "SYSTEM]" ++ js "ADMIN]" ++ js "FILTERED]")) ->
                            Forall (fun c => Validation.fold_case c <> LBRACKET) t).
  { intros t Ht. apply Forall_forall. intros c Hc. apply Hfree, Ht, list_elem_of_In, Hc. }
  assert (HS : contains_ci (js "[SYSTEM]") mid = false).
  { apply not_true_is_false. intros E.
    apply (contains_after_replace 91 (js "SYSTEM]") 91 (js "FILTERED]") (js "[SYSTEM]"))
      in E as (s' & _ & H1 & H2); try reflexivity.
    - change (91%N :: js "SYSTEM]") with (js "[SYSTEM]") in H1. congruence.
    - apply Htail. intros c Hc. apply in_or_app. left. exact Hc.
    - apply Htail. intros c Hc. apply in_or_app. right. apply in_or_app. right. exact Hc. }
  subst out. split.
  - apply not_true_is_false. intros E.
    apply (contains_after_replace 91 (js "SYSTEM]") 91 (js "FILTERED]") (js "[ADMIN]"))
      in E as (s' & Hs' & H1 & _); try reflexivity.
    + change (91%N :: js "SYSTEM]") with (js "[SYSTEM]") in H1.
      rewrite (contains_suffix _ _ _ Hs' H1) in HS. discriminate.
    + apply Htail. intros c Hc. apply in_or_app. left. exact Hc.
    + apply Htail. intros c Hc. apply in_or_app. right. apply in_or_app. right. exact Hc.
  - apply not_true_is_false. intros E.
    apply (contains_after_replace 91 (js "ADMIN]") 91 (js "FILTERED]") (js "[ADMIN]"))
      in E as (s' & _ & H1 & H2); try reflexivity.
    + change (91%N :: js "ADMIN]") with (js "[ADMIN]") in H1. congruence.
    + apply Htail. intros c Hc. apply in_or_app. right. apply in_or_app. left. exact Hc.
    + apply Htail. intros c Hc. apply in_or_app. right. apply in_or_app. right. exact Hc.
Qed.

Lemma validateMessageContent_removes_markers_witness :
  contains_ci (js "[SYSTEM]") (js "a [SYS[FILTERED]TEM] [FILTERED]b") = false
  /\ contains_ci (js "[ADMIN]") (js "a [SYS[FILTERED]TEM] [FILTERED]b") = false.
Proof.
  apply (validateMessageContent_removes_markers (js "a  [SYS[system]TEM] [Admin]b")).
  vm_compute. reflexivity.
Defined.

(** ** The document store: round trips, deletion and failure *)

Section StoreMore.
Import Store.
Variable cwd : jsstring.
Variable isServerConfigurationKey : jsstring -> bool.
Implicit Types (st : fs) (p filename key id name : jsstring) (v : json) (value : scalar).

Ltac clean_literal :=
  apply Forall_forall; intros ? Hc; apply list_elem_of_In in Hc; cbn in Hc;
  repeat (destruct Hc as [<-|Hc]; [repeat split; (discriminate || reflexivity)|]);
  destruct Hc.

Lemma safe_key_app a b :
  safe_key a -> Forall clean b -> (length a + length b <= 255)%nat -> safe_key (a ++ b).
Proof.
  intros (Hne & _ & Hclean & Hhead) Hb Hlen. repeat split.
  - destruct a; [congruence|discriminate].
  - rewrite length_app. exact Hlen.
  - apply Forall_app. split; assumption.
  - destruct a; [congruence|exact Hhead].
Qed.

Lemma safe_path key :
  NodePath.isAbsolute cwd = true -> safe_key key ->
  PathSafety.getSafeDataPath cwd key = Ok (PathSafety.DATA_DIR cwd ++ NodePath.sep ++ key).
Proof.
  intros Habs Hkey. apply getSafeDataPath_run; [exact Habs|apply safe_key_fixed, Hkey].
Qed.

Lemma context_key_safe id :
  Validation.is_snowflake id = true -> safe_key (id ++ js "-context.json").
Proof.
  intros Hid. pose proof (snowflake_safe id Hid) as Hsafe.
  assert (Hlen : (length id <= 19)%nat).
  { unfold Validation.is_snowflake in Hid. apply andb_true_iff in Hid as [_ H].
    apply Nat.leb_le, H. }
  apply safe_key_app; [exact Hsafe|clean_literal|cbn; lia].
Qed.

Lemma user_key_safe id name :
  Validation.is_snowflake id = true -> safe_key name -> (length name <= 37)%nat ->
  safe_key (id ++ js "-" ++ name ++ js ".json").
Proof.
  intros Hid Hname Hlen. pose proof (snowflake_safe id Hid) as Hsafe.
  assert (Hidlen : (length id <= 19)%nat).
  { unfold Validation.is_snowflake in Hid. apply andb_true_iff in Hid as [_ H].
    apply Nat.leb_le, H. }
  apply safe_key_app; [exact Hsafe| |rewrite !length_app; cbn; lia].
  apply Forall_app. split; [clean_literal|].
  apply Forall_app. split; [apply Hname|clean_literal].
Qed.

Lemma validateChannelId_snowflake id :
  Validation.is_snowflake id = true -> Validation.validateChannelId id = Ok id.
Proof.
  intros H. unfold Validation.validateChannelId. rewrite H.
  destruct id; [discriminate H|reflexivity].
Qed.

Lemma validateChannelId_not_snowflake id :
  Validation.is_snowflake id = false ->
  exists msg, Validation.validateChannelId id = Err (ValidationError msg).
Proof.
  intros H. unfold Validation.validateChannelId. rewrite H.
  destruct id; eexists; reflexivity.
Qed.

Lemma snowflake_not_nil id : Validation.is_snowflake id = true -> id <> [].
Proof. intros H ->. discriminate H. Qed.

Lemma channelInfo_shape id name user messages :
  channel_shape (channelInfo id name user messages)
  = negb (str_eqb id []) && negb (str_eqb name []).
Proof.
  unfold channelInfo, channel_shape.
  rewrite lookup_insert_eq.
  rewrite (lookup_insert_ne _ (js "id") (js "name")) by (vm_compute; discriminate).
  rewrite lookup_insert_eq.
  rewrite (lookup_insert_ne _ (js "id") (js "messages")) by (vm_compute; discriminate).
  rewrite (lookup_insert_ne _ (js "name") (js "messages")) by (vm_compute; discriminate).
  rewrite (lookup_insert_ne _ (js "user") (js "messages")) by (vm_compute; discriminate).
  rewrite lookup_insert_eq. cbn [truthy Array_isArray]. rewrite andb_true_r. reflexivity.
Qed.

(** Reading back what a staged write has put at [p]. *)
Lemma read_committed filename p data before st :
  PathSafety.getSafeDataPath cwd filename = Ok p ->
  fst (getChannelInfo cwd filename (committed p data before st))
  = read_outcome channel_shape "Failed to read channel info" (Some data).
Proof.
  intros Hp. rewrite (getChannelInfo_run cwd filename p _ Hp). cbn [fst].
  rewrite (proj1 (committed_lookup p data before st)). reflexivity.
Qed.

(** X16.  What [saveChannelContext] writes, [getChannelInfo] reads back: for
    a channel id of 17 to 19 digits the save succeeds whatever the file held
    before, and reading [<id>-context.json] afterwards returns the saved
    record, unless the channel name is empty, in which case the read throws
    on the record just written. *)
Theorem saveChannelContext_getChannelInfo channelId channelName messages st :
  NodePath.isAbsolute cwd = true ->
  Validation.is_snowflake channelId = true ->
  exists st',
    saveChannelContext cwd channelId channelName messages st = (Ok tt, st')
    /\ fst (getChannelInfo cwd (channelId ++ js "-context.json") st')
       = if str_eqb channelName []
         then Err (Error_ "Failed to read channel info")
         else Ok (Some (channelInfo channelId channelName (js "context") messages)).
Proof.
  intros Habs Hid.
  pose proof (safe_path _ Habs (context_key_safe channelId Hid)) as Hp.
  eexists. split.
  - apply (saveChannelContext_run cwd channelId channelName messages channelId);
      [apply validateChannelId_snowflake, Hid|exact Hp].
  - rewrite (read_committed _ _ _ _ _ Hp). cbn [read_outcome].
    rewrite channelInfo_shape.
    rewrite (str_eqb_neq channelId []) by apply snowflake_not_nil, Hid.
    cbn [negb andb]. destruct (str_eqb channelName []); reflexivity.
Qed.

(** X17.  What [saveChannelInfo] writes for a user is read back under the
    name [<id>-<validated user name>.json], the name the message handler
    asks for, with the raw user name in the record. *)
Theorem saveChannelInfo_getChannelInfo channelId channelName username name messages st :
  NodePath.isAbsolute cwd = true ->
  Validation.is_snowflake channelId = true ->
  Validation.validateUsername username = Ok name ->
  channelName <> [] ->
  exists st',
    saveChannelInfo cwd channelId channelName username messages st = (Ok tt, st')
    /\ fst (getChannelInfo cwd (channelId ++ js "-" ++ name ++ js ".json") st')
       = Ok (Some (channelInfo channelId channelName username messages)).
Proof.
  intros Habs Hid Hname Hch.
  assert (Hkey : safe_key (channelId ++ js "-" ++ name ++ js ".json")).
  { apply user_key_safe; [exact Hid|apply (sanitizeFilename_safe username)|].
    - revert Hname. unfold Validation.validateUsername. destruct username; [discriminate|].
      destruct (_ <? _)%nat; [discriminate|]. destruct (_ || _); [discriminate|].
      destruct (PathSafety.sanitizeFilename _); [congruence|discriminate].
    - revert Hname. unfold Validation.validateUsername.
      destruct username as [|c u]; [discriminate|].
      destruct (Nat.ltb_spec 37 (length (c :: u))); [discriminate|].
      destruct (_ || _); [discriminate|].
      destruct (PathSafety.sanitizeFilename (c :: u)) as [k|] eqn:E; [|discriminate].
      intros [= <-]. pose proof (sanitizeFilename_length _ _ E). lia. }
  pose proof (safe_path _ Habs Hkey) as Hp.
  eexists. split.
  - apply (saveChannelInfo_run cwd channelId channelName username messages channelId name);
      [apply validateChannelId_snowflake, Hid|exact Hname|exact Hp].
  - rewrite (read_committed _ _ _ _ _ Hp). cbn [read_outcome].
    rewrite channelInfo_shape.
    rewrite (str_eqb_neq channelId []) by apply snowflake_not_nil, Hid.
    rewrite (str_eqb_neq channelName []) by exact Hch. reflexivity.
Qed.

Lemma default_config_shape key value :
  config_shape (createDefaultConfig isServerConfigurationKey key value) = true.
Proof.
  unfold createDefaultConfig, config_shape. rewrite lookup_insert_eq.
  rewrite (lookup_insert_ne _ (js "name") (js "options")) by (vm_compute; discriminate).
  rewrite lookup_insert_eq. cbn [truthy].
  destruct (isServerConfigurationKey key); reflexivity.
Qed.

(** X18.  What [openConfig] writes, [getUserConfig] and [getServerConfig]
    read back.  After the call on a key without a file the read returns the
    default document, whose only option is the one just set; after the call
    on a document with a truthy [name] it returns that document with the
    option set.  (A document without a usable [name] is updated all the
    same, and then refused by the read.) *)
Theorem openConfig_getConfig filename key value p st :
  PathSafety.getSafeDataPath cwd filename = Ok p ->
  (files st !! p = None ->
     exists st' opts,
       openConfig cwd isServerConfigurationKey filename key value st = (Ok tt, st')
       /\ fst (getUserConfig cwd filename st')
          = Ok (Some (createDefaultConfig isServerConfigurationKey key value))
       /\ fst (getServerConfig cwd filename st') = fst (getUserConfig cwd filename st')
       /\ get_field (createDefaultConfig isServerConfigurationKey key value) (js "options")
          = Ok (Some (JObject opts))
       /\ opts !! key = Some (scalar_json value))
  /\ (forall fields opts,
       files st !! p = Some (Doc (JObject fields)) ->
       fields !! js "options" = Some (JObject opts) ->
       exists st',
         openConfig cwd isServerConfigurationKey filename key value st = (Ok tt, st')
         /\ fst (getUserConfig cwd filename st')
            = (if truthy (fields !! js "name")
               then Ok (Some (with_option fields opts key value))
               else Err (Error_ "Failed to read user config"))).
Proof.
  intros Hp. split.
  - intros Hnone. eexists _, {[key := scalar_json value]}.
    split; [apply (openConfig_create_run cwd isServerConfigurationKey filename key value p st Hp Hnone)|].
    unfold getUserConfig, getServerConfig.
    rewrite !(readConfig_run cwd _ filename p _ Hp). cbn [fst files].
    rewrite lookup_insert_eq. cbn [read_outcome]. rewrite default_config_shape.
    split; [reflexivity|]. split; [reflexivity|]. split.
    + unfold createDefaultConfig. cbn [get_field].
      rewrite (lookup_insert_ne _ (js "name") (js "options")) by (vm_compute; discriminate).
      rewrite lookup_insert_eq. reflexivity.
    + apply lookup_singleton_eq.
  - intros fields opts Hfile Hopts. eexists.
    split; [apply (openConfig_update_run cwd isServerConfigurationKey filename key value p st fields opts Hp Hfile Hopts)|].
    unfold getUserConfig. rewrite (readConfig_run cwd _ filename p _ Hp). cbn [fst].
    rewrite (proj1 (committed_lookup p _ _ st)). cbn [read_outcome].
    unfold with_option, config_shape.
    rewrite (lookup_insert_ne _ (js "options") (js "name")) by (vm_compute; discriminate).
    rewrite lookup_insert_eq. cbn [truthy]. rewrite andb_true_r. reflexivity.
Qed.

Lemma deleteFile_run failure filename p st :
  PathSafety.getSafeDataPath cwd filename = Ok p ->
  deleteFile cwd failure filename st
  = (Ok (bool_decide (is_Some (files st !! p))), mkFs (delete p (files st)) (calls st)).
Proof.
  intros Hp. unfold deleteFile, io_bind, io_lift, try_catch, unlink, io_ret.
  rewrite Hp. destruct (files st !! p) as [c|] eqn:E.
  - rewrite bool_decide_eq_true_2 by eauto. reflexivity.
  - rewrite bool_decide_eq_false_2 by (intros [? ?]; discriminate).
    cbn [code_is_ENOENT]. rewrite delete_id by exact E. destruct st; reflexivity.
Qed.

(** X19.  [deleteConfig] and [deleteChannelInfo] say whether there was a
    file, never throw for a missing one, remove that file and no other; after
    them a read of the same name returns [null] and a second delete returns
    [false]. *)
Theorem delete_then_read filename p st :
  PathSafety.getSafeDataPath cwd filename = Ok p ->
  exists st',
    deleteConfig cwd filename st = (Ok (bool_decide (is_Some (files st !! p))), st')
    /\ deleteChannelInfo cwd filename st = deleteConfig cwd filename st
    /\ files st' = delete p (files st)
    /\ fst (getUserConfig cwd filename st') = Ok None
    /\ fst (getChannelInfo cwd filename st') = Ok None
    /\ deleteConfig cwd filename st' = (Ok false, st').
Proof.
  intros Hp. unfold deleteConfig, deleteChannelInfo.
  rewrite !(deleteFile_run _ filename p st Hp). eexists. split; [reflexivity|].
  split; [reflexivity|]. split; [reflexivity|].
  unfold getUserConfig. rewrite (readConfig_run cwd _ filename p _ Hp).
  rewrite (getChannelInfo_run cwd filename p _ Hp). cbn [fst files].
  rewrite lookup_delete_eq. split; [reflexivity|]. split; [reflexivity|].
  rewrite (deleteFile_run _ filename p _ Hp). cbn [files calls].
  rewrite lookup_delete_eq, delete_delete_eq.
  rewrite bool_decide_eq_false_2 by (intros [? ?]; discriminate). reflexivity.
Qed.

Lemma user_file_parts channelId username p :
  user_file cwd channelId username = Ok p ->
  exists id name,
    Validation.validateChannelId channelId = Ok id
    /\ Validation.validateUsername username = Ok name
    /\ PathSafety.getSafeDataPath cwd (id ++ js "-" ++ name ++ js ".json") = Ok p.
Proof.
  unfold user_file.
  destruct (Validation.validateChannelId channelId) as [id|]; [|discriminate].
  destruct (Validation.validateUsername username) as [name|]; [|discriminate].
  cbn [bind]. eauto.
Qed.

Lemma checkChannelInfoExists_run channelId username st :
  checkChannelInfoExists cwd channelId username st
  = (Ok (match user_file cwd channelId username with
         | Ok p => bool_decide (is_Some (files st !! p))
         | Err _ => false
         end), st).
Proof.
  unfold checkChannelInfoExists, user_file, try_catch, io_bind, io_lift, io_ret, access.
  destruct (Validation.validateChannelId channelId) as [id|]; [|reflexivity].
  destruct (Validation.validateUsername username) as [name|]; [|reflexivity].
  cbn [bind]. destruct (PathSafety.getSafeDataPath cwd _) as [p|]; [|reflexivity].
  destruct (files st !! p) eqn:E.
  - rewrite bool_decide_eq_true_2 by eauto. reflexivity.
  - rewrite bool_decide_eq_false_2 by (intros [? ?]; discriminate). reflexivity.
Qed.

(** X20.  [checkChannelInfoExists] never throws and changes nothing: it
    answers [true] exactly when the channel id and the user name pass their
    validators and the file named after them is there, and [false] in every
    other case, a refused name included. *)
Theorem checkChannelInfoExists_never_throws channelId username st :
  exists b,
    checkChannelInfoExists cwd channelId username st = (Ok b, st)
    /\ (b = true <-> exists p, user_file cwd channelId username = Ok p
                              /\ is_Some (files st !! p)).
Proof.
  rewrite checkChannelInfoExists_run. eexists. split; [reflexivity|].
  destruct (user_file cwd channelId username) as [p|e].
  - rewrite bool_decide_eq_true. split; [eauto|intros (q & [= <-] & H); exact H].
  - split; [discriminate|intros (q & H & _); discriminate H].
Qed.

Lemma clearChannelInfo_unfold channelId username p st :
  user_file cwd channelId username = Ok p ->
  clearChannelInfo cwd channelId username st
  = if bool_decide (is_Some (files st !! p)) then
      try_catch
        (let! data := readFile p in
         let! channelInfo := io_lift (JSON_parse data) in
         let! messages := io_lift (get_field channelInfo (js "messages")) in
         if negb (truthy messages) || length_is_zero messages then io_ret false
         else
           let! channelInfo := io_lift (clear_messages channelInfo) in
           do! writeFile (tmp_of p) (JSON_stringify channelInfo) in
           do! rename (tmp_of p) p in
           io_ret true)
        (fun error => io_throw (Error_ "Failed to clear channel history")) st
    else (Ok false, st).
Proof.
  intros Hfile. unfold clearChannelInfo. unfold io_bind at 1.
  rewrite checkChannelInfoExists_run, Hfile.
  destruct (user_file_parts _ _ _ Hfile) as (id & name & Hid & Hname & Hp).
  destruct (bool_decide (is_Some (files st !! p))); [|reflexivity]. cbn [negb].
  unfold io_lift. unfold io_bind at 1. rewrite Hid. unfold io_bind at 1. rewrite Hname.
  unfold io_bind at 1. rewrite Hp. reflexivity.
Qed.

(** X21.  [clearChannelInfo] on the file of a channel and a user: with no
    file it returns [false] and does nothing; with a history that holds
    messages it returns [true] and rewrites the file, through its [.tmp]
    sibling, with an empty [messages] and every other field kept; with an
    already empty history it returns [false] and writes nothing.  So a
    second call after a successful one returns [false]. *)
Theorem clearChannelInfo_behaviour channelId username p st :
  user_file cwd channelId username = Ok p ->
  (files st !! p = None -> clearChannelInfo cwd channelId username st = (Ok false, st))
  /\ (forall fields,
       files st !! p = Some (Doc (JObject fields)) ->
       fields !! js "messages" = Some (JArray []) ->
       clearChannelInfo cwd channelId username st = (Ok false, called (ReadFile p) st))
  /\ (forall fields m ms,
       files st !! p = Some (Doc (JObject fields)) ->
       fields !! js "messages" = Some (JArray (m :: ms)) ->
       exists st',
         clearChannelInfo cwd channelId username st = (Ok true, st')
         /\ st' = committed p (Doc (JObject (<[js "messages" := JArray []]> fields)))
                    [ReadFile p] st
         /\ (forall q, q <> p -> q <> tmp_of p -> files st' !! q = files st !! q)
         /\ fst (clearChannelInfo cwd channelId username st') = Ok false
         /\ files (snd (clearChannelInfo cwd channelId username st')) = files st').
Proof.
  intros Hfile.
  assert (Hempty : forall st0 fields,
            files st0 !! p = Some (Doc (JObject fields)) ->
            fields !! js "messages" = Some (JArray []) ->
            clearChannelInfo cwd channelId username st0 = (Ok false, called (ReadFile p) st0)).
  { intros st0 fields Hdoc Hm. rewrite (clearChannelInfo_unfold _ _ p st0 Hfile).
    rewrite bool_decide_eq_true_2 by (rewrite Hdoc; eauto).
    unfold try_catch, io_bind, io_lift, readFile. rewrite Hdoc.
    cbn [JSON_parse get_field]. rewrite Hm. reflexivity. }
  split; [|split].
  - intros Hnone. rewrite (clearChannelInfo_unfold _ _ p st Hfile).
    rewrite bool_decide_eq_false_2 by (rewrite Hnone; intros [? ?]; discriminate).
    reflexivity.
  - apply Hempty.
  - intros fields m ms Hdoc Hm.
    assert (Hrun : clearChannelInfo cwd channelId username st
                   = (Ok true, committed p (Doc (JObject (<[js "messages" := JArray []]> fields)))
                                 [ReadFile p] st)).
    { rewrite (clearChannelInfo_unfold _ _ p st Hfile).
      rewrite bool_decide_eq_true_2 by (rewrite Hdoc; eauto).
      unfold try_catch. unfold io_bind at 1. unfold readFile at 1. rewrite Hdoc.
      unfold io_lift. unfold io_bind at 1. cbn [JSON_parse].
      unfold io_bind at 1. cbn [get_field]. rewrite Hm.
      cbn [truthy negb length_is_zero length Nat.eqb orb].
      unfold io_bind at 1. cbn [clear_messages]. unfold JSON_stringify.
      unfold io_bind at 1. unfold writeFile at 1.
      unfold io_bind at 1. unfold rename at 1. cbn [files calls].
      rewrite lookup_insert_eq. unfold io_ret, committed, called. cbn [files calls].
      rewrite <- !app_assoc. reflexivity. }
    eexists. split; [exact Hrun|]. split; [reflexivity|].
    pose proof (committed_lookup p (Doc (JObject (<[js "messages" := JArray []]> fields)))
                  [ReadFile p] st) as (Hat & _ & Hother).
    split; [exact Hother|].
    rewrite (Hempty _ _ Hat (lookup_insert_eq _ _ _)). split; reflexivity.
Qed.

(** X22.  The deprecated [addToChannelContext] and [openChannelInfo] pass
    their file name on as a channel id.  Called with anything but 17 to 19
    digits, and so with every name that ends in [".json"], they throw a
    validation error and touch nothing. *)
Theorem deprecated_wrappers_refuse_filenames filename channelName user messages st :
  (forall base, Validation.is_snowflake (base ++ js ".json") = false)
  /\ (Validation.is_snowflake filename = false ->
      exists msg,
        addToChannelContext cwd filename channelName messages st
        = (Err (ValidationError msg), st)
        /\ openChannelInfo cwd filename channelName user messages st
           = (Err (ValidationError msg), st)).
Proof.
  split.
  - intros base. unfold Validation.is_snowflake. rewrite forallb_app.
    replace (forallb Validation.is_digit (js ".json")) with false by reflexivity.
    rewrite andb_false_r. reflexivity.
  - intros H. destruct (validateChannelId_not_snowflake filename H) as [msg Hmsg].
    exists msg. unfold addToChannelContext, openChannelInfo, saveChannelContext,
      saveChannelInfo, io_bind, io_lift.
    rewrite Hmsg. split; reflexivity.
Qed.

(** X23.  [openConfig] does not repair a damaged file.  When the file is
    there but blank, not JSON, or JSON that is [null], a boolean, a number
    or a string, the call throws after its read and leaves every file as it
    was; it does not fall back to writing a default document. *)
Theorem openConfig_keeps_damaged_file filename key value p c st :
  PathSafety.getSafeDataPath cwd filename = Ok p ->
  files st !! p = Some c ->
  not_an_object c = true ->
  openConfig cwd isServerConfigurationKey filename key value st
  = (Err (Error_ "Failed to update config"), called (ReadFile p) st).
Proof.
  intros Hp Hfile Hc.
  unfold openConfig, withLock, try_catch, io_lift. unfold io_bind at 1. rewrite Hp.
  unfold io_bind at 1. unfold readFile at 1. rewrite Hfile.
  destruct c as [| |[| | | | |]]; try discriminate Hc; reflexivity.
Qed.

End StoreMore.

(** *** The further store properties on concrete files *)

Lemma saveChannelContext_getChannelInfo_witness :
  let id := js "12345678901234567" in
  exists st',
    Store.saveChannelContext app_dir id (js "general") [JString (js "hi")] (mkFs ∅ [])
    = (Ok tt, st')
    /\ fst (Store.getChannelInfo app_dir (id ++ js "-context.json") st')
       = Ok (Some (Store.channelInfo id (js "general") (js "context") [JString (js "hi")])).
Proof.
  cbv zeta.
  apply (saveChannelContext_getChannelInfo app_dir (js "12345678901234567") (js "general")
           [JString (js "hi")] (mkFs ∅ [])).
  - vm_compute. reflexivity.
  - vm_compute. reflexivity.
Defined.

(** The user name [".alice"] is stored under ["_alice"] and kept as it is in
    the record. *)
Lemma saveChannelInfo_getChannelInfo_witness :
  let id := js "12345678901234567" in
  exists st',
    Store.saveChannelInfo app_dir id (js "general") (js ".alice") [] (mkFs ∅ []) = (Ok tt, st')
    /\ fst (Store.getChannelInfo app_dir (id ++ js "-" ++ js "_alice" ++ js ".json") st')
       = Ok (Some (Store.channelInfo id (js "general") (js ".alice") [])).
Proof.
  cbv zeta.
  apply (saveChannelInfo_getChannelInfo app_dir (js "12345678901234567") (js "general")
           (js ".alice") (js "_alice") [] (mkFs ∅ [])).
  - vm_compute. reflexivity.
  - vm_compute. reflexivity.
  - vm_compute. reflexivity.
  - discriminate.
Defined.

Lemma delete_then_read_witness :
  let st := mkFs {[alice_config := alice_default]} [] in
  exists st',
    Store.deleteConfig app_dir (js "alice-config.json") st
    = (Ok (bool_decide (is_Some (files st !! alice_config))), st')
    /\ Store.deleteChannelInfo app_dir (js "alice-config.json") st
       = Store.deleteConfig app_dir (js "alice-config.json") st
    /\ files st' = delete alice_config (files st)
    /\ fst (Store.getUserConfig app_dir (js "alice-config.json") st') = Ok None
    /\ fst (Store.getChannelInfo app_dir (js "alice-config.json") st') = Ok None
    /\ Store.deleteConfig app_dir (js "alice-config.json") st' = (Ok false, st').
Proof.
  cbv zeta.
  apply (delete_then_read app_dir (js "alice-config.json") alice_config).
  vm_compute. reflexivity.
Defined.

(** A blank configuration file stays blank. *)
Lemma openConfig_keeps_damaged_file_witness :
  let st := mkFs {[alice_config := Blank]} [] in
  Store.openConfig app_dir toggle_chat_key (js "alice-config.json")
    (js "switch-model") (SString (js "llama3.2")) st
  = (Err (Error_ "Failed to update config"), called (ReadFile alice_config) st).
Proof.
  cbv zeta.
  apply (openConfig_keeps_damaged_file app_dir toggle_chat_key (js "alice-config.json")
           (js "switch-model") (SString (js "llama3.2")) alice_config Blank).
  - vm_compute. reflexivity.
  - reflexivity.
  - reflexivity.
Defined.

(** The names the deprecated wrappers were written for. *)
Lemma deprecated_wrappers_refuse_filenames_witness :
  exists msg,
    Store.addToChannelContext app_dir (js "123-context.json") (js "general") [] (mkFs ∅ [])
    = (Err (ValidationError msg), mkFs ∅ [])
    /\ Store.openChannelInfo app_dir (js "123-context.json") (js "general") (js "alice") []
         (mkFs ∅ [])
       = (Err (ValidationError msg), mkFs ∅ []).
Proof.
  apply (deprecated_wrappers_refuse_filenames app_dir (js "123-context.json") (js "general")
           (js "alice") [] (mkFs ∅ [])).
  reflexivity.
Defined.

(** [openConfig] on no file at all, read back. *)
Lemma openConfig_getConfig_witness :
  let value := SString (js "llama3.2") in
  exists st' opts,
    Store.openConfig app_dir toggle_chat_key (js "alice-config.json") (js "switch-model")
      value (mkFs ∅ []) = (Ok tt, st')
    /\ fst (Store.getUserConfig app_dir (js "alice-config.json") st')
       = Ok (Some (Store.createDefaultConfig toggle_chat_key (js "switch-model") value))
    /\ fst (Store.getServerConfig app_dir (js "alice-config.json") st')
       = fst (Store.getUserConfig app_dir (js "alice-config.json") st')
    /\ get_field (Store.createDefaultConfig toggle_chat_key (js "switch-model") value)
         (js "options") = Ok (Some (JObject opts))
    /\ opts !! js "switch-model" = Some (scalar_json value).
Proof.
  cbv zeta.
  apply (proj1 (openConfig_getConfig app_dir toggle_chat_key (js "alice-config.json")
                  (js "switch-model") (SString (js "llama3.2")) alice_config (mkFs ∅ [])
                  eq_refl)).
  reflexivity.
Defined.

(** A history of one message, cleared. *)
Lemma clearChannelInfo_behaviour_witness :
  let id := js "12345678901234567" in
  let p := js "/app/data/12345678901234567-alice.json" in
  let fields : gmap jsstring json :=
    {[js "id" := JString id; js "messages" := JArray [JString (js "hi")]]} in
  let st := mkFs {[p := Doc (JObject fields)]} [] in
  exists st',
    Store.clearChannelInfo app_dir id (js "alice") st = (Ok true, st')
    /\ st' = committed p (Doc (JObject (<[js "messages" := JArray []]> fields)))
               [ReadFile p] st
    /\ (forall q, q <> p -> q <> tmp_of p -> files st' !! q = files st !! q)
    /\ fst (Store.clearChannelInfo app_dir id (js "alice") st') = Ok false
    /\ files (snd (Store.clearChannelInfo app_dir id (js "alice") st')) = files st'.
Proof.
  cbv zeta.
  apply (proj2 (proj2 (clearChannelInfo_behaviour app_dir (js "12345678901234567")
                         (js "alice") (js "/app/data/12345678901234567-alice.json")
                         _ eq_refl))
           _ (JString (js "hi")) []).
  - vm_compute. reflexivity.
  - vm_compute. reflexivity.
Defined.


(** ** The histories of a message *)

Section MessageCreateFacts.
Import Store MessageCreate.
Variable cwd : jsstring.
Variable normalMessage : list json -> result jsstring.
Implicit Types (st : fs) (p channelId channelName tag name : jsstring)
  (chat prev : list json) (c : Z).

Lemma drain_run c (s : list json) :
  1 <= c -> drain (Queue.mk c s) = Some (Queue.mk c (drop (evicted c s) s)).
Proof.
  intros Hc. unfold drain. cbn [Queue.storage].
  rewrite evict_run by (pose proof (evicted_le c s); lia). reflexivity.
Qed.

Lemma drained_enqueue c (s : list json) x :
  1 <= c ->
  Queue.enqueue (Queue.mk c (drop (evicted c s) s)) x
  = Some (Queue.mk c (lastn (Z.to_nat c) (s ++ [x]))).
Proof.
  intros Hc. rewrite enqueue_run by exact Hc. do 2 f_equal.
  unfold evicted, lastn. rewrite length_drop, length_app. cbn [length].
  replace (length s - (length s - (Z.to_nat c - 1)) - (Z.to_nat c - 1))%nat with O by lia.
  rewrite drop_0.
  replace (length s + 1 - Z.to_nat c)%nat with (length s - (Z.to_nat c - 1))%nat by lia.
  rewrite drop_app_le by lia. reflexivity.
Qed.

(** The loop of the handler followed by [enqueue]. *)
Lemma drain_enqueue c (s : list json) x :
  1 <= c ->
  exists q, drain (Queue.mk c s) = Some q
    /\ Queue.enqueue q x = Some (Queue.mk c (lastn (Z.to_nat c) (s ++ [x])))
    /\ q = Queue.mk c (drop (evicted c s) s).
Proof.
  intros Hc. eexists. split; [apply drain_run, Hc|].
  split; [apply drained_enqueue, Hc|reflexivity].
Qed.

Lemma validated_user_key username name :
  Validation.validateUsername username = Ok name ->
  safe_key name /\ (length name <= 37)%nat.
Proof.
  unfold Validation.validateUsername.
  destruct username as [|ch u]; [discriminate|].
  destruct (Nat.ltb_spec 37 (length (ch :: u))); [discriminate|].
  destruct (_ || _); [discriminate|].
  destruct (PathSafety.sanitizeFilename (ch :: u)) as [k|] eqn:E; [|discriminate].
  intros [= <-]. split; [apply (sanitizeFilename_safe (ch :: u)), E|].
  pose proof (sanitizeFilename_length _ _ E). lia.
Qed.

Lemma user_path channelId name :
  NodePath.isAbsolute cwd = true ->
  Validation.is_snowflake channelId = true ->
  safe_key name -> (length name <= 37)%nat ->
  PathSafety.getSafeDataPath cwd (channelId ++ js "-" ++ name ++ js ".json")
  = Ok (history_file cwd channelId name).
Proof.
  intros Habs Hid Hname Hlen. apply safe_path; [exact Habs|].
  apply user_key_safe; assumption.
Qed.

Lemma history_file_inj channelId name1 name2 :
  history_file cwd channelId name1 = history_file cwd channelId name2 -> name1 = name2.
Proof.
  unfold history_file. intros E.
  do 4 apply app_inv_head in E. apply app_inv_tail in E. exact E.
Qed.

Lemma history_file_not_tmp channelId name1 name2 :
  history_file cwd channelId name1 <> tmp_of (history_file cwd channelId name2).
Proof.
  unfold history_file, tmp_of. intros E.
  apply (f_equal (@last N)) in E.
  rewrite !app_assoc in E.
  rewrite (last_app_ne (js ".json")) in E by discriminate.
  rewrite (last_app_ne (js ".tmp")) in E by discriminate.
  discriminate E.
Qed.

(** X24.  The history of a user who has none yet is made under the name
    that [validateUsername] gives for [message.author.tag] and read back
    under the one it gives for [message.author.username].  Where the two
    agree the handler goes on with the new, empty record; where they differ
    it throws, whatever the file system held, and leaves the new file
    behind. *)
Theorem chatHistory_created_under_tag channelId channelName username tag name tname st :
  NodePath.isAbsolute cwd = true ->
  Validation.is_snowflake channelId = true ->
  channelName <> [] ->
  Validation.validateUsername username = Ok name ->
  Validation.validateUsername tag = Ok tname ->
  files st !! history_file cwd channelId name = None ->
  fst (chatHistory cwd channelId channelName name tag st)
  = (if str_eqb tname name
     then Ok (channelInfo channelId channelName tag [])
     else Err (Error_ "Failed to create chat history"))
  /\ files (snd (chatHistory cwd channelId channelName name tag st))
       !! history_file cwd channelId tname
     = Some (Doc (channelInfo channelId channelName tag [])).
Proof.
  intros Habs Hid Hch Hname Htag Hnone.
  destruct (validated_user_key _ _ Hname) as [Hsafe Hlen].
  destruct (validated_user_key _ _ Htag) as [Htsafe Htlen].
  pose proof (user_path channelId name Habs Hid Hsafe Hlen) as Hp.
  pose proof (user_path channelId tname Habs Hid Htsafe Htlen) as Hq.
  set (data := Doc (channelInfo channelId channelName tag [])).
  set (before := [Mkdir (NodePath.dirname (history_file cwd channelId tname))]).
  set (st1 := committed (history_file cwd channelId tname) data before
                (called (ReadFile (history_file cwd channelId name)) st)).
  assert (Hrun : chatHistory cwd channelId channelName name tag st
                 = (match read_outcome channel_shape "Failed to read channel info"
                            (files st1 !! history_file cwd channelId name) with
                    | Ok (Some info) => Ok info
                    | Ok None => Err (Error_ "Failed to create chat history")
                    | Err e => Err e
                    end,
                    called (ReadFile (history_file cwd channelId name)) st1)).
  { unfold chatHistory. unfold io_bind at 1.
    rewrite (getChannelInfo_run cwd _ _ st Hp), Hnone. cbn [read_outcome].
    unfold io_bind at 1.
    rewrite (saveChannelInfo_run cwd channelId channelName tag [] channelId tname _ _
               (validateChannelId_snowflake _ Hid) Htag Hq).
    fold data before st1. unfold io_bind. rewrite (getChannelInfo_run cwd _ _ _ Hp).
    destruct (read_outcome _ _ _) as [[info|]|e]; reflexivity. }
  rewrite Hrun. cbn [fst snd called files].
  pose proof (committed_lookup (history_file cwd channelId tname) data before
                (called (ReadFile (history_file cwd channelId name)) st))
    as (Hat & _ & Hother).
  fold st1 in Hat, Hother.
  destruct (str_eqb tname name) eqn:E.
  - apply str_eqb_eq in E. subst tname. rewrite Hat. cbn [read_outcome]. unfold data.
    rewrite channelInfo_shape.
    rewrite (str_eqb_neq channelId []) by apply snowflake_not_nil, Hid.
    rewrite (str_eqb_neq channelName []) by exact Hch.
    cbn [negb andb]. split; reflexivity.
  - assert (Hne : name <> tname) by (intros ->; rewrite str_eqb_refl in E; discriminate).
    rewrite Hother; [|intros H; apply Hne, (history_file_inj channelId), H
                     |apply history_file_not_tmp].
    cbn [called files]. rewrite Hnone. cbn [read_outcome].
    split; [reflexivity|exact Hat].
Qed.







End MessageCreateFacts.

(** *** The histories on concrete messages *)

(** An author whose tag carries a discriminator: the history is made under
    ["alice#1234"] and looked for under ["alice"]. *)
Lemma chatHistory_created_under_tag_witness :
  let id := js "12345678901234567" in
  let run := MessageCreate.chatHistory app_dir id (js "general") (js "alice")
               (js "alice#1234") (mkFs ∅ []) in
  fst run = Err (Error_ "Failed to create chat history")
  /\ files (snd run) !! history_file app_dir id (js "alice#1234")
     = Some (Doc (Store.channelInfo id (js "general") (js "alice#1234") [])).
Proof.
  cbv zeta.
  apply (chatHistory_created_under_tag app_dir (js "12345678901234567") (js "general")
           (js "alice") (js "alice#1234") (js "alice") (js "alice#1234") (mkFs ∅ [])).
  - vm_compute. reflexivity.
  - vm_compute. reflexivity.
  - discriminate.
  - vm_compute. reflexivity.
  - vm_compute. reflexivity.
  - reflexivity.
Defined.





(** ** Deleting a thread *)

Section ThreadDeleteFacts.
Import ThreadDelete.
Variable cwd : jsstring.
Implicit Types (st : fs) (p q file key threadId : jsstring).

Lemma discard_run file st :
  discard cwd file st
  = (Ok tt,
     mkFs (match PathSafety.getSafeDataPath cwd file with
           | Ok p => delete p (files st)
           | Err _ => files st
           end) (calls st)).
Proof.
  unfold discard, try_catch, io_bind, io_lift, unlink, io_ret.
  destruct (PathSafety.getSafeDataPath cwd file) as [p|e]; [|destruct st; reflexivity].
  destruct (files st !! p) eqn:E; [reflexivity|].
  rewrite (delete_id _ _ E). destruct st; reflexivity.
Qed.

(** What a run of deletions leaves of the file at [q]. *)
Lemma discard_all_run q : forall l st,
  fst (discard_all cwd l st) = Ok tt
  /\ ((exists file, file ∈ l /\ PathSafety.getSafeDataPath cwd file = Ok q) ->
      files (snd (discard_all cwd l st)) !! q = None)
  /\ (files (snd (discard_all cwd l st)) !! q = files st !! q
      \/ (files (snd (discard_all cwd l st)) !! q = None
          /\ exists file, file ∈ l /\ PathSafety.getSafeDataPath cwd file = Ok q)).
Proof.
  induction l as [|file rest IH]; intros st.
  - cbn. split; [reflexivity|]. split; [|left; reflexivity].
    intros (file & Hin & _). apply elem_of_nil in Hin as [].
  - cbn [discard_all]. unfold io_bind. rewrite discard_run.
    set (st1 := mkFs _ _). destruct (IH st1) as (Hok & Hgone & Hkept).
    split; [exact Hok|]. split.
    + intros (f & Hin & Hf). apply elem_of_cons in Hin as [->|Hin].
      * destruct Hkept as [Hsame|[Hnone _]]; [|exact Hnone].
        rewrite Hsame. unfold st1. cbn [files]. rewrite Hf. apply lookup_delete_eq.
      * apply Hgone. eauto.
    + destruct Hkept as [Hsame|[Hnone (f & Hin & Hf)]].
      * rewrite Hsame. unfold st1. cbn [files].
        destruct (PathSafety.getSafeDataPath cwd file) as [p|e] eqn:E; [|left; reflexivity].
        destruct (decide (p = q)) as [->|Hne].
        -- right. split; [apply lookup_delete_eq|]. exists file. split; [left|exact E].
        -- left. apply lookup_delete_ne. exact Hne.
      * right. split; [exact Hnone|]. exists f. split; [right; exact Hin|exact Hf].
Qed.

Lemma entry_of_key key :
  safe_key key ->
  entry (PathSafety.DATA_DIR cwd) (PathSafety.DATA_DIR cwd ++ NodePath.sep ++ key)
  = Some key.
Proof.
  intros (Hne & _ & Hclean & _). unfold entry.
  rewrite app_assoc, startsWith_app, drop_app_length.
  rewrite (str_eqb_neq key []) by exact Hne.
  replace (forallb _ key) with true; [reflexivity|].
  symmetry. apply forallb_forall. intros c Hc.
  rewrite Forall_forall in Hclean. apply list_elem_of_In in Hc.
  destruct (Hclean c Hc) as (Hslash & _). apply negb_true_iff, N.eqb_neq, Hslash.
Qed.

(** Sanitising keeps a leading thread id and its dash. *)
Lemma sanitizeFilename_keeps_thread_prefix threadId rest key :
  Validation.is_snowflake threadId = true ->
  PathSafety.sanitizeFilename ((threadId ++ js "-") ++ rest) = Ok key ->
  startsWith key (threadId ++ js "-") = true.
Proof.
  intros Hid. set (pre := threadId ++ js "-").
  assert (Hdigits : Forall (fun c => Validation.is_digit c = true) threadId).
  { unfold Validation.is_snowflake in Hid. apply andb_true_iff in Hid as [Hid _].
    apply andb_true_iff in Hid as [Hd _]. apply Forall_forall. intros c Hc.
    apply list_elem_of_In in Hc. revert c Hc. apply forallb_forall, Hd. }
  assert (Hpre : Forall (fun c => clean c /\ c <> NUL) pre).
  { apply Forall_app. split.
    - eapply Forall_impl; [exact Hdigits|]. intros c Hc. cbv beta in Hc.
      split; [apply is_digit_clean, Hc|].
      unfold Validation.is_digit in Hc. apply andb_true_iff in Hc as [Hc _].
      apply N.leb_le in Hc. unfold NUL. lia.
    - repeat constructor; discriminate. }
  assert (Hlen : (length pre <= 20)%nat).
  { unfold pre. rewrite length_app. cbn [length js].
    unfold Validation.is_snowflake in Hid. apply andb_true_iff in Hid as [_ Hid].
    apply Nat.leb_le in Hid. cbn. lia. }
  assert (Hhead : exists d tail, pre = d :: tail /\ d <> DOT).
  { destruct threadId as [|d tail]; [discriminate Hid|]. exists d, (tail ++ js "-").
    split; [reflexivity|]. inversion Hdigits as [|? ? Hd _]; subst.
    apply is_digit_clean, Hd. }
  unfold PathSafety.sanitizeFilename.
  destruct (pre ++ rest) as [|c0 s0] eqn:Eraw;
    [destruct Hhead as (d & tail & -> & _); discriminate Eraw|].
  rewrite <- Eraw. clear Eraw c0 s0.
  assert (Hchain : PathSafety.replace_leading_dots
                     (PathSafety.replace_control
                        (PathSafety.replace_separators
                           (PathSafety.remove_null_bytes (pre ++ rest))))
                   = pre ++ PathSafety.replace_control
                              (PathSafety.replace_separators
                                 (PathSafety.remove_null_bytes rest))).
  { unfold PathSafety.remove_null_bytes, PathSafety.replace_separators,
      PathSafety.replace_control.
    rewrite List.filter_app, !map_app.
    assert (H1 : List.filter (fun c => negb (c =? NUL)%N) pre = pre).
    { clear Hhead Hlen. induction Hpre as [|c l [_ Hc] _ IH]; [reflexivity|].
      cbn [List.filter]. rewrite (proj2 (N.eqb_neq c NUL) Hc). cbn [negb].
      rewrite IH. reflexivity. }
    rewrite H1.
    assert (H2 : map (fun c => if (c =? SLASH)%N || (c =? BACKSLASH)%N
                               then UNDERSCORE else c) pre = pre).
    { clear Hhead Hlen H1. induction Hpre as [|c l [(Hs & Hb & _) _] _ IH]; [reflexivity|].
      cbn [map]. rewrite (proj2 (N.eqb_neq c SLASH) Hs), (proj2 (N.eqb_neq c BACKSLASH) Hb).
      cbn [orb]. rewrite IH. reflexivity. }
    rewrite H2.
    assert (H3 : map (fun c => if PathSafety.is_control c then UNDERSCORE else c) pre = pre).
    { clear Hhead Hlen H1 H2. induction Hpre as [|c l [(_ & _ & Hctl) _] _ IH]; [reflexivity|].
      cbn [map]. rewrite Hctl, IH. reflexivity. }
    rewrite H3.
    destruct Hhead as (d & tail & -> & Hd). cbn [app PathSafety.replace_leading_dots].
    rewrite (proj2 (N.eqb_neq d DOT) Hd). reflexivity. }
  rewrite Hchain. set (tail := PathSafety.replace_control _).
  destruct (255 <? length (pre ++ tail))%nat.
  - rewrite take_app_ge by lia.
    destruct (_ =? 0)%nat; [discriminate|]. intros [= <-]. apply startsWith_app.
  - destruct (_ =? 0)%nat; [discriminate|]. intros [= <-]. apply startsWith_app.
Qed.

(** X28.  When a thread is deleted the handler never throws, and afterwards
    no history or context file of that thread is left: no file whose name is
    a safe key that starts with the thread id and a dash and ends in
    [".json"].  Every other file is as before, apart from files whose name
    starts with the same id and dash. *)
Theorem threadDelete_removes_thread_files threadId st :
  NodePath.isAbsolute cwd = true ->
  Validation.is_snowflake threadId = true ->
  fst (threadDelete cwd threadId st) = Ok tt
  /\ (forall key,
        safe_key key ->
        startsWith key (threadId ++ js "-") = true ->
        endsWith key (js ".json") = true ->
        files (snd (threadDelete cwd threadId st))
          !! (PathSafety.DATA_DIR cwd ++ NodePath.sep ++ key) = None)
  /\ (forall q,
        files (snd (threadDelete cwd threadId st)) !! q = files st !! q
        \/ (files (snd (threadDelete cwd threadId st)) !! q = None
            /\ exists key, q = PathSafety.DATA_DIR cwd ++ NodePath.sep ++ key
                           /\ startsWith key (threadId ++ js "-") = true)).
Proof.
  intros Habs Hid. unfold threadDelete, try_catch, io_bind, readdir.
  fold (PathSafety.DATA_DIR cwd).
  set (listed := omap (entry (PathSafety.DATA_DIR cwd)) (map fst (map_to_list (files st)))).
  set (wanted := fun file => startsWith file (threadId ++ js "-") && endsWith file (js ".json")).
  set (l := List.filter wanted listed).
  assert (Hrun : (if (length l =? 0)%nat then io_ret tt else discard_all cwd l) st
                 = discard_all cwd l st).
  { destruct l; reflexivity. }
  rewrite Hrun. clear Hrun.
  destruct (discard_all cwd l st) as [r st'] eqn:E.
  assert (Hok : r = Ok tt).
  { pose proof (proj1 (discard_all_run [] l st)) as H. rewrite E in H. exact H. }
  subst r. cbn [fst snd]. split; [reflexivity|]. split.
  - intros key Hkey Hpre Hsuf.
    set (p := PathSafety.DATA_DIR cwd ++ NodePath.sep ++ key).
    destruct (discard_all_run p l st) as (_ & Hgone & Hkept). rewrite E in Hgone, Hkept.
    cbn [snd] in Hgone, Hkept.
    destruct (files st !! p) as [c|] eqn:Hfile.
    + apply Hgone. exists key. split.
      * apply list_elem_of_In, filter_In. split.
        -- apply list_elem_of_In, list_elem_of_omap. exists p. split.
           ++ apply list_elem_of_fmap. exists (p, c). split; [reflexivity|].
              apply elem_of_map_to_list, Hfile.
           ++ apply entry_of_key, Hkey.
        -- unfold wanted. rewrite Hpre, Hsuf. reflexivity.
      * apply getSafeDataPath_run; [exact Habs|apply safe_key_fixed, Hkey].
    + destruct Hkept as [Hsame|[Hnone _]]; [congruence|exact Hnone].
  - intros q. destruct (discard_all_run q l st) as (_ & _ & Hkept). rewrite E in Hkept.
    cbn [snd] in Hkept. destruct Hkept as [Hsame|[Hnone (file & Hin & Hq)]];
      [left; exact Hsame|right].
    split; [exact Hnone|].
    apply list_elem_of_In, filter_In in Hin as [_ Hwanted].
    unfold wanted in Hwanted. apply andb_true_iff in Hwanted as [Hpre _].
    apply startsWith_prefix in Hpre as [rest ->].
    destruct (PathSafety.sanitizeFilename ((threadId ++ js "-") ++ rest)) as [key|e] eqn:Ekey.
    + exists key. split.
      * rewrite (getSafeDataPath_run cwd _ key Habs Ekey) in Hq. congruence.
      * apply (sanitizeFilename_keeps_thread_prefix threadId rest key Hid Ekey).
    + unfold PathSafety.getSafeDataPath in Hq. rewrite Ekey in Hq. discriminate Hq.
Qed.

End ThreadDeleteFacts.

(** The history of one user in the thread, next to a file of another
    thread. *)
Lemma threadDelete_removes_thread_files_witness :
  let id := js "12345678901234567" in
  let st := mkFs {[history_file app_dir id (js "alice") := Doc (JObject ∅);
                   history_file app_dir (js "99999999999999999") (js "bob") := Blank]} [] in
  files (snd (ThreadDelete.threadDelete app_dir id st))
    !! (PathSafety.DATA_DIR app_dir ++ NodePath.sep ++ js "12345678901234567-alice.json")
  = None.
Proof.
  cbv zeta.
  apply (proj1 (proj2 (threadDelete_removes_thread_files app_dir (js "12345678901234567")
                         _ eq_refl eq_refl))).
  - repeat split; [discriminate|cbn; lia| |discriminate].
    apply Forall_forall. intros c Hc. apply list_elem_of_In in Hc. cbn in Hc.
    repeat (destruct Hc as [<-|Hc]; [repeat split; (discriminate || reflexivity)|]).
    destruct Hc.
  - reflexivity.
  - reflexivity.
Defined.

Example threadDelete_keeps_other_threads :
  let id := js "12345678901234567" in
  let other := history_file app_dir (js "99999999999999999") (js "bob") in
  let st := mkFs {[history_file app_dir id (js "alice") := Doc (JObject ∅);
                   context_file app_dir id := Doc (JObject ∅);
                   other := Blank]} [] in
  fst (ThreadDelete.threadDelete app_dir id st) = Ok tt
  /\ files (snd (ThreadDelete.threadDelete app_dir id st)) !! other = Some Blank
  /\ files (snd (ThreadDelete.threadDelete app_dir id st))
       !! history_file app_dir id (js "alice") = None
  /\ files (snd (ThreadDelete.threadDelete app_dir id st)) !! context_file app_dir id
     = None.
Proof. vm_compute. repeat split; reflexivity. Qed.
